(** * The chat-timeline assigner of [src/components/ChatExample.tsx]

    A shallow embedding of the date-window generator, the sender script, the
    date-break partitioner and the date/time assignment loop of
    [generateTimestamps], together with the properties the specification
    states about them.  The date headers of the component, the blackjack
    gate of [src/components/BlackjackVerification.tsx] and the code check of
    the translation route follow, with further properties of the code.

    Modelling conventions.
    - A JavaScript [Date] is a local calendar day number ([day], days since
      1970-01-01, a Thursday) and the milliseconds elapsed within that day
      ([msOfDay]).  [setDate(getDate() + k)] moves the day number by [k] and
      [setHours(h, 0, 0, 0)] overwrites the time of day; local days are taken
      to be 24 hours long (no daylight-saving jump is modelled).
    - JavaScript numbers that the code subtracts are [Z]; array positions of
      [forEach] and of the break list are [nat].
    - [undefined] is [None]; a thrown [TypeError] and a loop that does not
      finish are the two abnormal cases of [completion].
    - Strings are [string]; [\s] of the time pattern is ASCII white space. *)

From Stdlib Require Import Ascii.
From stdpp Require Import gmap strings list pretty sorting.

Open Scope Z_scope.

(** ** Completions: a value, a thrown TypeError, or an unfinished loop *)

Inductive completion (A : Type) : Type :=
  | Normal (a : A)
  | Throws
  | Unfinished.
Arguments Normal {A} a.
Arguments Throws {A}.
Arguments Unfinished {A}.

#[global] Instance completion_ret : MRet completion := fun A a => Normal a.
#[global] Instance completion_bind : MBind completion := fun A B f c =>
  match c with
  | Normal a => f a
  | Throws => Throws
  | Unfinished => Unfinished
  end.
#[global] Instance completion_fmap : FMap completion := fun A B f c =>
  match c with
  | Normal a => Normal (f a)
  | Throws => Throws
  | Unfinished => Unfinished
  end.

(** ** Dates *)

Record Date : Type := mkDate { day : Z; msOfDay : Z }.

#[global] Instance Date_eq_dec : EqDecision Date.
Proof. solve_decision. Defined.

Definition MS_PER_DAY : Z := 86400000.
Definition MS_PER_HOUR : Z := 3600000.

(** [d.getTime()] *)
Definition getTime (d : Date) : Z := day d * MS_PER_DAY + msOfDay d.

(** [d.getDay()]: 0 is Sunday, 6 is Saturday. *)
Definition getDay (d : Date) : Z := (day d + 4) mod 7.

(** [d.setHours(h, 0, 0, 0)] *)
Definition setHours (d : Date) (h : Z) : Date := mkDate (day d) (h * MS_PER_HOUR).

(** [d.setDate(d.getDate() + k)] *)
Definition addDays (d : Date) (k : Z) : Date := mkDate (day d + k) (msOfDay d).

(** [const n = new Date(d); n.setHours(0, 0, 0, 0)] *)
Definition normalizeDate (d : Date) : Date := setHours d 0.

(** [a[i]] for a JavaScript number [i] that is an integer. *)
Definition lookupZ {A : Type} (l : list A) (i : Z) : option A :=
  if i <? 0 then None else l !! Z.to_nat i.

(** ** generateDates *)

Definition isWeekdayNumber (dayOfWeek : Z) : bool :=
  (1 <=? dayOfWeek) && (dayOfWeek <=? 5).

Definition isWeekday (d : Date) : bool := isWeekdayNumber (getDay d).

(** The [while] loop of [generateDates]; [fuel] bounds the number of
    iterations the model follows. *)
Fixpoint countDaysBack (fuel : nat) (today : Date) (daysBack weekdayCount : Z)
  : completion (Z * Z) :=
  let minDays := 3 in
  if (weekdayCount <? minDays) || (daysBack <? minDays) then
    match fuel with
    | O => Unfinished
    | S fuel' =>
        let checkDate := addDays today (- daysBack) in
        let dayOfWeek := getDay checkDate in
        let weekdayCount' :=
          if isWeekdayNumber dayOfWeek then weekdayCount + 1 else weekdayCount in
        let daysBack' := daysBack + 1 in
        if daysBack' >? 14 then Normal (daysBack', weekdayCount')
        else countDaysBack fuel' today daysBack' weekdayCount'
    end
  else Normal (daysBack, weekdayCount).

(** [for (let i = daysBack; i >= 0; i--) dates.push(today - i)] *)
Definition datesBackFrom (today : Date) (daysBack : Z) : list Date :=
  (fun i => addDays today (- i)) <$> reverse (seqZ 0 (daysBack + 1)).

(** [now] is the value of [new Date()] at the call. *)
Definition generateDates (now : Date) : completion (list Date) :=
  let today := setHours now 0 in
  '(daysBack, _) ← countDaysBack 15 today 0 0;
  mret (datesBackFrom today daysBack).

(** ** Business hours *)

Definition isWeekend (d : Date) : bool :=
  let dayOfWeek := getDay d in (dayOfWeek =? 0) || (dayOfWeek =? 6).

Definition BUSINESS_HOUR_START : Z := 9.
Definition BUSINESS_HOUR_END : Z := 17.

(** *** The pattern [/(\d+):(\d+)\s*(AM|PM)/i] *)

Definition isDigit (c : ascii) : bool :=
  let n := nat_of_ascii c in (48 <=? n)%nat && (n <=? 57)%nat.

Definition isSpace (c : ascii) : bool :=
  let n := nat_of_ascii c in ((9 <=? n)%nat && (n <=? 13)%nat) || (n =? 32)%nat.

Definition isLetter (upper : ascii) (c : ascii) : bool :=
  let n := nat_of_ascii c in
  let u := nat_of_ascii upper in (n =? u)%nat || (n =? u + 32)%nat.

(** The longest run of digits at the front, and what follows it. *)
Fixpoint spanDigits (s : list ascii) : list ascii * list ascii :=
  match s with
  | c :: s' =>
      if isDigit c then let '(ds, rest) := spanDigits s' in (c :: ds, rest)
      else ([], s)
  | [] => ([], [])
  end.

Fixpoint dropSpaces (s : list ascii) : list ascii :=
  match s with
  | c :: s' => if isSpace c then dropSpaces s' else s
  | [] => []
  end.

Inductive Period : Type := AM | PM.

Definition matchPeriod (s : list ascii) : option Period :=
  match s with
  | a :: m :: _ =>
      if isLetter "M" m then
        if isLetter "A" a then Some AM
        else if isLetter "P" a then Some PM else None
      else None
  | _ => None
  end.

(** A match that starts exactly at the front of [s]: groups 1, 2 and 3.
    Every quantifier of the pattern is followed by a character outside its
    class, so the greedy choice is the only one that can succeed. *)
Definition matchTimeHere (s : list ascii)
  : option (list ascii * list ascii * Period) :=
  let '(hourDigits, r1) := spanDigits s in
  match hourDigits, r1 with
  | _ :: _, colon :: r2 =>
      if Ascii.eqb colon ":" then
        let '(minuteDigits, r3) := spanDigits r2 in
        match minuteDigits with
        | _ :: _ =>
            match matchPeriod (dropSpaces r3) with
            | Some p => Some (hourDigits, minuteDigits, p)
            | None => None
            end
        | [] => None
        end
      else None
  | _, _ => None
  end.

(** [timeString.match(...)]: the leftmost position where the pattern matches. *)
Fixpoint matchTime (s : list ascii) : option (list ascii * list ascii * Period) :=
  match matchTimeHere s with
  | Some m => Some m
  | None =>
      match s with
      | _ :: s' => matchTime s'
      | [] => None
      end
  end.

(** [parseInt(digits, 10)] on a non-empty run of decimal digits. *)
Definition parseInt (digits : list ascii) : Z :=
  fold_left (fun acc c => acc * 10 + (Z.of_nat (nat_of_ascii c) - 48)) digits 0.

Definition parseTimeToHour (timeString : string) : Z :=
  match matchTime (String.list_ascii_of_string timeString) with
  | None => BUSINESS_HOUR_START
  | Some (digits, _, period) =>
      let hour := parseInt digits in
      match period with
      | PM => if negb (hour =? 12) then hour + 12 else hour
      | AM => if hour =? 12 then 0 else hour
      end
  end.

Definition isWithinBusinessHours (timeString : string) : bool :=
  let hour := parseTimeToHour timeString in
  (BUSINESS_HOUR_START <=? hour) && (hour <=? BUSINESS_HOUR_END).

(** The [while (isWeekend(nextDate))] loop of [getNextBusinessDay]. *)
Fixpoint skipWeekend (fuel : nat) (nextDate : Date) : completion Date :=
  if isWeekend nextDate then
    match fuel with
    | O => Unfinished
    | S fuel' => skipWeekend fuel' (addDays nextDate 1)
    end
  else Normal nextDate.

Definition getNextBusinessDay (date : Date) : completion Date :=
  skipWeekend 7 (setHours (addDays date 1) BUSINESS_HOUR_START).

(** [date] may be [undefined], in which case [date.getDay()] throws. *)
Definition adjustToBusinessHours (date : option Date) (timeString : string)
  : completion (Date * string) :=
  match date with
  | None => Throws
  | Some d =>
      if isWeekend d then
        nextBusinessDay ← getNextBusinessDay d;
        mret (nextBusinessDay, "9:00 AM"%string)
      else if negb (isWithinBusinessHours timeString) then
        nextBusinessDay ← getNextBusinessDay d;
        mret (nextBusinessDay, "9:00 AM"%string)
      else mret (d, timeString)
  end.

(** ** Senders and messages *)

Inductive Sender : Type := you | support.
Inductive ConversationType : Type := bad | good.

#[global] Instance Sender_eq_dec : EqDecision Sender.
Proof. solve_decision. Defined.

Definition isSupport (s : Sender) : bool :=
  match s with support => true | you => false end.
Definition isYou (s : Sender) : bool :=
  match s with you => true | support => false end.

Record AssignedMessage : Type := mkMessage {
  text : string;
  sender : Sender;
  date : option Date;
  timestamp : option string;
  dateBreakIndex : Z
}.

Definition conversationScript (type : ConversationType) : list Sender :=
  match type with
  | bad => [you; support; you; support; you; support; you; support]
  | good => [you; support]
  end.

(** [index] is a [forEach] position.  Inside the guard the position is
    below the script length, so [script[index]] is defined. *)
Definition getSenderForMessage (type : ConversationType) (index : nat) : Sender :=
  let script := conversationScript type in
  match (if (index <? length script)%nat then script !! index else None) with
  | Some s => s
  | None => if (index mod 2 =? 0)%nat then you else support
  end.

(** ** generateTimestamps *)

(** The condition under which position [i] (from 1 up) is pushed on
    [dateBreaks]. *)
Definition startsDateBreak (messages : list AssignedMessage) (i : nat) : bool :=
  match messages !! i, messages !! (i - 1)%nat with
  | Some current, Some prev =>
      (i mod 2 =? 0)%nat || (isSupport (sender prev) && isYou (sender current))
  | _, _ => false
  end.

Definition computeDateBreaks (messages : list AssignedMessage) : list nat :=
  0%nat :: filter (fun i => startsDateBreak messages i = true)
                  (seq 1 (length messages - 1)).

(** The greatest position of [l] (numbered from [i]) whose entry satisfies
    [p]: what a descending [for] loop with [break] stops at. *)
Fixpoint findLastIndex {A : Type} (p : A -> bool) (l : list A) (i : nat)
  : option nat :=
  match l with
  | [] => None
  | x :: l' =>
      match findLastIndex p l' (S i) with
      | Some j => Some j
      | None => if p x then Some i else None
      end
  end.

(** The least such position: an ascending [for] loop with [break]. *)
Fixpoint findFirstIndex {A : Type} (p : A -> bool) (l : list A) (i : nat)
  : option nat :=
  match l with
  | [] => None
  | x :: l' => if p x then Some i else findFirstIndex p l' (S i)
  end.

Definition findDateBreakIndex (dateBreaks : list nat) (index : nat) : nat :=
  match findLastIndex (fun start => (start <=? index)%nat) dateBreaks 0 with
  | Some i => i
  | None => 0%nat
  end.

Definition mapDateBreak (totalDateBreaks dateBreakIndex : nat) (availableDates : list Date) : Z :=
  let len := Z.of_nat (length availableDates) in
  if (0 <? Z.of_nat totalDateBreaks) then
    Z.max 0 (Z.min (len - 1 - (Z.of_nat totalDateBreaks - 1 - Z.of_nat dateBreakIndex))
                   (len - 1))
  else len - 1.

(** The weekend guard for support messages (source lines 305-341). *)
Definition avoidWeekend (availableDates : list Date) (mappedDateIndex : Z) : Z :=
  match lookupZ availableDates mappedDateIndex with
  | Some initialDate =>
      if isWeekend initialDate then
        let start := S (Z.to_nat mappedDateIndex) in
        match findFirstIndex isWeekday (drop start availableDates) start with
        | Some i => Z.of_nat i
        | None =>
            match findLastIndex isWeekday
                    (take (Z.to_nat mappedDateIndex) availableDates) 0 with
            | Some i => Z.of_nat i
            | None => mappedDateIndex
            end
        end
      else mappedDateIndex
  | None => mappedDateIndex
  end.

Definition businessHoursTimes : list string :=
  ["9:07 AM"; "11:19 AM"; "2:00 PM"; "4:07 PM"]%string.
Definition allTimes : list string :=
  ["9:07 AM"; "11:19 AM"; "2:00 PM"; "4:07 PM"; "5:26 PM"; "6:31 PM"; "7:15 PM"]%string.

(** [normalizeDate(msg.date).getTime().toString()]; an undefined date gives
    an invalid Date, whose time prints as NaN. *)
Definition dateKeyOf (d : option Date) : string :=
  match d with
  | Some d => pretty (getTime (normalizeDate d))
  | None => "NaN"%string
  end.

Definition chooseTimeIndex (lastTimeIndex : option Z) (dateBreakIndex : nat)
    (times : list string) : Z :=
  let len := Z.of_nat (length times) in
  match lastTimeIndex with
  | None => Z.min (Z.of_nat dateBreakIndex) (len - 1)
  | Some last =>
      let timeIndex := last + 1 in
      if timeIndex >=? len then len - 1 else timeIndex
  end.

(** The re-search of the window after [adjustToBusinessHours]
    (source lines 405-430): the date the message ends on. *)
Definition relocate (availableDates : list Date) (adjustedDate : Date)
    (current : option Date) : option Date :=
  let normalizedAdjusted := normalizeDate adjustedDate in
  match List.find (fun availableDate =>
           (getTime (normalizeDate availableDate) =? getTime normalizedAdjusted)
           && negb (isWeekend availableDate)) availableDates with
  | Some availableDate => Some availableDate
  | None =>
      match List.find (fun availableDate =>
               (getTime (normalizeDate availableDate) >=? getTime normalizedAdjusted)
               && negb (isWeekend availableDate)) availableDates with
      | Some availableDate => Some availableDate
      | None => current
      end
  end.

(** What one iteration of the [forEach] leaves behind: the message, the
    updated [lastTimeIndexByDate], the time read from the candidate list
    ([times[timeIndex]]) and whether the out-of-hours branch ran. *)
Record Iteration : Type := mkIteration {
  message : AssignedMessage;
  lastTimeIndexByDate : gmap string Z;
  selectedTime : option string;
  adjusted : bool
}.

Definition processMessage (availableDates : list Date) (dateBreaks : list nat)
    (lastTimes : gmap string Z) (index : nat) (msg : AssignedMessage)
  : completion Iteration :=
  let totalDateBreaks := length dateBreaks in
  let dateBreakIndex := findDateBreakIndex dateBreaks index in
  let mappedDateIndex0 := mapDateBreak totalDateBreaks dateBreakIndex availableDates in
  let mappedDateIndex :=
    if isSupport (sender msg) then avoidWeekend availableDates mappedDateIndex0
    else mappedDateIndex0 in
  let msgDate := lookupZ availableDates mappedDateIndex in
  let times := if isSupport (sender msg) then businessHoursTimes else allTimes in
  let dateKey := dateKeyOf msgDate in
  let timeIndex := chooseTimeIndex (lastTimes !! dateKey) dateBreakIndex times in
  let assignedTime := lookupZ times timeIndex in
  let lastTimes' := <[dateKey := timeIndex]> lastTimes in
  let finish (d : option Date) (t : option string) (adj : bool) :=
    mkIteration
      (mkMessage (text msg) (sender msg) d t (Z.of_nat dateBreakIndex))
      lastTimes' assignedTime adj in
  if isSupport (sender msg) then
    match assignedTime with
    | None => Throws
    | Some raw =>
        if negb (isWithinBusinessHours raw) then
          '(adjustedDate, adjustedTime) ← adjustToBusinessHours msgDate raw;
          mret (finish (relocate availableDates adjustedDate msgDate)
                       (Some adjustedTime) true)
        else mret (finish msgDate assignedTime false)
    end
  else mret (finish msgDate assignedTime false).

(** [messages.forEach((msg, index) => ...)], from position [index] on. *)
Fixpoint forEachMessage (availableDates : list Date) (dateBreaks : list nat)
    (lastTimes : gmap string Z) (index : nat) (messages : list AssignedMessage)
  : completion (list Iteration) :=
  match messages with
  | [] => mret []
  | msg :: rest =>
      it ← processMessage availableDates dateBreaks lastTimes index msg;
      its ← forEachMessage availableDates dateBreaks (lastTimeIndexByDate it)
              (S index) rest;
      mret (it :: its)
  end.

Definition traceTimestamps (messages : list AssignedMessage)
    (availableDates : list Date) : completion (list Iteration) :=
  forEachMessage availableDates (computeDateBreaks messages) ∅ 0 messages.

Definition generateTimestamps (messages : list AssignedMessage)
    (availableDates : list Date) : completion (list AssignedMessage) :=
  fmap (M := completion) (fmap message) (traceTimestamps messages availableDates).

(** ** assignMessagesToUsers

    [clock index] is what [new Date()] returns when the placeholder date of
    the message at [index] is created. *)
Definition firstPass (clock : nat -> Date) (rawMessages : list string)
    (conversationType : ConversationType) : list AssignedMessage :=
  imap (fun index text =>
          mkMessage text (getSenderForMessage conversationType index)
                    (Some (clock index)) (Some ""%string) 0) rawMessages.

Definition assignMessagesToUsers (clock : nat -> Date) (rawMessages : list string)
    (availableDates : list Date) (conversationType : ConversationType)
  : completion (list AssignedMessage) :=
  generateTimestamps (firstPass clock rawMessages conversationType) availableDates.

(** The two [useMemo] computations of the component in sequence. *)
Definition chatTimeline (now : Date) (clock : nat -> Date)
    (rawMessages : list string) (conversationType : ConversationType)
  : completion (list AssignedMessage) :=
  availableDates ← generateDates now;
  assignMessagesToUsers clock rawMessages availableDates conversationType.

(** ** The date headers of the component

    [shownDateBreaks] of [ChatExample]: the positions at which a date
    separator is rendered. *)

(** [normalizeDate(d).getTime()]; an undefined date gives an invalid Date,
    whose time is NaN ([None]). *)
Definition normalizedTime (d : option Date) : option Z :=
  (fun d => getTime (normalizeDate d)) <$> d.

(** [a !== b] on the two times; NaN differs from every number and from
    itself. *)
Definition timesDiffer (a b : option Z) : bool :=
  match a, b with
  | Some x, Some y => negb (x =? y)
  | _, _ => true
  end.

(** Whether the callback of the [forEach] adds [index] to the set. *)
Definition addsDateBreak (assignedMessages : list AssignedMessage) (index : nat)
    (msg : AssignedMessage) : bool :=
  let prevMsg :=
    if (0 <? index)%nat then assignedMessages !! (index - 1)%nat else None in
  match prevMsg with
  | None => true
  | Some prev =>
      if negb (dateBreakIndex prev =? dateBreakIndex msg) then true
      else if negb (bool_decide (sender prev = sender msg)) then
        timesDiffer (normalizedTime (date prev)) (normalizedTime (date msg))
      else false
  end.

Definition shownDateBreaks (assignedMessages : list AssignedMessage) : gset nat :=
  foldl (fun (breaks : gset nat) '(index, msg) =>
           if addsDateBreak assignedMessages index msg
           then {[index]} ∪ breaks else breaks)
        ∅ (imap (fun index msg => (index, msg)) assignedMessages).

(** The window position a message ends on in [generateTimestamps]
    (source lines 286-343), as a function of its position and sender. *)
Definition windowIndexOf (availableDates : list Date) (dateBreaks : list nat)
    (index : nat) (s : Sender) : Z :=
  let mapped :=
    mapDateBreak (length dateBreaks) (findDateBreakIndex dateBreaks index)
                 availableDates in
  if isSupport s then avoidWeekend availableDates mapped else mapped.

(** * The translation route of [functions/translations/[language].ts]

    The part of [onRequestGet] that runs before the request to the bucket:
    the check of the language code and the choice of the URL. *)

Definition isLowerAZ (c : ascii) : bool :=
  let n := nat_of_ascii c in (97 <=? n)%nat && (n <=? 122)%nat.

Definition isUpperAZ (c : ascii) : bool :=
  let n := nat_of_ascii c in (65 <=? n)%nat && (n <=? 90)%nat.

(** [/^[a-z]{2}(-[A-Z]{2})?$/.test(language)] *)
Definition validLanguageCode (language : string) : bool :=
  match String.list_ascii_of_string language with
  | [a; b] => isLowerAZ a && isLowerAZ b
  | [a; b; hyphen; c; d] =>
      isLowerAZ a && isLowerAZ b && Ascii.eqb hyphen "-" && isUpperAZ c && isUpperAZ d
  | _ => false
  end.

Record Env : Type := mkEnv {
  B2_BUCKET_URL : option string;
  B2_BUCKET_NAME : option string;
  B2_DOWNLOAD_URL : option string
}.

(** The truth value JavaScript gives an optional string: undefined and the
    empty string are false. *)
Definition isSet (v : option string) : bool :=
  match v with
  | Some s => negb (String.eqb s "")
  | None => false
  end.

Definition valueOf (v : option string) : string := default ""%string v.

(** Either the response returned at once (status, error text and the
    Cache-Control header when there is one) or the URL to fetch. *)
Inductive Plan : Type :=
  | Respond (status : Z) (error : string) (cacheControl : option string)
  | FetchFrom (b2Url : string).

Definition planRequest (language : string) (env : Env) : Plan :=
  if negb (isSet (Some language)) || negb (validLanguageCode language) then
    Respond 400 "Invalid language code" None
  else if isSet (B2_BUCKET_URL env) then
    FetchFrom (valueOf (B2_BUCKET_URL env) +:+ "/translations/" +:+ language +:+ ".json")
  else if isSet (B2_BUCKET_NAME env) && isSet (B2_DOWNLOAD_URL env) then
    FetchFrom (valueOf (B2_DOWNLOAD_URL env) +:+ "/file/" +:+ valueOf (B2_BUCKET_NAME env)
               +:+ "/translations/" +:+ language +:+ ".json")
  else Respond 503 "Translation service not configured" (Some "no-cache"%string).

(** * The blackjack gate of [src/components/BlackjackVerification.tsx]

    Cards are the numbers 1 to 13 that [getRandomCard] returns (1 an ace,
    11 to 13 the face cards); the cards a run draws are an input of the
    model.  The handlers are taken to see the current state. *)

(** The body of the [for] loop of [calculateHandTotal] on the pair of the
    running total and the number of aces. *)
Definition addCard (acc : Z * nat) (card : Z) : Z * nat :=
  let '(total, aces) := acc in
  if card =? 1 then (total + 11, S aces)
  else if card >=? 11 then (total + 10, aces)
  else (total + card, aces).

(** [while (total > 21 && aces > 0) { total -= 10; aces--; }] *)
Fixpoint adjustForAces (aces : nat) (total : Z) : Z :=
  match aces with
  | O => total
  | S aces' => if total >? 21 then adjustForAces aces' (total - 10) else total
  end.

(** The result is the triple [{ total, isBusted, isBlackjack }]. *)
Definition calculateHandTotal (cards : list Z) : Z * bool * bool :=
  let '(total0, aces) := fold_left addCard cards (0, 0%nat) in
  let total := adjustForAces aces total0 in
  (total, total >? 21, (length cards =? 2)%nat && (total =? 21)).

Record BlackjackHand : Type := mkHand {
  cards : list Z;
  total : Z;
  isBusted : bool;
  isBlackjack : bool
}.

Definition handOf (cs : list Z) : BlackjackHand :=
  let '(t, busted, blackjack) := calculateHandTotal cs in
  mkHand cs t busted blackjack.

(** [createHand], the two cards drawn being [c1] and [c2]. *)
Definition createHand (c1 c2 : Z) : BlackjackHand := handOf [c1; c2].

Inductive GameStatus : Type := playing | player_won | dealer_won | tie.

Record BlackjackGameState : Type := mkGame {
  playerHand : BlackjackHand;
  dealerHand : BlackjackHand;
  gameStatus : GameStatus;
  isDealerRevealed : bool
}.

(** The [while (dealerTotal < 17)] loop of [playDealerTurn]; [supply] are
    the cards [getRandomCard] returns, in order. *)
Fixpoint dealerDraws (fuel : nat) (supply : nat -> Z) (drawn : nat)
    (dealerCards : list Z) : completion (list Z) :=
  if (calculateHandTotal dealerCards).1.1 <? 17 then
    match fuel with
    | O => Unfinished
    | S fuel' =>
        dealerDraws fuel' supply (S drawn) (dealerCards ++ [supply drawn])
    end
  else Normal dealerCards.

Definition decideWinner (currentPlayerHand dealerHand : BlackjackHand) : GameStatus :=
  if isBlackjack currentPlayerHand && isBlackjack dealerHand then tie
  else if isBlackjack currentPlayerHand then player_won
  else if isBusted dealerHand || (total currentPlayerHand >? total dealerHand)
  then player_won
  else if total dealerHand >? total currentPlayerHand then dealer_won
  else tie.

(** The state update of [playDealerTurn]. *)
Definition playDealerTurn (fuel : nat) (supply : nat -> Z)
    (currentPlayerHand : BlackjackHand) (prev : BlackjackGameState)
  : completion BlackjackGameState :=
  dealerCards ← dealerDraws fuel supply 0 (cards (dealerHand prev));
  let '(t, busted, _) := calculateHandTotal dealerCards in
  let dealer :=
    mkHand dealerCards t busted ((length dealerCards =? 2)%nat && (t =? 21)) in
  mret (mkGame currentPlayerHand dealer (decideWinner currentPlayerHand dealer) true).

Definition isPlaying (s : GameStatus) : bool :=
  match s with playing => true | _ => false end.

(** [handleHit], the card drawn being [newCard]. *)
Definition handleHit (newCard : Z) (gameState : BlackjackGameState)
  : BlackjackGameState :=
  if negb (isPlaying (gameStatus gameState)) || isBusted (playerHand gameState)
     || (total (playerHand gameState) =? 21)
  then gameState
  else
    let newPlayerHand := handOf (cards (playerHand gameState) ++ [newCard]) in
    if isBusted newPlayerHand then
      mkGame newPlayerHand (dealerHand gameState) dealer_won true
    else
      mkGame newPlayerHand (dealerHand gameState) (gameStatus gameState)
             (isDealerRevealed gameState).

Definition handleStand (fuel : nat) (supply : nat -> Z)
    (gameState : BlackjackGameState) : completion BlackjackGameState :=
  if negb (isPlaying (gameStatus gameState)) || isDealerRevealed gameState
     || (total (playerHand gameState) =? 21)
  then mret gameState
  else playDealerTurn fuel supply (playerHand gameState) gameState.

(** The effect that runs the dealer when the player has busted or holds 21. *)
Definition dealerEffect (fuel : nat) (supply : nat -> Z)
    (gameState : BlackjackGameState) : completion BlackjackGameState :=
  if isPlaying (gameStatus gameState) && negb (isDealerRevealed gameState) then
    if isBusted (playerHand gameState) then
      mret (mkGame (playerHand gameState) (dealerHand gameState) dealer_won true)
    else if total (playerHand gameState) =? 21 then
      playDealerTurn fuel supply (playerHand gameState) gameState
    else mret gameState
  else mret gameState.

(** The new game the result effect starts after a loss or a tie. *)
Definition newGame (p1 p2 d1 d2 : Z) : BlackjackGameState :=
  mkGame (createHand p1 p2) (createHand d1 d2) playing false.

Definition isCard (card : Z) : Prop := 1 <= card <= 13.

(** The value of a card with every ace counted as 1. *)
Definition hardValue (card : Z) : Z :=
  if card =? 1 then 1 else if card >=? 11 then 10 else card.

Definition hardTotal (cs : list Z) : Z := foldr (fun card acc => hardValue card + acc) 0 cs.

Definition countAces (cs : list Z) : nat := length (List.filter (fun card => card =? 1) cs).

(** The states a game can be in: a new game, then hits, stands, runs of
    the dealer effect and restarts after a loss or a tie, every card drawn
    being one of 1 to 13. *)
Inductive reachable : BlackjackGameState -> Prop :=
  | reach_new p1 p2 d1 d2 :
      isCard p1 -> isCard p2 -> isCard d1 -> isCard d2 ->
      reachable (newGame p1 p2 d1 d2)
  | reach_hit s newCard :
      reachable s -> isCard newCard -> reachable (handleHit newCard s)
  | reach_stand s s' fuel supply :
      reachable s -> (forall n, isCard (supply n)) ->
      handleStand fuel supply s = Normal s' -> reachable s'
  | reach_effect s s' fuel supply :
      reachable s -> (forall n, isCard (supply n)) ->
      dealerEffect fuel supply s = Normal s' -> reachable s'
  | reach_restart s p1 p2 d1 d2 :
      reachable s -> gameStatus s = dealer_won \/ gameStatus s = tie ->
      isCard p1 -> isCard p2 -> isCard d1 -> isCard d2 ->
      reachable (newGame p1 p2 d1 d2).

(** ** Predicates used in the statements *)

Definition countWeekdays (dates : list Date) : nat :=
  length (List.filter isWeekday dates).

Definition nonNegativeIndices (lastTimes : gmap string Z) : Prop :=
  map_Forall (fun _ timeIndex => 0 <= timeIndex) lastTimes.

Definition candidateTimes (s : Sender) : list string :=
  if isSupport s then businessHoursTimes else allTimes.

Definition hasWeekday (availableDates : list Date) : Prop :=
  exists d, d ∈ availableDates /\ isWeekday d = true.

Record iterationOk (availableDates : list Date) (msg : AssignedMessage)
    (it : Iteration) : Prop := {
  ok_text : text (message it) = text msg;
  ok_sender : sender (message it) = sender msg;
  ok_not_adjusted : adjusted it = false;
  ok_timestamp : timestamp (message it) = selectedTime it;
  ok_selected : exists t, selectedTime it = Some t /\ t ∈ candidateTimes (sender msg);
  ok_in_window : availableDates <> [] ->
                 exists d, date (message it) = Some d /\ d ∈ availableDates;
  ok_weekday : sender msg = support -> hasWeekday availableDates ->
               exists d, date (message it) = Some d /\ isWeekend d = false
}.

Definition sameScript (a b : AssignedMessage) : Prop :=
  text a = text b /\ sender a = sender b.

Definition alternating10 : list Sender :=
  [you; support; you; support; you; support; you; support; you; support].

(** The time of day a timestamp denotes, in minutes after midnight: the
    hour as [parseTimeToHour] reads it and the minutes of the same match. *)
Definition minutesOfDay (timeString : string) : Z :=
  match matchTime (String.list_ascii_of_string timeString) with
  | None => parseTimeToHour timeString * 60
  | Some (_, minuteDigits, _) => parseTimeToHour timeString * 60 + parseInt minuteDigits
  end.

(** Messages that share a date carry times of day that do not go back, in
    the order of the list. *)
Definition chronologicalWithinDates (out : list AssignedMessage) : Prop :=
  forall (i j : nat) (mi mj : AssignedMessage) (ti tj : string),
    (i <= j)%nat -> out !! i = Some mi -> out !! j = Some mj ->
    date mi = date mj -> timestamp mi = Some ti -> timestamp mj = Some tj ->
    minutesOfDay ti <= minutesOfDay tj.

Definition tenMessages : list string :=
  ["m0"; "m1"; "m2"; "m3"; "m4"; "m5"; "m6"; "m7"; "m8"; "m9"]%string.

(** 2024-01-03, a Wednesday, at noon. *)
Definition wednesdayNoon : Date := mkDate 19725 (12 * MS_PER_HOUR).

(** What one iteration writes into the message at position [index]. *)
Record placedAt (availableDates : list Date) (dateBreaks : list nat)
    (index : nat) (msg : AssignedMessage) (it : Iteration) : Prop := {
  placed_sender : sender (message it) = sender msg;
  placed_text : text (message it) = text msg;
  placed_date :
    date (message it) =
    lookupZ availableDates (windowIndexOf availableDates dateBreaks index (sender msg));
  placed_break :
    dateBreakIndex (message it) = Z.of_nat (findDateBreakIndex dateBreaks index);
  placed_time : exists t, timestamp (message it) = Some t /\ t ∈ candidateTimes (sender msg)
}.

(** Runs of decimal digits and of white space, as the time pattern reads them. *)
Definition allDigits (s : list ascii) : Prop := Forall (fun c => isDigit c = true) s.
Definition allSpaces (s : list ascii) : Prop := Forall (fun c => isSpace c = true) s.

(** The text of a clock time: hour digits, a colon, minute digits, white
    space and the period letters. *)
Definition clockText (hourDigits minuteDigits spaces period : list ascii) : string :=
  String.string_of_list_ascii (hourDigits ++ ":"%char :: minuteDigits ++ spaces ++ period).

(** A message moved by [c] days, and two tables of last time indices that
    agree up to that move. *)
Definition shiftMessage (c : Z) (m : AssignedMessage) : AssignedMessage :=
  mkMessage (text m) (sender m) ((fun d => addDays d c) <$> date m)
            (timestamp m) (dateBreakIndex m).

Definition shiftedTimes (c : Z) (lastTimes lastTimes' : gmap string Z) : Prop :=
  forall d : Date,
    lastTimes' !! dateKeyOf (Some (addDays d c)) = lastTimes !! dateKeyOf (Some d).

(** A decision procedure for [chronologicalWithinDates]. *)
Definition inOrder (m m' : AssignedMessage) : bool :=
  match timestamp m, timestamp m' with
  | Some t, Some t' =>
      if decide (date m = date m') then minutesOfDay t <=? minutesOfDay t' else true
  | _, _ => true
  end.

Fixpoint chronologicalCheck (out : list AssignedMessage) : bool :=
  match out with
  | [] => true
  | m :: rest => forallb (inOrder m) rest && chronologicalCheck rest
  end.

(** A hand whose fields are what [calculateHandTotal] gives for its cards. *)
Definition consistentHand (h : BlackjackHand) : Prop :=
  h = handOf (cards h) /\ Forall isCard (cards h).

(** What holds in every state of a game. *)
Record gameInvariant (s : BlackjackGameState) : Prop := {
  inv_player : consistentHand (playerHand s);
  inv_dealer : consistentHand (dealerHand s);
  inv_playing :
    gameStatus s = playing ->
    isDealerRevealed s = false /\ isBusted (playerHand s) = false /\
    length (cards (dealerHand s)) = 2%nat;
  inv_over : gameStatus s <> playing -> isDealerRevealed s = true;
  inv_player_won :
    gameStatus s = player_won ->
    isBusted (playerHand s) = false /\ 17 <= total (dealerHand s) /\
    ((isBlackjack (playerHand s) = true /\ isBlackjack (dealerHand s) = false) \/
     isBusted (dealerHand s) = true \/
     total (dealerHand s) < total (playerHand s));
  inv_tie :
    gameStatus s = tie ->
    isBusted (playerHand s) = false /\ isBusted (dealerHand s) = false /\
    17 <= total (dealerHand s) /\ total (playerHand s) = total (dealerHand s);
  inv_dealer_won :
    gameStatus s = dealer_won ->
    isBusted (playerHand s) = true \/
    (isBusted (dealerHand s) = false /\ isBlackjack (playerHand s) = false /\
     total (playerHand s) < total (dealerHand s))
}.

(** * Properties *)

Example parse_samples :
  parseTimeToHour "9:07 AM" = 9 /\ parseTimeToHour "2:00 PM" = 14 /\
  parseTimeToHour "12:30 am" = 0 /\ parseTimeToHour "12:01PM" = 12 /\
  parseTimeToHour "at 7:15   pm" = 19 /\ parseTimeToHour "noon" = 9.
Proof. vm_compute. repeat split. Qed.

Example generateDates_thursday :
  generateDates (mkDate 0 12345) =
  Normal [mkDate (-3) 0; mkDate (-2) 0; mkDate (-1) 0; mkDate 0 0].
Proof. vm_compute. reflexivity. Qed.

(** ** The date window *)

Lemma getDay_shift (today : Date) (k : Z) :
  getDay (addDays today k) = (day today mod 7 + 4 + k) mod 7.
Proof.
  unfold getDay, addDays; simpl.
  replace (day today + k + 4) with (day today + (4 + k)) by lia.
  replace (day today mod 7 + 4 + k) with (day today mod 7 + (4 + k)) by lia.
  now rewrite Zplus_mod_idemp_l.
Qed.

Lemma getDay_range (d : Date) : 0 <= getDay d < 7.
Proof. unfold getDay. apply Z.mod_pos_bound. lia. Qed.

Lemma isWeekday_not_weekend (d : Date) : isWeekday d = negb (isWeekend d).
Proof.
  unfold isWeekday, isWeekdayNumber, isWeekend.
  pose proof (getDay_range d).
  destruct (Z.eqb_spec (getDay d) 0), (Z.eqb_spec (getDay d) 6),
    (Z.leb_spec 1 (getDay d)), (Z.leb_spec (getDay d) 5); simpl; try reflexivity; lia.
Qed.

(** The loop only looks at the day of the week, so it behaves as on the
    representative of [today] in the week of the epoch. *)
Lemma countDaysBack_mod7 (fuel : nat) (today : Date) (daysBack weekdayCount : Z) :
  countDaysBack fuel today daysBack weekdayCount =
  countDaysBack fuel (mkDate (day today mod 7) 0) daysBack weekdayCount.
Proof.
  revert daysBack weekdayCount.
  induction fuel as [|fuel IH]; intros daysBack weekdayCount; simpl; [done|].
  rewrite !getDay_shift. simpl day. rewrite Z.mod_mod by lia.
  destruct ((weekdayCount <? 3) || (daysBack <? 3)); [|done].
  destruct (daysBack + 1 >? 14); [done|]. apply IH.
Qed.

Lemma mod7_cases (z : Z) :
  z mod 7 = 0 \/ z mod 7 = 1 \/ z mod 7 = 2 \/ z mod 7 = 3 \/
  z mod 7 = 4 \/ z mod 7 = 5 \/ z mod 7 = 6.
Proof. pose proof (Z.mod_pos_bound z 7). lia. Qed.

(** The loop always stops through its condition, after 3, 4 or 5 days. *)
Lemma countDaysBack_total (today : Date) :
  exists daysBack weekdayCount,
    countDaysBack 15 today 0 0 = Normal (daysBack, weekdayCount) /\
    3 <= daysBack <= 5 /\ 3 <= weekdayCount.
Proof.
  rewrite countDaysBack_mod7.
  destruct (mod7_cases (day today)) as [E|[E|[E|[E|[E|[E|E]]]]]]; rewrite E;
    vm_compute; eexists _, _; (split; [reflexivity|]); split; try split; discriminate.
Qed.

Lemma datesBackFrom_3 (today : Date) :
  datesBackFrom today 3 =
  [addDays today (-3); addDays today (-2); addDays today (-1); addDays today (-0)].
Proof. reflexivity. Qed.
Lemma datesBackFrom_4 (today : Date) :
  datesBackFrom today 4 =
  [addDays today (-4); addDays today (-3); addDays today (-2); addDays today (-1);
   addDays today (-0)].
Proof. reflexivity. Qed.
Lemma datesBackFrom_5 (today : Date) :
  datesBackFrom today 5 =
  [addDays today (-5); addDays today (-4); addDays today (-3); addDays today (-2);
   addDays today (-1); addDays today (-0)].
Proof. reflexivity. Qed.

Lemma isWeekday_shift (today : Date) (k : Z) :
  isWeekday (addDays today k) = isWeekdayNumber ((day today mod 7 + 4 + k) mod 7).
Proof. unfold isWeekday. now rewrite getDay_shift. Qed.

(** What [generateDates] returns: the days from 3, 4 or 5 days back up to
    today, at least three of them weekdays. *)
Lemma generateDates_shape (now : Date) :
  exists daysBack,
    generateDates now = Normal (datesBackFrom (setHours now 0) daysBack) /\
    (daysBack = 3 \/ daysBack = 4 \/ daysBack = 5) /\
    (3 <= countWeekdays (datesBackFrom (setHours now 0) daysBack))%nat.
Proof.
  unfold generateDates. set (today := setHours now 0).
  assert (Hloop : exists daysBack weekdayCount,
    countDaysBack 15 today 0 0 = Normal (daysBack, weekdayCount) /\
    (daysBack = 3 \/ daysBack = 4 \/ daysBack = 5) /\
    (3 <= countWeekdays (datesBackFrom today daysBack))%nat).
  { rewrite countDaysBack_mod7.
    destruct (mod7_cases (day today)) as [E|[E|[E|[E|[E|[E|E]]]]]]; rewrite E;
      vm_compute countDaysBack; eexists _, _; (split; [reflexivity|]);
      (split; [auto|]);
      rewrite ?datesBackFrom_3, ?datesBackFrom_4, ?datesBackFrom_5;
      unfold countWeekdays; cbn [List.filter]; rewrite !isWeekday_shift, E;
      vm_compute; lia. }
  destruct Hloop as (daysBack & weekdayCount & -> & Hk & Hw).
  exists daysBack. auto.
Qed.

(** C4. For every current date the generated window has at least four
    entries, advances by exactly one day from each entry to the next (so it
    is strictly ascending without gaps), has no duplicate, ends on the
    current date at midnight and holds at least three weekdays. *)
Theorem generateDates_window (now : Date) :
  exists window,
    generateDates now = Normal window /\
    (4 <= length window)%nat /\
    (forall i d d', window !! i = Some d -> window !! S i = Some d' ->
                    day d' = day d + 1 /\ msOfDay d = 0 /\ msOfDay d' = 0) /\
    NoDup window /\
    last window = Some (mkDate (day now) 0) /\
    (3 <= countWeekdays window)%nat.
Proof.
  destruct (generateDates_shape now) as (k & -> & Hk & Hw).
  eexists; split; [reflexivity|].
  split; [|split; [|split; [|split; [|exact Hw]]]].
  - destruct Hk as [->|[->| ->]]; simpl; lia.
  - intros i d d' Hi HSi.
    destruct Hk as [->|[->| ->]];
      rewrite ?datesBackFrom_3, ?datesBackFrom_4, ?datesBackFrom_5 in Hi, HSi;
      do 6 (try destruct i as [|i]); simpl in Hi, HSi; simplify_eq; simpl;
      repeat split; lia.
  - destruct Hk as [->|[->| ->]];
      rewrite ?datesBackFrom_3, ?datesBackFrom_4, ?datesBackFrom_5;
      unfold addDays, setHours; simpl;
      repeat (apply NoDup_cons; split;
              [rewrite ?elem_of_cons, elem_of_nil; intros H;
               repeat (destruct H as [H|H]); try done; inversion H; lia|]);
      apply NoDup_nil_2.
  - destruct Hk as [->|[->| ->]];
      rewrite ?datesBackFrom_3, ?datesBackFrom_4, ?datesBackFrom_5;
      unfold addDays, setHours; simpl; do 2 f_equal; lia.
Qed.

(** ** The search loops *)

Lemma findFirstIndex_Some {A} (p : A -> bool) (l : list A) (i j : nat) :
  findFirstIndex p l i = Some j ->
  (i <= j)%nat /\ exists x, l !! (j - i)%nat = Some x /\ p x = true.
Proof.
  revert i; induction l as [|x l IH]; intros i; simpl; [done|].
  destruct (p x) eqn:Hp.
  - intros [= <-]. split; [lia|]. exists x. now rewrite Nat.sub_diag.
  - intros H. destruct (IH _ H) as (Hle & y & Hy & Hpy). split; [lia|].
    exists y. split; [|done].
    replace (j - i)%nat with (S (j - S i)) by lia. done.
Qed.

Lemma findFirstIndex_None {A} (p : A -> bool) (l : list A) (i : nat) :
  findFirstIndex p l i = None -> forall x, x ∈ l -> p x = false.
Proof.
  revert i; induction l as [|x l IH]; intros i; simpl.
  - intros _ y Hy. inversion Hy.
  - destruct (p x) eqn:Hp; [done|]. intros H y Hy.
    apply elem_of_cons in Hy as [->|Hy]; eauto.
Qed.

Lemma findLastIndex_Some {A} (p : A -> bool) (l : list A) (i j : nat) :
  findLastIndex p l i = Some j ->
  (i <= j)%nat /\ exists x, l !! (j - i)%nat = Some x /\ p x = true.
Proof.
  revert i; induction l as [|x l IH]; intros i; simpl; [done|].
  destruct (findLastIndex p l (S i)) as [k|] eqn:Hrec.
  - intros [= <-]. destruct (IH _ Hrec) as (Hle & y & Hy & Hpy). split; [lia|].
    exists y. split; [|done].
    replace (k - i)%nat with (S (k - S i)) by lia. done.
  - destruct (p x) eqn:Hp; [|done]. intros [= <-]. split; [lia|].
    exists x. now rewrite Nat.sub_diag.
Qed.

Lemma findLastIndex_None {A} (p : A -> bool) (l : list A) (i : nat) :
  findLastIndex p l i = None -> forall x, x ∈ l -> p x = false.
Proof.
  revert i; induction l as [|x l IH]; intros i; simpl.
  - intros _ y Hy. inversion Hy.
  - destruct (findLastIndex p l (S i)) eqn:Hrec; [done|].
    destruct (p x) eqn:Hp; [done|]. intros _ y Hy.
    apply elem_of_cons in Hy as [->|Hy]; eauto.
Qed.

Lemma lookupZ_Some {A} (l : list A) (i : Z) :
  0 <= i < Z.of_nat (length l) -> exists x, lookupZ l i = Some x /\ x ∈ l.
Proof.
  intros Hi. unfold lookupZ. destruct (Z.ltb_spec i 0); [lia|].
  destruct (lookup_lt_is_Some_2 l (Z.to_nat i)) as [x Hx]; [lia|].
  exists x. split; [done|]. eapply list_elem_of_lookup_2; eauto.
Qed.

Lemma lookupZ_of_nat {A} (l : list A) (i : nat) : lookupZ l (Z.of_nat i) = l !! i.
Proof.
  unfold lookupZ. destruct (Z.ltb_spec (Z.of_nat i) 0); [lia|]. now rewrite Nat2Z.id.
Qed.

Lemma mapDateBreak_range (total dateBreakIndex : nat) (availableDates : list Date) :
  availableDates <> [] ->
  0 <= mapDateBreak total dateBreakIndex availableDates
    < Z.of_nat (length availableDates).
Proof.
  intros Hne. assert (0 < length availableDates)%nat by (destruct availableDates; simpl; [done|lia]).
  unfold mapDateBreak. destruct (0 <? Z.of_nat total); lia.
Qed.

Lemma avoidWeekend_range (availableDates : list Date) (i : Z) :
  0 <= i < Z.of_nat (length availableDates) ->
  0 <= avoidWeekend availableDates i < Z.of_nat (length availableDates).
Proof.
  intros Hi. unfold avoidWeekend.
  destruct (lookupZ availableDates i) as [d0|]; [|done].
  destruct (isWeekend d0); [|done].
  destruct (findFirstIndex _ _ _) as [j|] eqn:Hf.
  - apply findFirstIndex_Some in Hf as (Hle & x & Hx & _).
    rewrite lookup_drop in Hx. apply lookup_lt_Some in Hx. lia.
  - destruct (findLastIndex _ _ _) as [j|] eqn:Hb; [|done].
    apply findLastIndex_Some in Hb as (Hle & x & Hx & _).
    apply lookup_lt_Some in Hx. rewrite length_take in Hx. lia.
Qed.

(** When the window holds a weekday, the guard ends on one. *)
Lemma avoidWeekend_weekday (availableDates : list Date) (i : Z) :
  0 <= i < Z.of_nat (length availableDates) ->
  (exists d, d ∈ availableDates /\ isWeekday d = true) ->
  exists d, lookupZ availableDates (avoidWeekend availableDates i) = Some d /\
            isWeekend d = false.
Proof.
  intros Hi (w & Hw & Hwd). unfold avoidWeekend.
  destruct (lookupZ_Some availableDates i Hi) as (d0 & Hd0 & _). rewrite Hd0.
  destruct (isWeekend d0) eqn:Hwe; [|eauto].
  destruct (findFirstIndex _ _ _) as [j|] eqn:Hf.
  { apply findFirstIndex_Some in Hf as (Hle & x & Hx & Hpx).
    rewrite lookup_drop in Hx. exists x. rewrite lookupZ_of_nat.
    replace (S (Z.to_nat i) + (j - S (Z.to_nat i)))%nat with j in Hx by lia.
    split; [done|]. rewrite isWeekday_not_weekend in Hpx. now destruct (isWeekend x). }
  destruct (findLastIndex _ _ _) as [j|] eqn:Hb.
  { apply findLastIndex_Some in Hb as (Hle & x & Hx & Hpx).
    apply lookup_take_Some in Hx as [Hx _]. rewrite Nat.sub_0_r in Hx.
    exists x. rewrite lookupZ_of_nat. split; [done|].
    rewrite isWeekday_not_weekend in Hpx. now destruct (isWeekend x). }
  exfalso.
  pose proof (findFirstIndex_None _ _ _ Hf) as Hafter.
  pose proof (findLastIndex_None _ _ _ Hb) as Hbefore.
  apply list_elem_of_lookup in Hw as [k Hk].
  destruct (lt_eq_lt_dec k (Z.to_nat i)) as [[Hlt|Heq]|Hgt].
  - rewrite (Hbefore w) in Hwd; [done|].
    apply list_elem_of_lookup. exists k. now rewrite lookup_take_lt.
  - unfold lookupZ in Hd0. destruct (i <? 0); [done|]. subst k.
    rewrite Hk in Hd0. injection Hd0 as ->.
    rewrite isWeekday_not_weekend, Hwe in Hwd. done.
  - rewrite (Hafter w) in Hwd; [done|].
    apply list_elem_of_lookup. exists (k - S (Z.to_nat i))%nat.
    rewrite lookup_drop. now replace (S (Z.to_nat i) + (k - S (Z.to_nat i)))%nat with k by lia.
Qed.

(** ** The candidate times *)

Lemma chooseTimeIndex_range (lastTimeIndex : option Z) (dateBreakIndex : nat)
    (times : list string) :
  times <> [] ->
  (forall last, lastTimeIndex = Some last -> 0 <= last) ->
  0 <= chooseTimeIndex lastTimeIndex dateBreakIndex times < Z.of_nat (length times).
Proof.
  intros Hne Hlast.
  assert (0 < length times)%nat by (destruct times; simpl; [done|lia]).
  unfold chooseTimeIndex. destruct lastTimeIndex as [last|].
  - specialize (Hlast last eq_refl).
    destruct (Z.geb_spec (last + 1) (Z.of_nat (length times))); lia.
  - lia.
Qed.

Lemma businessHoursTimes_within (t : string) :
  t ∈ businessHoursTimes -> isWithinBusinessHours t = true.
Proof.
  unfold businessHoursTimes. rewrite !elem_of_cons, elem_of_nil.
  intros [->|[->|[->|[->|[]]]]]; vm_compute; reflexivity.
Qed.

Lemma businessHoursTimes_hours (t : string) :
  t ∈ businessHoursTimes -> 9 <= parseTimeToHour t <= 17.
Proof.
  unfold businessHoursTimes. rewrite !elem_of_cons, elem_of_nil.
  intros [->|[->|[->|[->|[]]]]]; vm_compute; split; discriminate.
Qed.

(** ** One iteration of the loop *)

Section Loop.
  Variable availableDates : list Date.
  Variable dateBreaks : list nat.

Lemma processMessage_ok (lastTimes : gmap string Z) (index : nat)
    (msg : AssignedMessage) :
  nonNegativeIndices lastTimes ->
  exists it,
    processMessage availableDates dateBreaks lastTimes index msg = Normal it /\
    iterationOk availableDates msg it /\
    nonNegativeIndices (lastTimeIndexByDate it).
Proof.
  intros Hmap. unfold processMessage.
  set (dbi := findDateBreakIndex dateBreaks index).
  set (mapped0 := mapDateBreak (length dateBreaks) dbi availableDates).
  destruct (sender msg) eqn:Hs; cbn [isSupport].
  - set (key := dateKeyOf _).
    assert (Hti : 0 <= chooseTimeIndex (lastTimes !! key) dbi allTimes
                  < Z.of_nat (length allTimes)).
    { apply chooseTimeIndex_range; [done|]. intros last Hl. exact (Hmap _ _ Hl). }
    destruct (lookupZ_Some allTimes _ Hti) as (t & Ht & Hin).
    eexists. split; [reflexivity|]. split.
    + split; simpl; try done.
      * exists t. rewrite Hs. done.
      * intros Hne. apply lookupZ_Some, mapDateBreak_range, Hne.
      * intros Hsup. congruence.
    + simpl. apply map_Forall_insert_2; [lia|done].
  - set (mapped := avoidWeekend availableDates mapped0).
    set (key := dateKeyOf _).
    assert (Hti : 0 <= chooseTimeIndex (lastTimes !! key) dbi businessHoursTimes
                  < Z.of_nat (length businessHoursTimes)).
    { apply chooseTimeIndex_range; [done|]. intros last Hl. exact (Hmap _ _ Hl). }
    destruct (lookupZ_Some businessHoursTimes _ Hti) as (t & Ht & Hin).
    rewrite Ht, (businessHoursTimes_within t Hin). cbn [negb].
    eexists. split; [reflexivity|]. split.
    + split; simpl; try done.
      * exists t. rewrite Hs. done.
      * intros Hne. apply lookupZ_Some, avoidWeekend_range, mapDateBreak_range, Hne.
      * intros _ Hwd. apply avoidWeekend_weekday; [|done].
        apply mapDateBreak_range. destruct Hwd as (d & Hd & _).
        intros ->. inversion Hd.
    + simpl. apply map_Forall_insert_2; [lia|done].
Qed.

(** The invariant carried through the loop: every recorded time index is
    non-negative, so the next one read stays inside the candidate list. *)
Lemma forEachMessage_ok (messages : list AssignedMessage) :
  forall (lastTimes : gmap string Z) (index : nat),
    nonNegativeIndices lastTimes ->
    exists its,
      forEachMessage availableDates dateBreaks lastTimes index messages = Normal its /\
      Forall2 (iterationOk availableDates) messages its.
Proof.
  induction messages as [|msg rest IH]; intros lastTimes index Hmap; simpl.
  - exists []. split; [reflexivity|constructor].
  - destruct (processMessage_ok lastTimes index msg Hmap)
      as (it & -> & Hit & Hmap').
    destruct (IH (lastTimeIndexByDate it) (S index) Hmap') as (its & Hrest & Hall).
    exists (it :: its). simpl. rewrite Hrest. split; [reflexivity|].
    constructor; done.
Qed.

End Loop.

Lemma traceTimestamps_ok (messages : list AssignedMessage) (availableDates : list Date) :
  exists its,
    traceTimestamps messages availableDates = Normal its /\
    Forall2 (iterationOk availableDates) messages its.
Proof. apply forEachMessage_ok. apply map_Forall_empty. Qed.

Lemma generateTimestamps_trace (messages : list AssignedMessage)
    (availableDates : list Date) (its : list Iteration) :
  traceTimestamps messages availableDates = Normal its ->
  generateTimestamps messages availableDates = Normal (message <$> its).
Proof. unfold generateTimestamps. now intros ->. Qed.

Lemma Forall2_iterations (P : Iteration -> Prop) (availableDates : list Date)
    (messages : list AssignedMessage) (its : list Iteration) :
  Forall2 (iterationOk availableDates) messages its ->
  (forall msg it, iterationOk availableDates msg it -> P it) ->
  Forall P its.
Proof. intros H HP. induction H; constructor; eauto. Qed.

Lemma senders_preserved (availableDates : list Date)
    (messages : list AssignedMessage) (its : list Iteration) :
  Forall2 (iterationOk availableDates) messages its ->
  sender <$> (message <$> its) = sender <$> messages.
Proof.
  intros H. induction H as [|msg it ms its Hit _ IH]; [done|].
  rewrite !fmap_cons, IH. f_equal. exact (ok_sender _ _ _ Hit).
Qed.

Lemma texts_preserved (availableDates : list Date)
    (messages : list AssignedMessage) (its : list Iteration) :
  Forall2 (iterationOk availableDates) messages its ->
  text <$> (message <$> its) = text <$> messages.
Proof.
  intros H. induction H as [|msg it ms its Hit _ IH]; [done|].
  rewrite !fmap_cons, IH. f_equal. exact (ok_text _ _ _ Hit).
Qed.

Lemma firstPass_texts (clock : nat -> Date) (rawMessages : list string)
    (conversationType : ConversationType) :
  text <$> firstPass clock rawMessages conversationType = rawMessages.
Proof.
  unfold firstPass. generalize (getSenderForMessage conversationType) clock.
  induction rawMessages as [|x l IH]; intros g c; simpl; [done|].
  f_equal. apply (IH (g ∘ S) (c ∘ S)).
Qed.

Lemma countWeekdays_hasWeekday (dates : list Date) :
  (0 < countWeekdays dates)%nat -> hasWeekday dates.
Proof.
  unfold countWeekdays. destruct (List.filter isWeekday dates) as [|d l] eqn:E; simpl; [lia|].
  intros _. assert (Hin : In d (List.filter isWeekday dates)) by (rewrite E; now left).
  apply filter_In in Hin as [Hin Hd]. exists d. split; [|done].
  now apply list_elem_of_In.
Qed.

Lemma isWeekend_false_getDay (d : Date) :
  isWeekend d = false -> getDay d <> 0 /\ getDay d <> 6.
Proof.
  unfold isWeekend.
  destruct (Z.eqb_spec (getDay d) 0), (Z.eqb_spec (getDay d) 6); simpl; done.
Qed.

(** ** Support messages: weekdays and business hours *)

Lemma support_times_aux (messages : list AssignedMessage)
    (availableDates : list Date) :
  exists its,
    traceTimestamps messages availableDates = Normal its /\
    Forall (fun it =>
              adjusted it = false /\
              (sender (message it) = support ->
               exists t, selectedTime it = Some t /\ t ∈ businessHoursTimes)) its.
Proof.
  destruct (traceTimestamps_ok messages availableDates) as (its & Hrun & Hall).
  exists its. split; [done|].
  eapply Forall2_iterations; [exact Hall|]. intros msg it Hit. split.
  - apply (ok_not_adjusted _ _ _ Hit).
  - intros Hs. destruct (ok_selected _ _ _ Hit) as (t & Ht & Hin).
    rewrite (ok_sender _ _ _ Hit) in Hs. rewrite Hs in Hin. eauto.
Qed.

(** C9. Whatever the messages and the window, the loop finishes, the time
    read for a support message is one of the four business-hours
    candidates, each of which parses to an hour from 9 to 17, and the
    out-of-hours branch (the call of adjustToBusinessHours and the new
    search of the window) runs for no message. *)
Theorem support_times_from_business_list (messages : list AssignedMessage)
    (availableDates : list Date) :
  exists its,
    traceTimestamps messages availableDates = Normal its /\
    length its = length messages /\
    Forall (fun it =>
              adjusted it = false /\
              (sender (message it) = support ->
               exists t, selectedTime it = Some t /\ t ∈ businessHoursTimes)) its /\
    length businessHoursTimes = 4%nat /\
    Forall (fun t => 9 <= parseTimeToHour t <= 17 /\ isWithinBusinessHours t = true)
           businessHoursTimes.
Proof.
  destruct (traceTimestamps_ok messages availableDates) as (its & Hrun & Hall).
  exists its. split; [done|]. split; [symmetry; eapply Forall2_length; eauto|].
  split; [|split; [reflexivity|]].
  - eapply Forall2_iterations; [exact Hall|]. intros msg it Hit. split.
    + apply (ok_not_adjusted _ _ _ Hit).
    + intros Hs. destruct (ok_selected _ _ _ Hit) as (t & Ht & Hin).
      rewrite (ok_sender _ _ _ Hit) in Hs. rewrite Hs in Hin. eauto.
  - apply Forall_forall. intros t Ht. split.
    + now apply businessHoursTimes_hours.
    + now apply businessHoursTimes_within.
Qed.

(** C1. For every message list, scenario and current date the pipeline
    returns one message per input text, in order, and every returned
    message sent by support is dated on a day that is neither Sunday (0)
    nor Saturday (6) and carries a timestamp whose hour is between 9 and 17
    inclusive. *)
Theorem support_weekday_business_hours (now : Date) (clock : nat -> Date)
    (rawMessages : list string) (conversationType : ConversationType) :
  exists out,
    chatTimeline now clock rawMessages conversationType = Normal out /\
    text <$> out = rawMessages /\
    Forall (fun m =>
              sender m = support ->
              exists d t,
                date m = Some d /\ getDay d <> 0 /\ getDay d <> 6 /\
                timestamp m = Some t /\ 9 <= parseTimeToHour t <= 17) out.
Proof.
  destruct (generateDates_window now) as (window & Hgen & _ & _ & _ & _ & Hwd).
  assert (Hhas : hasWeekday window) by (apply countWeekdays_hasWeekday; lia).
  destruct (traceTimestamps_ok (firstPass clock rawMessages conversationType) window)
    as (its & Hrun & Hall).
  exists (message <$> its). split; [|split].
  - unfold chatTimeline. rewrite Hgen. simpl.
    now apply generateTimestamps_trace.
  - now rewrite (texts_preserved _ _ _ Hall), firstPass_texts.
  - apply Forall_fmap.
    eapply Forall2_iterations; [exact Hall|]. intros msg it Hit Hs. simpl in Hs.
    rewrite (ok_sender _ _ _ Hit) in Hs.
    destruct (ok_weekday _ _ _ Hit Hs Hhas) as (d & Hd & Hwe).
    destruct (ok_selected _ _ _ Hit) as (t & Ht & Hin). rewrite Hs in Hin.
    exists d, t. simpl. rewrite (ok_timestamp _ _ _ Hit).
    destruct (isWeekend_false_getDay d Hwe).
    repeat split; try done; now apply businessHoursTimes_hours.
Qed.

(** C10. For a window that is not empty and any list of messages, the loop
    returns and the date of every returned message is an entry of the
    window. *)
Theorem dates_drawn_from_window (messages : list AssignedMessage)
    (availableDates : list Date) :
  availableDates <> [] ->
  exists out,
    generateTimestamps messages availableDates = Normal out /\
    length out = length messages /\
    Forall (fun m => exists d, date m = Some d /\ d ∈ availableDates) out.
Proof.
  intros Hne.
  destruct (traceTimestamps_ok messages availableDates) as (its & Hrun & Hall).
  exists (message <$> its). split; [now apply generateTimestamps_trace|].
  split; [rewrite length_fmap; symmetry; eapply Forall2_length; eauto|].
  apply Forall_fmap. eapply Forall2_iterations; [exact Hall|].
  intros msg it Hit. exact (ok_in_window _ _ _ Hit Hne).
Qed.

Lemma dates_drawn_from_window_witness :
  [mkDate 19722 0; mkDate 19723 0] <> [] /\
  exists out,
    generateTimestamps
      [mkMessage "hi" you None None 0; mkMessage "hello" support None None 0]
      [mkDate 19722 0; mkDate 19723 0] = Normal out /\
    length out = 2%nat /\
    Forall (fun m => exists d, date m = Some d /\
                               d ∈ [mkDate 19722 0; mkDate 19723 0]) out.
Proof.
  split; [discriminate|].
  apply (dates_drawn_from_window
           [mkMessage "hi" you None None 0; mkMessage "hello" support None None 0]
           [mkDate 19722 0; mkDate 19723 0]).
  discriminate.
Defined.

(** ** A single message *)

(** C8. For every scenario and current date, the pipeline run on a list of
    exactly one message returns exactly one message, dated on the last
    entry of the generated window, which is the current date. *)
Theorem single_message_dated_today (now : Date) (clock : nat -> Date)
    (rawMessage : string) (conversationType : ConversationType) :
  exists m window,
    chatTimeline now clock [rawMessage] conversationType = Normal [m] /\
    generateDates now = Normal window /\
    text m = rawMessage /\
    date m = last window /\
    last window = Some (mkDate (day now) 0).
Proof.
  destruct (generateDates_shape now) as (k & Hgen & Hk & _).
  unfold chatTimeline. rewrite Hgen.
  exists (mkMessage rawMessage you (Some (mkDate (day now) 0)) (Some "9:07 AM"%string) 0).
  eexists. split; [|split; [reflexivity|]].
  - destruct conversationType, Hk as [->|[->| ->]];
      rewrite ?datesBackFrom_3, ?datesBackFrom_4, ?datesBackFrom_5;
      unfold addDays, setHours; simpl day; simpl msOfDay;
      rewrite Z.add_0_r; reflexivity.
  - destruct Hk as [->|[->| ->]];
      rewrite ?datesBackFrom_3, ?datesBackFrom_4, ?datesBackFrom_5;
      unfold addDays, setHours; simpl; rewrite Z.add_0_r; done.
Qed.

(** ** Determinism *)

Lemma processMessage_ext (availableDates : list Date) (dateBreaks : list nat)
    (lastTimes : gmap string Z) (index : nat) (a b : AssignedMessage) :
  sameScript a b ->
  processMessage availableDates dateBreaks lastTimes index a =
  processMessage availableDates dateBreaks lastTimes index b.
Proof. intros [Ht Hs]. unfold processMessage. now rewrite Ht, Hs. Qed.

Lemma forEachMessage_ext (availableDates : list Date) (dateBreaks : list nat)
    (ms1 ms2 : list AssignedMessage) :
  Forall2 sameScript ms1 ms2 ->
  forall lastTimes index,
    forEachMessage availableDates dateBreaks lastTimes index ms1 =
    forEachMessage availableDates dateBreaks lastTimes index ms2.
Proof.
  induction 1 as [|a b ms1 ms2 Hab _ IH]; intros lastTimes index; simpl; [done|].
  rewrite (processMessage_ext _ _ _ _ a b Hab).
  destruct (processMessage availableDates dateBreaks lastTimes index b); simpl; try done.
  now rewrite IH.
Qed.

Lemma startsDateBreak_ext (ms1 ms2 : list AssignedMessage) (i : nat) :
  Forall2 sameScript ms1 ms2 -> startsDateBreak ms1 i = startsDateBreak ms2 i.
Proof.
  intros H. unfold startsDateBreak.
  pose proof (proj1 (Forall2_lookup _ _ _) H i) as Hi.
  pose proof (proj1 (Forall2_lookup _ _ _) H (i - 1)%nat) as Hp.
  destruct Hi as [a b [_ Hs]|]; [|done].
  destruct Hp as [a' b' [_ Hs']|]; [|done].
  now rewrite Hs, Hs'.
Qed.

Lemma computeDateBreaks_ext (ms1 ms2 : list AssignedMessage) :
  Forall2 sameScript ms1 ms2 -> computeDateBreaks ms1 = computeDateBreaks ms2.
Proof.
  intros H. unfold computeDateBreaks. rewrite (Forall2_length _ _ _ H). f_equal.
  apply list_filter_iff. intros i. now rewrite (startsDateBreak_ext _ _ i H).
Qed.

Lemma imap_sameScript (f g : nat -> string -> AssignedMessage) (l : list string) :
  (forall i x, sameScript (f i x) (g i x)) -> Forall2 sameScript (imap f l) (imap g l).
Proof.
  revert f g. induction l as [|x l IH]; intros f g Hfg; simpl; constructor.
  - apply Hfg.
  - apply IH. intros i y. apply Hfg.
Qed.

Lemma firstPass_sameScript (clock1 clock2 : nat -> Date) (rawMessages : list string)
    (conversationType : ConversationType) :
  Forall2 sameScript (firstPass clock1 rawMessages conversationType)
                     (firstPass clock2 rawMessages conversationType).
Proof. apply imap_sameScript. intros i x. split; reflexivity. Qed.

(** C5. Two runs of the pipeline on the same message list and scenario and
    on the same current date return the same ordered list, whatever the
    instants within that date at which the runs read the clock: the
    outcome is a function of the messages, the scenario and the date. *)
Theorem chatTimeline_deterministic (now1 now2 : Date) (clock1 clock2 : nat -> Date)
    (rawMessages : list string) (conversationType : ConversationType) :
  day now1 = day now2 ->
  chatTimeline now1 clock1 rawMessages conversationType =
  chatTimeline now2 clock2 rawMessages conversationType.
Proof.
  intros Hday. unfold chatTimeline, generateDates, setHours. rewrite Hday.
  destruct (countDaysBack _ _ _ _) as [[daysBack weekdayCount]| |]; simpl; try done.
  unfold assignMessagesToUsers, generateTimestamps, traceTimestamps.
  pose proof (firstPass_sameScript clock1 clock2 rawMessages conversationType) as H.
  now rewrite (computeDateBreaks_ext _ _ H), (forEachMessage_ext _ _ _ _ H).
Qed.

Lemma chatTimeline_deterministic_witness :
  day (mkDate 19725 1000) = day (mkDate 19725 86399000) /\
  chatTimeline (mkDate 19725 1000) (fun i => mkDate 19725 (Z.of_nat i))
               ["hello"; "hi"; "what is up"]%string bad =
  chatTimeline (mkDate 19725 86399000) (fun _ => mkDate 19726 7)
               ["hello"; "hi"; "what is up"]%string bad.
Proof.
  split; [reflexivity|].
  apply (chatTimeline_deterministic (mkDate 19725 1000) (mkDate 19725 86399000)).
  reflexivity.
Defined.

(** ** Senders *)

Lemma mod2_even (i : nat) : (i mod 2 =? 0)%nat = Nat.even i.
Proof.
  destruct (Nat.even i) eqn:He.
  - apply Nat.even_spec in He as [k ->].
    now rewrite Nat.mul_comm, Nat.Div0.mod_mul.
  - assert (Ho : Nat.odd i = true) by (unfold Nat.odd; now rewrite He).
    apply Nat.odd_spec in Ho as [k ->].
    now rewrite Nat.add_comm, Nat.mul_comm, Nat.Div0.mod_add.
Qed.

(** C6. Within the script the sender is the scripted one; past its end it
    is you at even positions and support at odd ones; and the two-entry
    good script applied to any ten messages gives you, support, you,
    support, and so on, in the first pass and in the returned list. *)
Theorem sender_rule (conversationType : ConversationType) (index : nat) :
  ((index < length (conversationScript conversationType))%nat ->
   conversationScript conversationType !! index =
   Some (getSenderForMessage conversationType index)) /\
  ((length (conversationScript conversationType) <= index)%nat ->
   getSenderForMessage conversationType index =
   if Nat.even index then you else support) /\
  (forall (clock : nat -> Date) (rawMessages : list string)
          (availableDates : list Date),
     length rawMessages = 10%nat ->
     sender <$> firstPass clock rawMessages good = alternating10 /\
     exists out,
       assignMessagesToUsers clock rawMessages availableDates good = Normal out /\
       sender <$> out = alternating10).
Proof.
  split; [|split].
  - intros Hlt. unfold getSenderForMessage.
    apply Nat.ltb_lt in Hlt. rewrite Hlt.
    apply Nat.ltb_lt, lookup_lt_is_Some_2 in Hlt as [s Hs]. now rewrite Hs.
  - intros Hge. unfold getSenderForMessage.
    apply Nat.ltb_ge in Hge. rewrite Hge.
    now rewrite mod2_even.
  - intros clock rawMessages availableDates Hlen.
    assert (Hfirst : sender <$> firstPass clock rawMessages good = alternating10).
    { do 11 (destruct rawMessages as [|? rawMessages]; try discriminate Hlen).
      reflexivity. }
    split; [exact Hfirst|].
    destruct (traceTimestamps_ok (firstPass clock rawMessages good) availableDates)
      as (its & Hrun & Hall).
    exists (message <$> its). split.
    + now apply generateTimestamps_trace.
    + now rewrite (senders_preserved _ _ _ Hall).
Qed.

Lemma sender_rule_witness :
  ((1 < length (conversationScript good))%nat /\
   conversationScript good !! 1%nat = Some (getSenderForMessage good 1)) /\
  ((length (conversationScript good) <= 7)%nat /\
   getSenderForMessage good 7 = support) /\
  (length (replicate 10 "x"%string) = 10%nat /\
   sender <$> firstPass (fun _ => mkDate 0 0) (replicate 10 "x"%string) good
   = alternating10).
Proof.
  split; [|split]; (split; [vm_compute; lia|]).
  - apply (proj1 (sender_rule good 1)). vm_compute; lia.
  - apply (proj1 (proj2 (sender_rule good 7))). vm_compute; lia.
  - apply (proj2 (proj2 (sender_rule good 0))
             (fun _ => mkDate 0 0) (replicate 10 "x"%string) []).
    reflexivity.
Defined.

(** ** Date breaks *)

(** C7. The list of break starts begins with position 0, and a position
    [i > 0] is on it exactly when it is a position of the message list and
    either [i] is even or the message before it is from support and the
    message at it is from you. *)
Theorem dateBreaks_rule (messages : list AssignedMessage) :
  head (computeDateBreaks messages) = Some 0%nat /\
  forall i : nat,
    (0 < i)%nat ->
    (i ∈ computeDateBreaks messages <->
     exists prev current,
       messages !! (i - 1)%nat = Some prev /\ messages !! i = Some current /\
       (Nat.even i = true \/ (sender prev = support /\ sender current = you))).
Proof.
  split; [reflexivity|]. intros i Hi. unfold computeDateBreaks.
  rewrite elem_of_cons, list_elem_of_filter, elem_of_seq. unfold startsDateBreak.
  rewrite mod2_even. split.
  - intros [->|[Hb _]]; [lia|].
    destruct (messages !! i) as [current|]; [|done].
    destruct (messages !! (i - 1)%nat) as [prev|]; [|done].
    exists prev, current. split; [done|]. split; [done|].
    apply orb_true_iff in Hb as [Hb|Hb]; [now left|right].
    apply andb_true_iff in Hb as [H1 H2].
    destruct (sender prev), (sender current); done.
  - intros (prev & current & Hp & Hc & Hcond). right.
    rewrite Hc, Hp. split.
    + destruct Hcond as [->|[-> ->]]; [done|]. simpl. now rewrite orb_true_r.
    + apply lookup_lt_Some in Hc. lia.
Qed.

Lemma dateBreaks_rule_witness :
  (0 < 3)%nat /\
  (3%nat ∈ computeDateBreaks
     [mkMessage "a" you None None 0; mkMessage "b" you None None 0;
      mkMessage "c" support None None 0; mkMessage "d" you None None 0] <->
   exists prev current,
     [mkMessage "a" you None None 0; mkMessage "b" you None None 0;
      mkMessage "c" support None None 0; mkMessage "d" you None None 0]
       !! (3 - 1)%nat = Some prev /\
     [mkMessage "a" you None None 0; mkMessage "b" you None None 0;
      mkMessage "c" support None None 0; mkMessage "d" you None None 0]
       !! 3%nat = Some current /\
     (Nat.even 3 = true \/ (sender prev = support /\ sender current = you))).
Proof.
  split; [lia|].
  apply (proj2 (dateBreaks_rule
     [mkMessage "a" you None None 0; mkMessage "b" you None None 0;
      mkMessage "c" support None None 0; mkMessage "d" you None None 0]) 3%nat).
  lia.
Defined.

(** ** Chronological order within a date *)

(** C2 (the code departs from it). On Wednesday 2024-01-03 the good
    scenario with ten messages puts messages 8 and 9 on the same date with
    the timestamps 5:26 PM and then 4:07 PM: the times of day of one date
    go back. *)
Theorem chronology_broken_on_ten_messages :
  exists out m8 m9,
    chatTimeline wednesdayNoon (fun _ => wednesdayNoon) tenMessages good = Normal out /\
    out !! 8%nat = Some m8 /\ out !! 9%nat = Some m9 /\
    sender m8 = you /\ sender m9 = support /\
    date m8 = Some (mkDate 19725 0) /\ date m9 = Some (mkDate 19725 0) /\
    timestamp m8 = Some "5:26 PM"%string /\ timestamp m9 = Some "4:07 PM"%string /\
    minutesOfDay "4:07 PM" < minutesOfDay "5:26 PM" /\
    ~ chronologicalWithinDates out.
Proof.
  eexists _, _, _. split; [vm_compute; reflexivity|].
  split; [reflexivity|]. split; [reflexivity|].
  repeat (split; [reflexivity|]).
  intros H.
  specialize (H 8%nat 9%nat _ _ _ _ ltac:(lia) eq_refl eq_refl eq_refl eq_refl eq_refl).
  vm_compute in H. apply H. reflexivity.
Qed.

(** ** The out-of-hours adjustment *)

Lemma isWeekend_true (d : Date) :
  isWeekend d = true <-> (day d + 4) mod 7 = 0 \/ (day d + 4) mod 7 = 6.
Proof.
  unfold isWeekend, getDay.
  destruct (Z.eqb_spec ((day d + 4) mod 7) 0), (Z.eqb_spec ((day d + 4) mod 7) 6);
    simpl; intuition congruence.
Qed.

(** The loop of [getNextBusinessDay] always finishes: it returns the first
    day after [date] that is not on a weekend, at 9:00. *)
Lemma getNextBusinessDay_total (date : Date) :
  exists next,
    getNextBusinessDay date = Normal next /\
    isWeekend next = false /\
    msOfDay next = BUSINESS_HOUR_START * MS_PER_HOUR /\
    day date < day next <= day date + 3 /\
    (forall k ms, day date < k < day next -> isWeekend (mkDate k ms) = true).
Proof.
  unfold getNextBusinessDay.
  set (d1 := setHours (addDays date 1) BUSINESS_HOUR_START).
  cbn [skipWeekend].
  destruct (isWeekend d1) eqn:E1.
  2:{ exists d1. repeat split; simpl; try done; try lia. }
  destruct (isWeekend (addDays d1 1)) eqn:E2.
  2:{ exists (addDays d1 1). repeat split; simpl; try done; try lia.
      intros k ms Hk. replace k with (day date + 1) by lia. exact E1. }
  destruct (isWeekend (addDays (addDays d1 1) 1)) eqn:E3.
  { exfalso. apply isWeekend_true in E1, E2, E3. simpl in E1, E2, E3.
    revert E1 E2 E3. Z.div_mod_to_equations. lia. }
  exists (addDays (addDays d1 1) 1). repeat split; simpl; try done; try lia.
  intros k ms Hk.
  assert (Hcase : k = day date + 1 \/ k = day date + 1 + 1) by lia.
  destruct Hcase as [-> | ->]; [exact E1|exact E2].
Qed.

Lemma adjustToBusinessHours_outside (d : Date) (timeString : string) :
  isWithinBusinessHours timeString = false ->
  exists next,
    adjustToBusinessHours (Some d) timeString = Normal (next, "9:00 AM"%string) /\
    getNextBusinessDay d = Normal next.
Proof.
  intros Hout. destruct (getNextBusinessDay_total d) as (next & Hnext & _).
  exists next. split; [|done]. unfold adjustToBusinessHours.
  rewrite Hout, Hnext. now destruct (isWeekend d).
Qed.

Lemma getTime_normalizeDate (d : Date) : getTime (normalizeDate d) = day d * MS_PER_DAY.
Proof. unfold getTime, normalizeDate, setHours; simpl. lia. Qed.

(** The new search of the window keeps the message inside the window, on
    a weekday that is not before the adjusted day, or leaves its date as it
    was when the window holds no such day. *)
Lemma relocate_spec (availableDates : list Date) (adjustedDate : Date)
    (current : option Date) :
  (exists a, relocate availableDates adjustedDate current = Some a /\
             a ∈ availableDates /\ isWeekend a = false /\
             day adjustedDate <= day a) \/
  (relocate availableDates adjustedDate current = current /\
   forall a, a ∈ availableDates -> isWeekend a = false -> day a < day adjustedDate).
Proof.
  unfold relocate.
  destruct (List.find _ availableDates) as [a|] eqn:Hexact.
  { left. apply find_some in Hexact as [Hin Ha].
    apply andb_true_iff in Ha as [Heq Hwe]. apply Z.eqb_eq in Heq.
    rewrite !getTime_normalizeDate in Heq. unfold MS_PER_DAY in Heq.
    exists a. rewrite list_elem_of_In. destruct (isWeekend a); [done|].
    repeat split; try done. lia. }
  destruct (List.find (fun availableDate => (_ >=? _) && _) availableDates) as [a|] eqn:Hlater.
  { left. apply find_some in Hlater as [Hin Ha].
    apply andb_true_iff in Ha as [Hge Hwe].
    rewrite !getTime_normalizeDate in Hge. unfold MS_PER_DAY in Hge.
    exists a. rewrite list_elem_of_In. destruct (isWeekend a); [done|].
    repeat split; try done. lia. }
  right. split; [done|]. intros a Hin Hwe.
  apply list_elem_of_In in Hin.
  pose proof (find_none _ _ Hlater a Hin) as Hno. simpl in Hno.
  rewrite Hwe, andb_true_r, !getTime_normalizeDate in Hno. unfold MS_PER_DAY in Hno.
  lia.
Qed.

(** The statement of C3 as it stands does not hold: no input makes the loop
    read 7:15 PM for a support message, so the input it asserts does not
    exist. *)
Lemma no_support_message_selects_7_15_PM :
  ~ ((exists (messages : list AssignedMessage) (availableDates : list Date)
             (its : list Iteration) (it : Iteration),
        traceTimestamps messages availableDates = Normal its /\
        it ∈ its /\ sender (message it) = support /\
        selectedTime it = Some "7:15 PM"%string) /\
     (forall (messages : list AssignedMessage) (availableDates : list Date)
             (its : list Iteration) (it : Iteration) (t : string),
        traceTimestamps messages availableDates = Normal its ->
        it ∈ its -> sender (message it) = support ->
        selectedTime it = Some t -> isWithinBusinessHours t = false ->
        timestamp (message it) = Some "9:00 AM"%string /\
        exists d, date (message it) = Some d /\ isWeekend d = false)).
Proof.
  intros [(messages & availableDates & its & it & Hrun & Hin & Hs & Hsel) _].
  destruct (support_times_aux messages availableDates)
    as (its' & Hrun' & Hall).
  rewrite Hrun in Hrun'. injection Hrun' as <-.
  rewrite Forall_forall in Hall. destruct (Hall it Hin) as (_ & Hsup).
  destruct (Hsup Hs) as (t & Ht & Hmem). rewrite Hsel in Ht. injection Ht as <-.
  unfold businessHoursTimes in Hmem. rewrite !elem_of_cons, elem_of_nil in Hmem.
  destruct Hmem as [H|[H|[H|[H|[]]]]]; discriminate H.
Qed.

(** C3, amended. The time read for a support message is always one of the
    four business-hours candidates, never 7:15 PM, and becomes the
    timestamp unchanged; 7:15 PM (hour 19, outside business hours) is a
    candidate for messages from you only.  The helper adjustToBusinessHours,
    given any date and a time outside 9:00-17:00, returns 9:00 AM on the
    first later day that is not on a weekend. *)
Theorem rollover_unreachable_and_helper :
  (forall (messages : list AssignedMessage) (availableDates : list Date)
          (its : list Iteration) (it : Iteration),
     traceTimestamps messages availableDates = Normal its ->
     it ∈ its -> sender (message it) = support ->
     exists t, selectedTime it = Some t /\ t ∈ businessHoursTimes /\
               t <> "7:15 PM"%string /\ isWithinBusinessHours t = true /\
               timestamp (message it) = Some t /\ adjusted it = false) /\
  ("7:15 PM"%string ∈ allTimes /\ parseTimeToHour "7:15 PM" = 19 /\
   isWithinBusinessHours "7:15 PM" = false) /\
  (forall (d : Date) (t : string),
     isWithinBusinessHours t = false ->
     exists next,
       adjustToBusinessHours (Some d) t = Normal (next, "9:00 AM"%string) /\
       isWeekend next = false /\
       msOfDay next = BUSINESS_HOUR_START * MS_PER_HOUR /\
       day d < day next <= day d + 3 /\
       (forall k ms, day d < k < day next -> isWeekend (mkDate k ms) = true)).
Proof.
  split; [|split].
  - intros messages availableDates its it Hrun Hin Hs.
    destruct (traceTimestamps_ok messages availableDates) as (its' & Hrun' & Hall).
    rewrite Hrun in Hrun'. injection Hrun' as <-.
    assert (Hits : Forall (fun it => exists msg, iterationOk availableDates msg it) its).
    { eapply Forall2_iterations; [exact Hall|]. eauto. }
    rewrite Forall_forall in Hits. destruct (Hits it Hin) as (msg & Hit).
    destruct (ok_selected _ _ _ Hit) as (t & Ht & Hmem).
    rewrite <- (ok_sender _ _ _ Hit), Hs in Hmem.
    exists t. split; [done|]. split; [done|]. split.
    + intros ->. unfold candidateTimes, businessHoursTimes in Hmem; simpl in Hmem.
      rewrite !elem_of_cons, elem_of_nil in Hmem.
      destruct Hmem as [H|[H|[H|[H|[]]]]]; discriminate H.
    + split; [now apply businessHoursTimes_within|].
      split; [now rewrite (ok_timestamp _ _ _ Hit)|apply (ok_not_adjusted _ _ _ Hit)].
  - split; [|split; vm_compute; reflexivity].
    unfold allTimes. rewrite !elem_of_cons. tauto.
  - intros d t Hout.
    destruct (adjustToBusinessHours_outside d t Hout) as (next & Hadj & Hnext).
    destruct (getNextBusinessDay_total d) as (next' & Hnext' & Hprops).
    rewrite Hnext in Hnext'. injection Hnext' as <-.
    exists next. split; [done|]. exact Hprops.
Qed.

Lemma rollover_unreachable_and_helper_witness :
  (exists its it,
     traceTimestamps [mkMessage "on it" support None None 0] [mkDate 19727 0]
       = Normal its /\
     it ∈ its /\ sender (message it) = support /\
     exists t, selectedTime it = Some t /\ t ∈ businessHoursTimes /\
               t <> "7:15 PM"%string /\ isWithinBusinessHours t = true /\
               timestamp (message it) = Some t /\ adjusted it = false) /\
  (isWithinBusinessHours "7:15 PM" = false /\
   exists next,
     adjustToBusinessHours (Some (mkDate 19727 0)) "7:15 PM"
       = Normal (next, "9:00 AM"%string) /\
     isWeekend next = false /\
     msOfDay next = BUSINESS_HOUR_START * MS_PER_HOUR /\
     day (mkDate 19727 0) < day next <= day (mkDate 19727 0) + 3 /\
     (forall k ms, day (mkDate 19727 0) < k < day next ->
                   isWeekend (mkDate k ms) = true)).
Proof.
  split.
  - eexists _, _. split; [vm_compute; reflexivity|].
    split; [apply list_elem_of_here|]. split; [reflexivity|].
    eapply (proj1 rollover_unreachable_and_helper
              [mkMessage "on it" support None None 0] [mkDate 19727 0]).
    + vm_compute; reflexivity.
    + apply list_elem_of_here.
    + reflexivity.
  - split; [vm_compute; reflexivity|].
    apply (proj2 (proj2 rollover_unreachable_and_helper) (mkDate 19727 0) "7:15 PM"%string).
    vm_compute; reflexivity.
Defined.

Example friday_evening_moves_to_monday :
  adjustToBusinessHours (Some (mkDate 19727 0)) "7:15 PM"
  = Normal (mkDate 19730 (9 * MS_PER_HOUR), "9:00 AM"%string).
Proof. vm_compute. reflexivity. Qed.

(** * Further properties of the code *)

(** ** The loop, position by position *)

Section Positions.
  Variable availableDates : list Date.
  Variable dateBreaks : list nat.

Lemma processMessage_placed (lastTimes : gmap string Z) (index : nat)
    (msg : AssignedMessage) (it : Iteration) :
  processMessage availableDates dateBreaks lastTimes index msg = Normal it ->
  iterationOk availableDates msg it ->
  placedAt availableDates dateBreaks index msg it.
Proof.
  intros Hrun Hok. unfold processMessage in Hrun.
  destruct (ok_selected _ _ _ Hok) as (t & Ht & Hin).
  assert (Htime : exists t, timestamp (message it) = Some t /\ t ∈ candidateTimes (sender msg)).
  { exists t. now rewrite (ok_timestamp _ _ _ Hok). }
  pose proof (ok_not_adjusted _ _ _ Hok) as Hadj.
  unfold windowIndexOf.
  destruct (sender msg) eqn:Hs; cbn [isSupport] in *.
  - injection Hrun as <-. simpl in *. split; simpl; rewrite ?Hs; done.
  - destruct (lookupZ businessHoursTimes _) as [raw|]; [|done].
    destruct (negb (isWithinBusinessHours raw)).
    + destruct (adjustToBusinessHours _ raw) as [[d' t']| |]; [|done|done].
      injection Hrun as <-. simpl in Hadj. done.
    + injection Hrun as <-. simpl in *. split; simpl; rewrite ?Hs; done.
Qed.

Lemma forEachMessage_placed (messages : list AssignedMessage) :
  forall (lastTimes : gmap string Z) (start : nat) (its : list Iteration),
    nonNegativeIndices lastTimes ->
    forEachMessage availableDates dateBreaks lastTimes start messages = Normal its ->
    length its = length messages /\
    forall k msg, messages !! k = Some msg ->
      exists it, its !! k = Some it /\
                 placedAt availableDates dateBreaks (start + k) msg it.
Proof.
  induction messages as [|msg rest IH]; intros lastTimes start its Hmap Hrun;
    simpl in Hrun.
  - injection Hrun as <-. split; [done|]. intros k m Hk. done.
  - destruct (processMessage_ok availableDates dateBreaks lastTimes start msg Hmap)
      as (it & Hit & Hok & Hmap').
    rewrite Hit in Hrun. simpl in Hrun.
    destruct (forEachMessage _ _ _ _ rest) as [its'| |] eqn:Hrest; [|done|done].
    injection Hrun as <-.
    destruct (IH _ _ _ Hmap' Hrest) as (Hlen & Hall).
    split; [simpl; now rewrite Hlen|].
    intros [|k] m Hk; simpl in Hk.
    + injection Hk as <-. exists it. split; [done|].
      rewrite Nat.add_0_r. eapply processMessage_placed; eauto.
    + destruct (Hall k m Hk) as (it' & Hit' & Hp). exists it'. split; [done|].
      now replace (start + S k)%nat with (S start + k)%nat by lia.
Qed.

End Positions.

(** Every message of the output is the input message at the same position
    with its date, time and break number filled in as [placedAt] says. *)
Lemma generateTimestamps_placed (messages : list AssignedMessage)
    (availableDates : list Date) :
  exists out,
    generateTimestamps messages availableDates = Normal out /\
    length out = length messages /\
    forall k msg, messages !! k = Some msg ->
      exists m, out !! k = Some m /\
        sender m = sender msg /\ text m = text msg /\
        date m = lookupZ availableDates
                   (windowIndexOf availableDates (computeDateBreaks messages) k (sender msg)) /\
        dateBreakIndex m = Z.of_nat (findDateBreakIndex (computeDateBreaks messages) k) /\
        exists t, timestamp m = Some t /\ t ∈ candidateTimes (sender msg).
Proof.
  destruct (traceTimestamps_ok messages availableDates) as (its & Hrun & _).
  exists (message <$> its). split; [now apply generateTimestamps_trace|].
  destruct (forEachMessage_placed availableDates (computeDateBreaks messages)
              messages ∅ 0%nat its (map_Forall_empty _) Hrun) as (Hlen & Hall).
  split; [now rewrite length_fmap|].
  intros k msg Hk. destruct (Hall k msg Hk) as (it & Hit & Hp).
  exists (message it). rewrite list_lookup_fmap, Hit. split; [done|].
  destruct Hp. simpl in *. done.
Qed.

(** ** Break starts and the break a message belongs to *)

Lemma findLastIndex_none_intro {A} (p : A -> bool) (l : list A) (i : nat) :
  (forall x, x ∈ l -> p x = false) -> findLastIndex p l i = None.
Proof.
  revert i; induction l as [|x l IH]; intros i Hall; simpl; [done|].
  rewrite IH by (intros y Hy; apply Hall; now right).
  rewrite (Hall x) by now left. done.
Qed.

(** The descending loop stops at the one position that satisfies the test
    and has no later position satisfying it. *)
Lemma findLastIndex_char {A} (p : A -> bool) (l : list A) (i j : nat) (x : A) :
  l !! j = Some x -> p x = true ->
  (forall k y, l !! k = Some y -> (j < k)%nat -> p y = false) ->
  findLastIndex p l i = Some (i + j)%nat.
Proof.
  revert i j; induction l as [|a l IH]; intros i j Hj Hp Hlater; [done|].
  destruct j as [|j]; simpl in Hj |- *.
  - injection Hj as ->.
    rewrite findLastIndex_none_intro.
    + rewrite Hp. f_equal. lia.
    + intros y Hy. apply list_elem_of_lookup in Hy as [k Hk].
      apply (Hlater (S k) y); [done|lia].
  - rewrite (IH (S i) j Hj Hp).
    + f_equal. lia.
    + intros k y Hk Hlt. apply (Hlater (S k) y); [done|lia].
Qed.

Lemma findDateBreakIndex_char (dateBreaks : list nat) (index j start : nat) :
  dateBreaks !! j = Some start -> (start <= index)%nat ->
  (forall k s, dateBreaks !! k = Some s -> (j < k)%nat -> (index < s)%nat) ->
  findDateBreakIndex dateBreaks index = j.
Proof.
  intros Hj Hle Hlater. unfold findDateBreakIndex.
  rewrite (findLastIndex_char _ dateBreaks 0 j start Hj).
  - done.
  - now apply Nat.leb_le.
  - intros k s Hk Hlt. apply Nat.leb_gt. eauto.
Qed.

Lemma findLastIndex_greatest {A} (p : A -> bool) (l : list A) (i j : nat) :
  findLastIndex p l i = Some j ->
  forall k y, l !! k = Some y -> (j < i + k)%nat -> p y = false.
Proof.
  revert i j; induction l as [|a l IH]; intros i j Hf k y Hk Hlt; [done|].
  simpl in Hf. destruct (findLastIndex p l (S i)) as [j1|] eqn:Hrec.
  - injection Hf as ->. destruct k as [|k]; simpl in Hk.
    + apply findLastIndex_Some in Hrec as [? _]. lia.
    + apply (IH (S i) j Hrec k y Hk). lia.
  - destruct k as [|k]; simpl in Hk.
    + destruct (p a); [|done]. injection Hf as <-. lia.
    + eapply findLastIndex_None; [exact Hrec|].
      eapply list_elem_of_lookup_2; eauto.
Qed.

(** For a break list that starts with 0 the loop always finds a position,
    and it is the last one whose start is not after [index]. *)
Lemma findDateBreakIndex_found (rest : list nat) (index : nat) :
  exists start,
    (0%nat :: rest) !! findDateBreakIndex (0%nat :: rest) index = Some start /\
    (start <= index)%nat /\
    forall k s, (0%nat :: rest) !! k = Some s ->
                (findDateBreakIndex (0%nat :: rest) index < k)%nat -> (index < s)%nat.
Proof.
  unfold findDateBreakIndex.
  destruct (findLastIndex _ (0%nat :: rest) 0) as [j|] eqn:Hf.
  - pose proof (findLastIndex_Some _ _ _ _ Hf) as (_ & x & Hx & Hpx).
    rewrite Nat.sub_0_r in Hx. exists x. split; [done|].
    split; [now apply Nat.leb_le|].
    intros k s Hk Hlt.
    pose proof (findLastIndex_greatest _ _ _ _ Hf k s Hk ltac:(lia)) as Hfalse.
    now apply Nat.leb_gt in Hfalse.
  - pose proof (findLastIndex_None _ _ _ Hf 0%nat ltac:(left)) as Hno. done.
Qed.

Lemma sorted_lookup_lt (l : list nat) (a b x y : nat) :
  StronglySorted lt l -> l !! a = Some x -> l !! b = Some y -> (a < b)%nat -> (x < y)%nat.
Proof.
  intros Hs. revert a b. induction Hs as [|z l Hs IH Hall]; intros a b Ha Hb Hlt; [done|].
  destruct b as [|b]; [lia|]. simpl in Hb. destruct a as [|a]; simpl in Ha.
  - injection Ha as <-. rewrite Forall_forall in Hall. apply Hall.
    eapply list_elem_of_lookup_2; eauto.
  - apply (IH a b); [done|done|lia].
Qed.

Lemma seq_sorted (start len : nat) : StronglySorted lt (seq start len).
Proof.
  revert start. induction len as [|len IH]; intros start; simpl; constructor; [apply IH|].
  apply Forall_forall. intros x Hx. apply elem_of_seq in Hx. lia.
Qed.

Lemma filter_sorted (P : nat -> Prop) `{!forall x, Decision (P x)} (l : list nat) :
  StronglySorted lt l -> StronglySorted lt (filter P l).
Proof.
  induction 1 as [|x l Hs IH Hall]; [constructor|].
  rewrite filter_cons. destruct (decide (P x)); [|done].
  constructor; [done|]. apply Forall_forall. intros y Hy.
  apply list_elem_of_filter in Hy as [_ Hy]. rewrite Forall_forall in Hall. auto.
Qed.

Lemma computeDateBreaks_sorted (messages : list AssignedMessage) :
  StronglySorted lt (computeDateBreaks messages).
Proof.
  unfold computeDateBreaks. constructor.
  - apply filter_sorted, seq_sorted.
  - apply Forall_forall. intros y Hy.
    apply list_elem_of_filter in Hy as [_ Hy]. apply elem_of_seq in Hy. lia.
Qed.

Lemma even_position_is_break (messages : list AssignedMessage) (k : nat) :
  (k < length messages)%nat -> Nat.even k = true -> k ∈ computeDateBreaks messages.
Proof.
  intros Hk He. unfold computeDateBreaks. destruct k as [|k]; [now left|]. right.
  apply list_elem_of_filter. split; [|apply elem_of_seq; lia].
  unfold startsDateBreak.
  destruct (lookup_lt_is_Some_2 messages (S k) Hk) as [cur ->].
  destruct (lookup_lt_is_Some_2 messages (S k - 1)) as [prev ->]; [lia|].
  now rewrite mod2_even, He.
Qed.

(** X1. The break starts are strictly ascending, each is 0 or a position of
    the message list, and every even position of the list is a break
    start. *)
Theorem dateBreaks_ascending_and_dense (messages : list AssignedMessage) :
  StronglySorted lt (computeDateBreaks messages) /\
  (forall start, start ∈ computeDateBreaks messages ->
                 start = 0%nat \/ (start < length messages)%nat) /\
  (forall k, (k < length messages)%nat -> Nat.even k = true ->
             k ∈ computeDateBreaks messages).
Proof.
  split; [apply computeDateBreaks_sorted|]. split.
  - intros start Hin. unfold computeDateBreaks in Hin.
    apply elem_of_cons in Hin as [->|Hin]; [now left|right].
    apply list_elem_of_filter in Hin as [_ Hin]. apply elem_of_seq in Hin. lia.
  - apply even_position_is_break.
Qed.

Lemma dateBreaks_ascending_and_dense_witness :
  (2 < length [mkMessage "a" you None None 0; mkMessage "b" you None None 0;
               mkMessage "c" you None None 0])%nat /\
  Nat.even 2 = true /\
  2%nat ∈ computeDateBreaks
    [mkMessage "a" you None None 0; mkMessage "b" you None None 0;
     mkMessage "c" you None None 0].
Proof.
  split; [simpl; lia|]. split; [reflexivity|].
  apply (proj2 (proj2 (dateBreaks_ascending_and_dense
    [mkMessage "a" you None None 0; mkMessage "b" you None None 0;
     mkMessage "c" you None None 0])) 2%nat); [simpl; lia|reflexivity].
Defined.

(** The break of a position: its start is the position itself or the one
    before it, and the next start lies after the position. *)
Lemma break_of_position (messages : list AssignedMessage) (k : nat) :
  (k < length messages)%nat ->
  exists start,
    computeDateBreaks messages !! findDateBreakIndex (computeDateBreaks messages) k
      = Some start /\
    (start <= k <= start + 1)%nat /\
    forall q s, computeDateBreaks messages !! q = Some s ->
                (findDateBreakIndex (computeDateBreaks messages) k < q)%nat ->
                (k < s)%nat.
Proof.
  intros Hk. pose proof (computeDateBreaks_sorted messages) as Hsorted.
  assert (Hshape : exists rest, computeDateBreaks messages = 0%nat :: rest) by (eexists; reflexivity).
  destruct Hshape as [rest Hshape]. rewrite Hshape in *.
  destruct (findDateBreakIndex_found rest k) as (start & Hstart & Hle & Hlater).
  exists start. split; [done|]. split; [|done]. split; [done|].
  set (e := if Nat.even k then k else (k - 1)%nat).
  assert (He : e ∈ (0%nat :: rest) /\ (e <= k <= e + 1)%nat).
  { rewrite <- Hshape. subst e. destruct (Nat.even k) eqn:Hev.
    - split; [now apply even_position_is_break|lia].
    - destruct k as [|k]; [done|]. split; [|lia].
      apply even_position_is_break; [lia|].
      rewrite Nat.even_succ in Hev. rewrite Nat.sub_1_r. simpl.
      rewrite <- Nat.negb_odd. now rewrite Hev. }
  destruct He as [Hin Hrange]. apply list_elem_of_lookup in Hin as [q Hq].
  destruct (Nat.lt_trichotomy q (findDateBreakIndex (0%nat :: rest) k)) as [Hlt|[->|Hgt]].
  - pose proof (sorted_lookup_lt _ _ _ _ _ Hsorted Hq Hstart Hlt). lia.
  - rewrite Hq in Hstart. injection Hstart as <-. lia.
  - pose proof (Hlater q e Hq Hgt). lia.
Qed.

(** X2. Every returned message carries the number of the break that
    encloses its position: that break starts at the position or one before
    it (a break holds at most two messages) and the next break, if any,
    starts after it. *)
Theorem message_break_encloses (messages : list AssignedMessage)
    (availableDates : list Date) :
  exists out,
    generateTimestamps messages availableDates = Normal out /\
    forall k m, out !! k = Some m ->
      exists b start,
        dateBreakIndex m = Z.of_nat b /\
        computeDateBreaks messages !! b = Some start /\
        (start <= k <= start + 1)%nat /\
        forall q s, computeDateBreaks messages !! q = Some s -> (b < q)%nat -> (k < s)%nat.
Proof.
  destruct (generateTimestamps_placed messages availableDates) as (out & Hrun & Hlen & Hall).
  exists out. split; [done|]. intros k m Hk.
  assert (Hlt : (k < length messages)%nat) by (rewrite <- Hlen; eapply lookup_lt_Some; eauto).
  destruct (lookup_lt_is_Some_2 messages k Hlt) as [msg Hmsg].
  destruct (Hall k msg Hmsg) as (m' & Hm' & _ & _ & _ & Hb & _).
  rewrite Hk in Hm'. injection Hm' as <-.
  destruct (break_of_position messages k Hlt) as (start & Hs & Hr & Hn).
  exists (findDateBreakIndex (computeDateBreaks messages) k), start. done.
Qed.

Lemma break_number_step (messages : list AssignedMessage) (k : nat) :
  (S k < length messages)%nat ->
  findDateBreakIndex (computeDateBreaks messages) (S k) =
  (findDateBreakIndex (computeDateBreaks messages) k +
   if bool_decide (S k ∈ computeDateBreaks messages) then 1 else 0)%nat.
Proof.
  intros Hk. pose proof (computeDateBreaks_sorted messages) as Hsorted.
  destruct (break_of_position messages k ltac:(lia)) as (start & Hstart & Hr & Hnext).
  set (dbs := computeDateBreaks messages) in *. set (p := findDateBreakIndex dbs k) in *.
  case_bool_decide as Hin.
  - apply list_elem_of_lookup in Hin as [q Hq].
    assert (Hpq : (p < q)%nat).
    { destruct (Nat.lt_trichotomy p q) as [?|[->|Hgt]]; [done| |].
      - rewrite Hq in Hstart. injection Hstart as <-. lia.
      - pose proof (sorted_lookup_lt _ _ _ _ _ Hsorted Hq Hstart Hgt). lia. }
    assert (q = S p) as ->.
    { destruct (Nat.eq_dec q (S p)) as [|Hne]; [done|exfalso].
      destruct (lookup_lt_is_Some_2 dbs (S p)) as [s Hs].
      { apply lookup_lt_Some in Hq. lia. }
      pose proof (Hnext (S p) s Hs ltac:(lia)).
      pose proof (sorted_lookup_lt _ _ _ _ _ Hsorted Hs Hq ltac:(lia)). lia. }
    rewrite Nat.add_1_r. apply (findDateBreakIndex_char dbs (S k) (S p) (S k) Hq); [lia|].
    intros j s Hj Hlt. pose proof (sorted_lookup_lt _ _ _ _ _ Hsorted Hq Hj Hlt). lia.
  - rewrite Nat.add_0_r. apply (findDateBreakIndex_char dbs (S k) p start Hstart); [lia|].
    intros j s Hj Hlt. pose proof (Hnext j s Hj Hlt).
    destruct (Nat.eq_dec s (S k)) as [->|]; [|lia].
    exfalso. apply Hin. eapply list_elem_of_lookup_2; eauto.
Qed.

Lemma break_numbers_steps_aux (messages : list AssignedMessage)
    (availableDates : list Date) (out : list AssignedMessage) :
  generateTimestamps messages availableDates = Normal out ->
  (forall m, out !! 0%nat = Some m -> dateBreakIndex m = 0) /\
  forall k a b, out !! k = Some a -> out !! S k = Some b ->
    dateBreakIndex b =
    dateBreakIndex a + (if bool_decide (S k ∈ computeDateBreaks messages) then 1 else 0).
Proof.
  intros Hout.
  destruct (generateTimestamps_placed messages availableDates) as (out' & Hrun & Hlen & Hall).
  rewrite Hout in Hrun. injection Hrun as <-. split.
  - intros m Hm.
    assert (Hlt : (0 < length messages)%nat) by (rewrite <- Hlen; eapply lookup_lt_Some; eauto).
    destruct (lookup_lt_is_Some_2 messages 0 Hlt) as [msg Hmsg].
    destruct (Hall 0%nat msg Hmsg) as (m' & Hm' & _ & _ & _ & Hb & _).
    rewrite Hm in Hm'. injection Hm' as <-. rewrite Hb.
    destruct (break_of_position messages 0 Hlt) as (start & Hs & Hr & _).
    destruct (findDateBreakIndex (computeDateBreaks messages) 0) as [|p] eqn:Hp; [done|].
    pose proof (sorted_lookup_lt _ 0 (S p) 0 start (computeDateBreaks_sorted messages)
                  eq_refl Hs ltac:(lia)). lia.
  - intros k a b Ha Hb.
    assert (Hlt : (S k < length messages)%nat) by (rewrite <- Hlen; eapply lookup_lt_Some; eauto).
    destruct (lookup_lt_is_Some_2 messages k ltac:(lia)) as [ma Hma].
    destruct (lookup_lt_is_Some_2 messages (S k) Hlt) as [mb Hmb].
    destruct (Hall k ma Hma) as (a' & Ha' & _ & _ & _ & Hba & _).
    destruct (Hall (S k) mb Hmb) as (b' & Hb' & _ & _ & _ & Hbb & _).
    rewrite Ha in Ha'. injection Ha' as <-. rewrite Hb in Hb'. injection Hb' as <-.
    rewrite Hba, Hbb, (break_number_step messages k Hlt).
    case_bool_decide; lia.
Qed.

(** X3. The break numbers of the returned messages start at 0 and go up by
    exactly one at each break start, staying the same elsewhere. *)
Theorem break_numbers_count_break_starts (messages : list AssignedMessage)
    (availableDates : list Date) :
  exists out,
    generateTimestamps messages availableDates = Normal out /\
    (forall m, out !! 0%nat = Some m -> dateBreakIndex m = 0) /\
    forall k a b, out !! k = Some a -> out !! S k = Some b ->
      dateBreakIndex b =
      dateBreakIndex a + (if bool_decide (S k ∈ computeDateBreaks messages) then 1 else 0).
Proof.
  destruct (generateTimestamps_placed messages availableDates) as (out & Hrun & _).
  exists out. split; [done|]. exact (break_numbers_steps_aux _ _ _ Hrun).
Qed.

(** ** Date headers *)

Lemma foldl_breaks_elem (assigned : list AssignedMessage)
    (l : list (nat * AssignedMessage)) (acc : gset nat) (i : nat) :
  i ∈ foldl (fun (breaks : gset nat) '(index, msg) =>
               if addsDateBreak assigned index msg then {[index]} ∪ breaks else breaks)
            acc l <->
  i ∈ acc \/ exists msg, (i, msg) ∈ l /\ addsDateBreak assigned i msg = true.
Proof.
  revert acc. induction l as [|[j m] l IH]; intros acc; simpl.
  - split; [auto|]. intros [H|(msg & H & _)]; [done|inversion H].
  - rewrite IH. destruct (addsDateBreak assigned j m) eqn:Hadd.
    + rewrite elem_of_union, elem_of_singleton. split.
      * intros [[->|H]|(msg & H & Hm)]; [right; exists m|auto|right; exists msg].
        -- split; [now left|done].
        -- split; [now right|done].
      * intros [H|(msg & H & Hm)]; [auto|].
        apply elem_of_cons in H as [[= -> ->]|H]; [auto|]. right. eauto.
    + split.
      * intros [H|(msg & H & Hm)]; [auto|]. right. exists msg. split; [now right|done].
      * intros [H|(msg & H & Hm)]; [auto|].
        apply elem_of_cons in H as [[= -> ->]|H]; [congruence|]. right. eauto.
Qed.

(** A position carries a date header exactly when the callback adds it. *)
Lemma shownDateBreaks_elem (assigned : list AssignedMessage) (i : nat) :
  i ∈ shownDateBreaks assigned <->
  exists msg, assigned !! i = Some msg /\ addsDateBreak assigned i msg = true.
Proof.
  unfold shownDateBreaks. rewrite foldl_breaks_elem. split.
  - intros [H|(msg & H & Hadd)]; [set_solver|].
    apply elem_of_lookup_imap in H as (j & y & [= -> ->] & Hj). eauto.
  - intros (msg & Hi & Hadd). right. exists msg. split; [|done].
    apply elem_of_lookup_imap. eauto.
Qed.

(** X4. On the list returned by generateTimestamps the component shows a
    date header at the first message, at every break start, and wherever
    two neighbouring messages lie on different calendar days; it shows none
    at a position outside the list. *)
Theorem date_headers_cover_date_changes (messages : list AssignedMessage)
    (availableDates : list Date) :
  exists out,
    generateTimestamps messages availableDates = Normal out /\
    (messages <> [] -> 0%nat ∈ shownDateBreaks out) /\
    (forall k, (k < length messages)%nat -> k ∈ computeDateBreaks messages ->
               k ∈ shownDateBreaks out) /\
    (forall k a b da db, out !! k = Some a -> out !! S k = Some b ->
       date a = Some da -> date b = Some db -> day da <> day db ->
       S k ∈ shownDateBreaks out) /\
    (forall k, k ∈ shownDateBreaks out -> (k < length messages)%nat).
Proof.
  destruct (generateTimestamps_placed messages availableDates) as (out & Hrun & Hlen & Hall).
  destruct (break_numbers_steps_aux messages availableDates out Hrun) as (H0 & Hstep).
  exists out. split; [done|].
  assert (Hfirst : messages <> [] -> 0%nat ∈ shownDateBreaks out).
  { intros Hne. apply shownDateBreaks_elem.
    destruct (lookup_lt_is_Some_2 out 0) as [m Hm].
    { rewrite Hlen. destruct messages; simpl; [done|lia]. }
    exists m. split; [done|]. reflexivity. }
  split; [exact Hfirst|]. split; [|split].
  - intros [|k] Hk Hin.
    { apply Hfirst. intros ->. simpl in Hk. lia. }
    apply shownDateBreaks_elem.
    destruct (lookup_lt_is_Some_2 out (S k)) as [b Hb]; [lia|].
    destruct (lookup_lt_is_Some_2 out k) as [a Ha]; [lia|].
    exists b. split; [done|]. unfold addsDateBreak. simpl.
    rewrite Nat.sub_0_r, Ha. rewrite (Hstep k a b Ha Hb).
    rewrite bool_decide_eq_true_2 by done.
    destruct (Z.eqb_spec (dateBreakIndex a) (dateBreakIndex a + 1)); [lia|done].
  - intros k a b da db Ha Hb Hda Hdb Hne.
    apply shownDateBreaks_elem. exists b. split; [done|].
    unfold addsDateBreak. simpl. rewrite Nat.sub_0_r, Ha.
    destruct (Z.eqb_spec (dateBreakIndex a) (dateBreakIndex b)) as [Heq|]; [|done].
    simpl. case_bool_decide as Hs; simpl.
    + exfalso.
      assert (Hlt : (S k < length messages)%nat) by (rewrite <- Hlen; eapply lookup_lt_Some; eauto).
      destruct (lookup_lt_is_Some_2 messages k ltac:(lia)) as [ma Hma].
      destruct (lookup_lt_is_Some_2 messages (S k) Hlt) as [mb Hmb].
      destruct (Hall k ma Hma) as (a' & Ha' & Hsa & _ & Hdate_a & Hba & _).
      destruct (Hall (S k) mb Hmb) as (b' & Hb' & Hsb & _ & Hdate_b & Hbb & _).
      rewrite Ha in Ha'. injection Ha' as <-. rewrite Hb in Hb'. injection Hb' as <-.
      rewrite Hba, Hbb in Heq. apply Nat2Z.inj in Heq.
      unfold windowIndexOf in Hdate_a, Hdate_b.
      rewrite <- Hsa, Hs, Heq in Hdate_a. rewrite <- Hsb in Hdate_b.
      congruence.
    + rewrite Hda, Hdb. simpl. rewrite !getTime_normalizeDate.
      destruct (Z.eqb_spec (day da * MS_PER_DAY) (day db * MS_PER_DAY)) as [He|]; [|done].
      unfold MS_PER_DAY in He. lia.
  - intros k Hk. apply shownDateBreaks_elem in Hk as (m & Hm & _).
    rewrite <- Hlen. eapply lookup_lt_Some; eauto.
Qed.

(** ** The weekend guard *)

Lemma findFirstIndex_least {A} (p : A -> bool) (l : list A) (i j : nat) :
  findFirstIndex p l i = Some j ->
  forall k x, l !! k = Some x -> (i + k < j)%nat -> p x = false.
Proof.
  revert i; induction l as [|a l IH]; intros i Hf k x Hk Hlt; [done|].
  simpl in Hf. destruct (p a) eqn:Hp.
  - injection Hf as <-. lia.
  - destruct k as [|k]; simpl in Hk; [congruence|].
    apply (IH (S i) Hf k x Hk). lia.
Qed.

Lemma weekend_guard_cases (availableDates : list Date) (n : nat) (d : Date) :
  availableDates !! n = Some d ->
  exists j : nat,
    avoidWeekend availableDates (Z.of_nat n) = Z.of_nat j /\
    ((isWeekend d = false /\ j = n) \/
     (isWeekend d = true /\ (n < j)%nat /\
      (exists x, availableDates !! j = Some x /\ isWeekday x = true) /\
      (forall k x, (n < k < j)%nat -> availableDates !! k = Some x -> isWeekday x = false)) \/
     (isWeekend d = true /\ (j < n)%nat /\
      (exists x, availableDates !! j = Some x /\ isWeekday x = true) /\
      (forall k x, (j < k)%nat -> availableDates !! k = Some x -> isWeekday x = false)) \/
     (isWeekend d = true /\ j = n /\
      forall x, x ∈ availableDates -> isWeekday x = false)).
Proof.
  intros Hn. unfold avoidWeekend. rewrite lookupZ_of_nat, Hn, Nat2Z.id.
  destruct (isWeekend d) eqn:Hwe; [|exists n; auto].
  destruct (findFirstIndex _ _ _) as [j|] eqn:Hf.
  { exists j. split; [done|]. right; left.
    pose proof (findFirstIndex_Some _ _ _ _ Hf) as (Hle & x & Hx & Hpx).
    rewrite lookup_drop in Hx.
    replace (S n + (j - S n))%nat with j in Hx by lia.
    split; [done|]. split; [lia|]. split; [eauto|].
    intros k y Hk Hy.
    apply (findFirstIndex_least _ _ _ _ Hf (k - S n)%nat y); [|lia].
    rewrite lookup_drop. now replace (S n + (k - S n))%nat with k by lia. }
  pose proof (findFirstIndex_None _ _ _ Hf) as Hafter.
  assert (Hlater : forall k x, (n < k)%nat -> availableDates !! k = Some x ->
                               isWeekday x = false).
  { intros k x Hk Hx. apply Hafter. apply list_elem_of_lookup.
    exists (k - S n)%nat. rewrite lookup_drop.
    now replace (S n + (k - S n))%nat with k by lia. }
  destruct (findLastIndex _ _ _) as [j|] eqn:Hb.
  { exists j. split; [done|]. right; right; left.
    pose proof (findLastIndex_Some _ _ _ _ Hb) as (_ & x & Hx & Hpx).
    rewrite Nat.sub_0_r in Hx. apply lookup_take_Some in Hx as [Hx Hjn].
    split; [done|]. split; [lia|]. split; [eauto|].
    intros k y Hk Hy.
    destruct (Nat.lt_trichotomy k n) as [Hlt|[->|Hgt]].
    - apply (findLastIndex_greatest _ _ _ _ Hb k y); [|lia].
      now rewrite lookup_take_lt.
    - rewrite Hn in Hy. injection Hy as <-.
      now rewrite isWeekday_not_weekend, Hwe.
    - eauto. }
  exists n. split; [done|]. right; right; right. split; [done|]. split; [done|].
  intros x Hx. apply list_elem_of_lookup in Hx as [k Hk].
  destruct (Nat.lt_trichotomy k n) as [Hlt|[->|Hgt]].
  - apply (findLastIndex_None _ _ _ Hb). apply list_elem_of_lookup.
    exists k. now rewrite lookup_take_lt.
  - rewrite Hn in Hk. injection Hk as <-. now rewrite isWeekday_not_weekend, Hwe.
  - eauto.
Qed.

(** X5. The weekend guard for support messages leaves a weekday position
    alone.  From a weekend position it moves to the nearest weekday later
    in the window when there is one, even if an earlier weekday is closer;
    otherwise to the nearest earlier weekday; and when the window holds no
    weekday at all it leaves the position on the weekend. *)
Theorem weekend_guard_picks_nearest (availableDates : list Date) (n : nat) (d : Date) :
  availableDates !! n = Some d ->
  exists j : nat,
    avoidWeekend availableDates (Z.of_nat n) = Z.of_nat j /\
    ((isWeekend d = false /\ j = n) \/
     (isWeekend d = true /\ (n < j)%nat /\
      (exists x, availableDates !! j = Some x /\ isWeekday x = true) /\
      (forall k x, (n < k < j)%nat -> availableDates !! k = Some x -> isWeekday x = false)) \/
     (isWeekend d = true /\ (j < n)%nat /\
      (exists x, availableDates !! j = Some x /\ isWeekday x = true) /\
      (forall k x, (j < k)%nat -> availableDates !! k = Some x -> isWeekday x = false)) \/
     (isWeekend d = true /\ j = n /\
      forall x, x ∈ availableDates -> isWeekday x = false)).
Proof. apply weekend_guard_cases. Qed.

Lemma weekend_guard_picks_nearest_witness :
  let window :=
    [mkDate 19726 0; mkDate 19727 0; mkDate 19728 0; mkDate 19729 0; mkDate 19730 0] in
  window !! 2%nat = Some (mkDate 19728 0) /\
  exists j : nat,
    avoidWeekend window (Z.of_nat 2) = Z.of_nat j /\
    ((isWeekend (mkDate 19728 0) = false /\ j = 2%nat) \/
     (isWeekend (mkDate 19728 0) = true /\ (2 < j)%nat /\
      (exists x, window !! j = Some x /\ isWeekday x = true) /\
      (forall k x, (2 < k < j)%nat -> window !! k = Some x -> isWeekday x = false)) \/
     (isWeekend (mkDate 19728 0) = true /\ (j < 2)%nat /\
      (exists x, window !! j = Some x /\ isWeekday x = true) /\
      (forall k x, (j < k)%nat -> window !! k = Some x -> isWeekday x = false)) \/
     (isWeekend (mkDate 19728 0) = true /\ j = 2%nat /\
      forall x, x ∈ window -> isWeekday x = false)).
Proof.
  intros window. split; [reflexivity|].
  apply (weekend_guard_picks_nearest window 2 (mkDate 19728 0)). reflexivity.
Defined.

Example saturday_moves_forward_to_monday :
  avoidWeekend
    [mkDate 19726 0; mkDate 19727 0; mkDate 19728 0; mkDate 19729 0; mkDate 19730 0]
    2 = 4.
Proof. vm_compute. reflexivity. Qed.

(** ** Dates along the conversation *)

Lemma findDateBreakIndex_mono (dateBreaks : list nat) (i j : nat) :
  (i <= j)%nat ->
  (findDateBreakIndex dateBreaks i <= findDateBreakIndex dateBreaks j)%nat.
Proof.
  intros Hij. unfold findDateBreakIndex.
  destruct (findLastIndex (fun start => (start <=? i)%nat) dateBreaks 0) as [p|] eqn:Hi; [|lia].
  pose proof (findLastIndex_Some _ _ _ _ Hi) as (_ & x & Hx & Hpx).
  rewrite Nat.sub_0_r in Hx. apply Nat.leb_le in Hpx.
  destruct (findLastIndex (fun start => (start <=? j)%nat) dateBreaks 0) as [q|] eqn:Hj.
  - destruct (Nat.le_gt_cases p q) as [|Hlt]; [done|exfalso].
    pose proof (findLastIndex_greatest _ _ _ _ Hj p x Hx ltac:(lia)) as Hf.
    apply Nat.leb_gt in Hf. lia.
  - pose proof (findLastIndex_None _ _ _ Hj x) as Hf.
    rewrite Nat.leb_gt in Hf. exfalso.
    assert (x ∈ dateBreaks) by (eapply list_elem_of_lookup_2; eauto).
    specialize (Hf ltac:(done)). lia.
Qed.

Lemma mapDateBreak_mono (total a b : nat) (availableDates : list Date) :
  (a <= b)%nat ->
  mapDateBreak total a availableDates <= mapDateBreak total b availableDates.
Proof. intros Hab. unfold mapDateBreak. destruct (0 <? Z.of_nat total); lia. Qed.

Lemma datesBackFrom_lookup (today : Date) (daysBack : Z) (a : nat) (x : Date) :
  daysBack = 3 \/ daysBack = 4 \/ daysBack = 5 ->
  datesBackFrom today daysBack !! a = Some x ->
  x = addDays today (Z.of_nat a - daysBack) /\ Z.of_nat a <= daysBack.
Proof.
  intros [->|[->| ->]] Ha;
    rewrite ?datesBackFrom_3, ?datesBackFrom_4, ?datesBackFrom_5 in Ha;
    do 7 (try destruct a as [|a]); simpl in Ha; try done;
    injection Ha as <-; split; try reflexivity; lia.
Qed.

Lemma datesBackFrom_lookupZ (today : Date) (daysBack i : Z) (x : Date) :
  daysBack = 3 \/ daysBack = 4 \/ daysBack = 5 ->
  lookupZ (datesBackFrom today daysBack) i = Some x ->
  x = addDays today (i - daysBack) /\ 0 <= i <= daysBack.
Proof.
  intros Hk Hi. unfold lookupZ in Hi. destruct (Z.ltb_spec i 0); [done|].
  destruct (datesBackFrom_lookup _ _ _ _ Hk Hi) as [-> Hle].
  rewrite Z2Nat.id in * by lia. split; [done|lia].
Qed.

Lemma datesBackFrom_length (today : Date) (daysBack : Z) :
  daysBack = 3 \/ daysBack = 4 \/ daysBack = 5 ->
  Z.of_nat (length (datesBackFrom today daysBack)) = daysBack + 1.
Proof. intros [->|[->| ->]]; reflexivity. Qed.

(** X6. In the list the pipeline returns, the dates of the messages from
    you never go back along the conversation, and none is after the
    current date. *)
Theorem your_dates_never_go_back (now : Date) (clock : nat -> Date)
    (rawMessages : list string) (conversationType : ConversationType) :
  exists out,
    chatTimeline now clock rawMessages conversationType = Normal out /\
    forall i j mi mj,
      (i <= j)%nat -> out !! i = Some mi -> out !! j = Some mj ->
      sender mi = you -> sender mj = you ->
      exists di dj, date mi = Some di /\ date mj = Some dj /\
                    day di <= day dj <= day now.
Proof.
  destruct (generateDates_shape now) as (k & Hgen & Hk & _).
  set (today := setHours now 0) in *. set (window := datesBackFrom today k) in *.
  set (messages := firstPass clock rawMessages conversationType).
  destruct (generateTimestamps_placed messages window) as (out & Hrun & Hlen & Hall).
  exists out. split.
  { unfold chatTimeline. rewrite Hgen. exact Hrun. }
  assert (Hne : window <> []).
  { intros Hnil. pose proof (datesBackFrom_length today k Hk) as Hl.
    fold window in Hl. rewrite Hnil in Hl. simpl in Hl. lia. }
  assert (Hat : forall i m, out !! i = Some m -> sender m = you ->
            exists d, date m = Some d /\
              day d = day now +
                (mapDateBreak (length (computeDateBreaks messages))
                   (findDateBreakIndex (computeDateBreaks messages) i) window - k) /\
              day d <= day now).
  { intros i m Hm Hs.
    assert (Hlt : (i < length messages)%nat) by (rewrite <- Hlen; eapply lookup_lt_Some; eauto).
    destruct (lookup_lt_is_Some_2 messages i Hlt) as [msg Hmsg].
    destruct (Hall i msg Hmsg) as (m' & Hm' & Hsm & _ & Hdate & _).
    rewrite Hm in Hm'. injection Hm' as <-.
    rewrite <- Hsm, Hs in Hdate. unfold windowIndexOf in Hdate. cbn [isSupport] in Hdate.
    destruct (lookupZ_Some window _ (mapDateBreak_range (length (computeDateBreaks messages))
                (findDateBreakIndex (computeDateBreaks messages) i) window Hne))
      as (d & Hd & _).
    exists d. rewrite Hdate. split; [done|].
    destruct (datesBackFrom_lookupZ _ _ _ _ Hk Hd) as [-> Hr].
    subst today. unfold addDays, setHours. cbn [day]. lia. }
  intros i j mi mj Hij Hi Hj Hsi Hsj.
  destruct (Hat i mi Hi Hsi) as (di & Hdi & Hdayi & _).
  destruct (Hat j mj Hj Hsj) as (dj & Hdj & Hdayj & Hle).
  exists di, dj. split; [done|]. split; [done|]. split; [|done].
  rewrite Hdayi, Hdayj.
  pose proof (mapDateBreak_mono (length (computeDateBreaks messages)) _ _ window
                (findDateBreakIndex_mono (computeDateBreaks messages) i j Hij)). lia.
Qed.

Lemma dateBreaks_in_range (messages : list AssignedMessage) (start : nat) :
  start ∈ computeDateBreaks messages -> start = 0%nat \/ (start < length messages)%nat.
Proof.
  intros Hin. unfold computeDateBreaks in Hin.
  apply elem_of_cons in Hin as [->|Hin]; [now left|right].
  apply list_elem_of_filter in Hin as [_ Hin]. apply elem_of_seq in Hin. lia.
Qed.

(** The last position of the list lies in the last break. *)
Lemma last_position_in_last_break (messages : list AssignedMessage) :
  messages <> [] ->
  S (findDateBreakIndex (computeDateBreaks messages) (length messages - 1))
  = length (computeDateBreaks messages).
Proof.
  intros Hne.
  assert (Hn : (0 < length messages)%nat) by (destruct messages; simpl; [done|lia]).
  destruct (break_of_position messages (length messages - 1) ltac:(lia))
    as (start & Hs & _ & Hnext).
  set (p := findDateBreakIndex _ _) in *.
  pose proof (lookup_lt_Some _ _ _ Hs) as Hp.
  destruct (Nat.eq_dec (S p) (length (computeDateBreaks messages))) as [|Hneq]; [done|exfalso].
  destruct (lookup_lt_is_Some_2 (computeDateBreaks messages) (S p) ltac:(lia)) as [s Hsp].
  pose proof (Hnext (S p) s Hsp ltac:(lia)) as Hlt.
  destruct (dateBreaks_in_range messages s) as [->|Hr]; [|lia|lia].
  eapply list_elem_of_lookup_2; eauto.
Qed.

Lemma mapDateBreak_last (total : nat) (availableDates : list Date) :
  (0 < total)%nat -> availableDates <> [] ->
  mapDateBreak total (total - 1) availableDates = Z.of_nat (length availableDates) - 1.
Proof.
  intros Ht Hne. assert (0 < length availableDates)%nat by (destruct availableDates; simpl; [done|lia]).
  unfold mapDateBreak. destruct (Z.ltb_spec 0 (Z.of_nat total)); lia.
Qed.

Lemma datesBackFrom_lookup_total (today : Date) (daysBack : Z) (a : nat) :
  daysBack = 3 \/ daysBack = 4 \/ daysBack = 5 -> Z.of_nat a <= daysBack ->
  datesBackFrom today daysBack !! a = Some (addDays today (Z.of_nat a - daysBack)).
Proof.
  intros Hk Ha.
  destruct (lookup_lt_is_Some_2 (datesBackFrom today daysBack) a) as [x Hx].
  { pose proof (datesBackFrom_length today daysBack Hk). lia. }
  now destruct (datesBackFrom_lookup _ _ _ _ Hk Hx) as [-> _].
Qed.

Lemma isWeekend_day (a b : Date) : day a = day b -> isWeekend a = isWeekend b.
Proof. intros H. unfold isWeekend, getDay. now rewrite H. Qed.

(** X7. For a non-empty message list the last returned message is dated on
    the current date, unless it is from support and the current date falls
    on a weekend: then it is dated on the latest weekday before it. *)
Theorem last_message_on_latest_allowed_day (now : Date) (clock : nat -> Date)
    (rawMessages : list string) (conversationType : ConversationType) :
  rawMessages <> [] ->
  exists out m d,
    chatTimeline now clock rawMessages conversationType = Normal out /\
    last out = Some m /\ date m = Some d /\
    msOfDay d = 0 /\ day d <= day now /\
    (sender m = you -> day d = day now) /\
    (sender m = support ->
     isWeekend d = false /\
     forall k ms, day d < k <= day now -> isWeekend (mkDate k ms) = true).
Proof.
  intros Hraw.
  destruct (generateDates_shape now) as (k & Hgen & Hk & Hwd).
  set (today := setHours now 0) in *. set (window := datesBackFrom today k) in *.
  set (messages := firstPass clock rawMessages conversationType).
  destruct (generateTimestamps_placed messages window) as (out & Hrun & Hlen & Hall).
  assert (Hmne : messages <> []).
  { intros Hnil. apply (f_equal length) in Hnil. unfold messages, firstPass in Hnil.
    rewrite length_imap in Hnil. destruct rawMessages; done. }
  assert (Hn : (0 < length messages)%nat) by (destruct messages; simpl; [done|lia]).
  assert (Hwlen : Z.of_nat (length window) = k + 1) by now apply datesBackFrom_length.
  assert (Hne : window <> []) by (intros Hnil; rewrite Hnil in Hwlen; simpl in Hwlen; lia).
  destruct (lookup_lt_is_Some_2 messages (length messages - 1) ltac:(lia)) as [msg Hmsg].
  destruct (Hall _ msg Hmsg) as (m & Hm & Hsm & _ & Hdate & _).
  pose proof (last_position_in_last_break messages Hmne) as Hlast.
  unfold windowIndexOf in Hdate.
  replace (findDateBreakIndex (computeDateBreaks messages) (length messages - 1))
    with (length (computeDateBreaks messages) - 1)%nat in Hdate by lia.
  rewrite mapDateBreak_last in Hdate by (done || lia).
  rewrite Hwlen in Hdate. replace (k + 1 - 1) with k in Hdate by lia.
  assert (Hkn : k = Z.of_nat (Z.to_nat k)) by lia.
  assert (Htoday : window !! Z.to_nat k = Some (mkDate (day now) 0)).
  { unfold window. rewrite datesBackFrom_lookup_total by (done || lia).
    f_equal. unfold addDays, today, setHours. cbn [day msOfDay]. f_equal; lia. }
  exists out, m. 
  assert (Hlastm : last out = Some m).
  { rewrite last_lookup, Hlen. now replace (pred (length messages)) with (length messages - 1)%nat by lia. }
  destruct (sender msg) eqn:Hs; cbn [isSupport] in Hdate.
  - exists (mkDate (day now) 0). rewrite Hsm.
    split; [unfold chatTimeline; rewrite Hgen; exact Hrun|]. split; [done|].
    split; [rewrite Hdate, Hkn, lookupZ_of_nat; done|].
    cbn [day msOfDay]. repeat split; try lia; try done.
  - rewrite Hkn in Hdate.
    destruct (weekend_guard_cases window (Z.to_nat k) _ Htoday)
      as (j & Hj & [(Hwe & ->)|[(Hwe & Hlt & (x & Hx & _) & _)|[(Hwe & Hlt & (x & Hx & Hwx) & Hafter)|(_ & _ & Hnone)]]]).
    + exists (mkDate (day now) 0). rewrite Hsm.
      split; [unfold chatTimeline; rewrite Hgen; exact Hrun|]. split; [done|].
      split; [rewrite Hdate, Hj, lookupZ_of_nat; done|].
      cbn [day msOfDay]. repeat split; try lia; try done.
    + exfalso. apply lookup_lt_Some in Hx. lia.
    + exists x. rewrite Hsm.
      split; [unfold chatTimeline; rewrite Hgen; exact Hrun|]. split; [done|].
      split; [rewrite Hdate, Hj, lookupZ_of_nat; done|].
      destruct (datesBackFrom_lookup _ _ _ _ Hk Hx) as [Hxe _].
      assert (Hdx : day x = day now + (Z.of_nat j - k) /\ msOfDay x = 0).
      { rewrite Hxe. unfold addDays, today, setHours. cbn [day msOfDay]. lia. }
      destruct Hdx as [Hdx Hmx].
      split; [done|]. split; [lia|]. split; [done|]. intros _. split.
      * rewrite isWeekday_not_weekend in Hwx. now destruct (isWeekend x).
      * intros k' ms Hk'.
        set (a := Z.to_nat (k' - day now + k)).
        assert (Ha : window !! a = Some (addDays today (Z.of_nat a - k))).
        { apply datesBackFrom_lookup_total; [done|]. unfold a. lia. }
        pose proof (Hafter a _ ltac:(unfold a; lia) Ha) as Hnw.
        rewrite isWeekday_not_weekend in Hnw.
        rewrite (isWeekend_day (mkDate k' ms) (addDays today (Z.of_nat a - k))).
        -- now destruct (isWeekend (addDays today (Z.of_nat a - k))).
        -- unfold addDays, today, setHours, a. cbn [day]. lia.
    + exfalso. destruct (countWeekdays_hasWeekday window ltac:(lia)) as (w & Hw & Hww).
      rewrite (Hnone w Hw) in Hww. done.
Qed.

Lemma last_message_on_latest_allowed_day_witness :
  ["ping"; "pong"]%string <> [] /\
  exists out m d,
    chatTimeline (mkDate 19728 0) (fun _ => mkDate 19728 0) ["ping"; "pong"]%string good
      = Normal out /\
    last out = Some m /\ date m = Some d /\
    msOfDay d = 0 /\ day d <= day (mkDate 19728 0) /\
    (sender m = you -> day d = day (mkDate 19728 0)) /\
    (sender m = support ->
     isWeekend d = false /\
     forall k ms, day d < k <= day (mkDate 19728 0) -> isWeekend (mkDate k ms) = true).
Proof.
  split; [discriminate|].
  apply (last_message_on_latest_allowed_day (mkDate 19728 0) (fun _ => mkDate 19728 0)
           ["ping"; "pong"]%string good).
  discriminate.
Defined.

Example saturday_reply_is_dated_friday :
  (fun out => date <$> last out) <$>
    chatTimeline (mkDate 19728 0) (fun _ => mkDate 19728 0) ["ping"; "pong"]%string good
  = Normal (Some (Some (mkDate 19727 0))).
Proof. vm_compute. reflexivity. Qed.

(** ** Reading the hour of a timestamp *)

Lemma spanDigits_split (s : list ascii) :
  s = (spanDigits s).1 ++ (spanDigits s).2.
Proof.
  induction s as [|c s IH]; simpl; [done|].
  destruct (isDigit c); [|done].
  destruct (spanDigits s) as [ds rest]. simpl in *. now f_equal.
Qed.

Lemma matchTimeHere_colon (s : list ascii) (m : list ascii * list ascii * Period) :
  matchTimeHere s = Some m -> ":"%char ∈ s.
Proof.
  unfold matchTimeHere. pose proof (spanDigits_split s) as Hs.
  destruct (spanDigits s) as [ds r1]. simpl in Hs.
  destruct ds as [|d ds]; [done|]. destruct r1 as [|colon r2]; [done|].
  destruct (Ascii.eqb_spec colon ":"%char) as [->|]; [|done].
  intros _. rewrite Hs. apply elem_of_app. right. now left.
Qed.

Lemma matchTime_colon (s : list ascii) (m : list ascii * list ascii * Period) :
  matchTime s = Some m -> ":"%char ∈ s.
Proof.
  induction s as [|c s IH]; simpl.
  - destruct (matchTimeHere []) eqn:H; [|done]. intros _.
    now apply matchTimeHere_colon in H.
  - destruct (matchTimeHere (c :: s)) eqn:H.
    + intros _. now apply matchTimeHere_colon in H.
    + intros Hm. right. auto.
Qed.

(** X8. A string with no colon does not match the time pattern: it is read
    as 9 o'clock, the default, and therefore counts as within business
    hours. *)
Theorem text_without_colon_reads_as_nine (timeString : string) :
  ":"%char ∉ String.list_ascii_of_string timeString ->
  parseTimeToHour timeString = BUSINESS_HOUR_START /\
  isWithinBusinessHours timeString = true.
Proof.
  intros Hno.
  assert (Hp : parseTimeToHour timeString = BUSINESS_HOUR_START).
  { unfold parseTimeToHour.
    destruct (matchTime _) as [m|] eqn:Hm; [|done].
    exfalso. apply Hno. eapply matchTime_colon; eauto. }
  split; [done|]. unfold isWithinBusinessHours. now rewrite Hp.
Qed.

Lemma text_without_colon_reads_as_nine_witness :
  (":"%char ∉ String.list_ascii_of_string "in the evening") /\
  parseTimeToHour "in the evening" = BUSINESS_HOUR_START /\
  isWithinBusinessHours "in the evening" = true.
Proof.
  assert (H : ":"%char ∉ String.list_ascii_of_string "in the evening").
  { simpl. rewrite !elem_of_cons, elem_of_nil. intros Hc.
    repeat (destruct Hc as [Hc|Hc]; [discriminate Hc|]). done. }
  split; [exact H|]. apply (text_without_colon_reads_as_nine "in the evening" H).
Defined.

Lemma spanDigits_run (ds r : list ascii) :
  allDigits ds ->
  match r with c :: _ => isDigit c = false | [] => True end ->
  spanDigits (ds ++ r) = (ds, r).
Proof.
  intros Hds Hr. induction Hds as [|d ds Hd _ IH]; cbn [app spanDigits].
  - destruct r as [|c r]; [done|]. cbn [spanDigits]. now rewrite Hr.
  - now rewrite Hd, IH.
Qed.

Lemma dropSpaces_run (sp r : list ascii) :
  allSpaces sp ->
  match r with c :: _ => isSpace c = false | [] => True end ->
  dropSpaces (sp ++ r) = r.
Proof.
  intros Hsp Hr. induction Hsp as [|c sp Hc _ IH]; cbn [app dropSpaces].
  - destruct r as [|c r]; [done|]. cbn [dropSpaces]. now rewrite Hr.
  - now rewrite Hc.
Qed.

Lemma space_not_digit (c : ascii) : isSpace c = true -> isDigit c = false.
Proof.
  unfold isSpace, isDigit. set (n := nat_of_ascii c). intros H.
  apply orb_true_iff in H as [H|H].
  - apply andb_true_iff in H as [_ H]. apply Nat.leb_le in H.
    destruct (Nat.leb_spec 48 n); [lia|done].
  - apply Nat.eqb_eq in H. rewrite H. reflexivity.
Qed.

Lemma period_letter (a m : ascii) (rest : list ascii) (p : Period) :
  matchPeriod (a :: m :: rest) = Some p -> isDigit a = false /\ isSpace a = false.
Proof.
  unfold matchPeriod. destruct (isLetter "M" m); [|done].
  assert (Hl : forall u, (nat_of_ascii u = 65 \/ nat_of_ascii u = 80)%nat ->
                         isLetter u a = true -> isDigit a = false /\ isSpace a = false).
  { intros u Hu. unfold isLetter, isDigit, isSpace. set (n := nat_of_ascii a).
    intros H. apply orb_true_iff in H as [H|H]; apply Nat.eqb_eq in H;
      destruct Hu as [Hu|Hu]; rewrite Hu in H; rewrite H; split; reflexivity. }
  destruct (isLetter "A" a) eqn:HA; [intros _; apply (Hl "A"%char); auto|].
  destruct (isLetter "P" a) eqn:HP; [intros _; apply (Hl "P"%char); auto|done].
Qed.

(** A time written as digits, a colon, digits, any ASCII white space and
    AM or PM in either case, followed by anything, is matched at its
    start. *)
Lemma matchTime_clock (hourDigits minuteDigits spaces rest : list ascii)
    (a m : ascii) (p : Period) :
  hourDigits <> [] -> minuteDigits <> [] ->
  allDigits hourDigits -> allDigits minuteDigits -> allSpaces spaces ->
  matchPeriod (a :: m :: rest) = Some p ->
  matchTime (hourDigits ++ ":"%char :: minuteDigits ++ spaces ++ a :: m :: rest)
  = Some (hourDigits, minuteDigits, p).
Proof.
  intros Hh Hm Hhd Hmd Hsp Hp.
  destruct (period_letter a m rest p Hp) as [Hnd Hns].
  assert (Hhere : matchTimeHere
            (hourDigits ++ ":"%char :: minuteDigits ++ spaces ++ a :: m :: rest)
            = Some (hourDigits, minuteDigits, p)).
  { unfold matchTimeHere. rewrite spanDigits_run by (done || reflexivity).
    destruct hourDigits as [|h hs]; [done|].
    change (Ascii.eqb ":" ":") with true. cbn iota.
    rewrite spanDigits_run.
    - destruct minuteDigits as [|mi ms]; [done|].
      rewrite dropSpaces_run by done. now rewrite Hp.
    - done.
    - destruct Hsp as [|c sp Hc _]; simpl; [done|now apply space_not_digit]. }
  destruct hourDigits as [|h hs]; [done|].
  simpl app in *. simpl matchTime. now rewrite Hhere.
Qed.

Lemma parseTimeToHour_clock (hourDigits minuteDigits spaces rest : list ascii)
    (a m : ascii) (p : Period) :
  hourDigits <> [] -> minuteDigits <> [] ->
  allDigits hourDigits -> allDigits minuteDigits -> allSpaces spaces ->
  matchPeriod (a :: m :: rest) = Some p ->
  parseTimeToHour (clockText hourDigits minuteDigits spaces (a :: m :: rest)) =
  match p with
  | PM => if parseInt hourDigits =? 12 then 12 else parseInt hourDigits + 12
  | AM => if parseInt hourDigits =? 12 then 0 else parseInt hourDigits
  end.
Proof.
  intros Hh Hm Hhd Hmd Hsp Hp. unfold parseTimeToHour, clockText.
  rewrite String.list_ascii_of_string_of_list_ascii.
  rewrite (matchTime_clock _ _ _ _ _ _ p) by done.
  destruct p; destruct (Z.eqb_spec (parseInt hourDigits) 12) as [He|]; simpl;
    rewrite ?He; reflexivity.
Qed.



(** X10. The business-hours test looks at the hour only.  Whatever the
    minutes, a time from 5:00 PM to 5:59 PM (hour 17) counts as within
    business hours and one from 6 PM on does not; 9 AM counts and 8 AM does
    not; 12 PM counts and 12 AM does not. *)
Theorem business_hours_ignore_minutes (minuteDigits spaces : list ascii) :
  minuteDigits <> [] -> allDigits minuteDigits -> allSpaces spaces ->
  let at_ (hour period : string) :=
    isWithinBusinessHours
      (clockText (String.list_ascii_of_string hour) minuteDigits spaces
                 (String.list_ascii_of_string period)) in
  at_ "5" "PM" = true /\ at_ "6" "PM" = false /\
  at_ "9" "AM" = true /\ at_ "8" "AM" = false /\
  at_ "12" "PM" = true /\ at_ "12" "AM" = false.
Proof.
  intros Hm Hmd Hsp at_. subst at_. cbv beta. unfold isWithinBusinessHours.
  cbn [String.list_ascii_of_string].
  assert (Hread : forall hour a m p,
            hour <> [] -> allDigits hour -> matchPeriod [a; m] = Some p ->
            parseTimeToHour (clockText hour minuteDigits spaces [a; m]) =
            match p with
            | PM => if parseInt hour =? 12 then 12 else parseInt hour + 12
            | AM => if parseInt hour =? 12 then 0 else parseInt hour
            end).
  { intros hour a m p Hh Hhd Hp. now apply parseTimeToHour_clock. }
  repeat split;
    match goal with
    | |- context [clockText ?h _ _ [?a; ?m]] =>
        rewrite (Hread h a m _ ltac:(discriminate) ltac:(repeat constructor) eq_refl);
        reflexivity
    end.
Qed.

Lemma business_hours_ignore_minutes_witness :
  String.list_ascii_of_string "59" <> [] /\
  allDigits (String.list_ascii_of_string "59") /\
  allSpaces (String.list_ascii_of_string " ") /\
  let at_ (hour period : string) :=
    isWithinBusinessHours
      (clockText (String.list_ascii_of_string hour) (String.list_ascii_of_string "59")
                 (String.list_ascii_of_string " ")
                 (String.list_ascii_of_string period)) in
  at_ "5" "PM" = true /\ at_ "6" "PM" = false /\
  at_ "9" "AM" = true /\ at_ "8" "AM" = false /\
  at_ "12" "PM" = true /\ at_ "12" "AM" = false.
Proof.
  assert (Hm : String.list_ascii_of_string "59" <> []) by discriminate.
  assert (Hmd : allDigits (String.list_ascii_of_string "59")) by (repeat constructor).
  assert (Hsp : allSpaces (String.list_ascii_of_string " ")) by (repeat constructor).
  repeat (split; [assumption|]).
  exact (business_hours_ignore_minutes _ _ Hm Hmd Hsp).
Defined.

(** ** The business-hours adjustment and the new search of the window *)

(** X11. For a defined date adjustToBusinessHours always returns: a date
    that is not on a weekend, at most three days later, with a time within
    business hours.  A weekday date with a time within business hours is
    returned unchanged, and adjusting the result again changes nothing. *)
Theorem adjustment_lands_in_business_hours (d : Date) (timeString : string) :
  exists d' t',
    adjustToBusinessHours (Some d) timeString = Normal (d', t') /\
    isWeekend d' = false /\ isWithinBusinessHours t' = true /\
    day d <= day d' <= day d + 3 /\
    (isWeekend d = false -> isWithinBusinessHours timeString = true ->
     d' = d /\ t' = timeString) /\
    (isWeekend d = true \/ isWithinBusinessHours timeString = false ->
     day d < day d' /\ t' = "9:00 AM"%string /\
     msOfDay d' = BUSINESS_HOUR_START * MS_PER_HOUR) /\
    adjustToBusinessHours (Some d') t' = Normal (d', t').
Proof.
  destruct (getNextBusinessDay_total d) as (next & Hnext & Hwe & Hms & Hday & _).
  assert (Hnine : isWithinBusinessHours "9:00 AM" = true) by (vm_compute; reflexivity).
  unfold adjustToBusinessHours at 1.
  destruct (isWeekend d) eqn:Hd; [|destruct (isWithinBusinessHours timeString) eqn:Ht].
  - rewrite Hnext. exists next, "9:00 AM"%string.
    split; [reflexivity|]. split; [done|]. split; [done|]. split; [lia|].
    split; [done|]. split; [intros _; repeat split; (done || lia)|].
    unfold adjustToBusinessHours. now rewrite Hwe, Hnine.
  - exists d, timeString.
    split; [reflexivity|]. split; [done|]. split; [done|]. split; [lia|].
    split; [done|]. split; [intros [?|?]; done|].
    unfold adjustToBusinessHours. now rewrite Hd, Ht.
  - rewrite Hnext. exists next, "9:00 AM"%string.
    split; [reflexivity|]. split; [done|]. split; [done|]. split; [lia|].
    split; [done|]. split; [intros _; repeat split; (done || lia)|].
    unfold adjustToBusinessHours. now rewrite Hwe, Hnine.
Qed.

(** X12. The new search of the window after an adjustment: when the
    window holds a weekday on the adjusted day the message goes to a
    window entry of that very day; otherwise to a weekday entry that is not
    before the adjusted day; and when the window holds no such weekday the
    date is left as it was. *)
Theorem window_search_after_adjustment (availableDates : list Date)
    (adjustedDate : Date) (current : option Date) :
  ((exists a, a ∈ availableDates /\ isWeekend a = false /\ day a = day adjustedDate) ->
   exists r, relocate availableDates adjustedDate current = Some r /\
             r ∈ availableDates /\ isWeekend r = false /\ day r = day adjustedDate) /\
  ((exists a, a ∈ availableDates /\ isWeekend a = false /\ day adjustedDate <= day a) ->
   exists r, relocate availableDates adjustedDate current = Some r /\
             r ∈ availableDates /\ isWeekend r = false /\ day adjustedDate <= day r) /\
  ((forall a, a ∈ availableDates -> isWeekend a = false -> day a < day adjustedDate) ->
   relocate availableDates adjustedDate current = current).
Proof.
  split; [|split].
  - intros (a & Hin & Hwe & Hday). unfold relocate.
    destruct (List.find _ availableDates) as [r|] eqn:Hexact.
    + apply find_some in Hexact as [Hr Hp].
      apply andb_true_iff in Hp as [Heq Hwr]. apply Z.eqb_eq in Heq.
      rewrite !getTime_normalizeDate in Heq. unfold MS_PER_DAY in Heq.
      exists r. rewrite list_elem_of_In. destruct (isWeekend r); [done|].
      repeat split; try done. lia.
    + apply list_elem_of_In in Hin.
      pose proof (find_none _ _ Hexact a Hin) as Hno. simpl in Hno.
      rewrite Hwe, andb_true_r, !getTime_normalizeDate, Hday, Z.eqb_refl in Hno. done.
  - intros (a & Hin & Hwe & Hday).
    destruct (relocate_spec availableDates adjustedDate current)
      as [(r & Hr & Hrin & Hrwe & Hrday)|[_ Hnone]]; [eauto|].
    specialize (Hnone a Hin Hwe). lia.
  - intros Hnone.
    destruct (relocate_spec availableDates adjustedDate current)
      as [(r & Hr & Hrin & Hrwe & Hrday)|[Hsame _]]; [|done].
    specialize (Hnone r Hrin Hrwe). lia.
Qed.

Lemma window_search_after_adjustment_witness :
  let window := [mkDate 19726 0; mkDate 19727 0; mkDate 19728 0; mkDate 19730 0] in
  (exists a, a ∈ window /\ isWeekend a = false /\ day (mkDate 19729 0) <= day a) /\
  exists r, relocate window (mkDate 19729 0) None = Some r /\
            r ∈ window /\ isWeekend r = false /\ day (mkDate 19729 0) <= day r.
Proof.
  intros window.
  assert (H : exists a, a ∈ window /\ isWeekend a = false /\ day (mkDate 19729 0) <= day a).
  { exists (mkDate 19730 0). split; [|split; [reflexivity|simpl; lia]].
    unfold window. rewrite !elem_of_cons. tauto. }
  split; [exact H|].
  exact (proj1 (proj2 (window_search_after_adjustment window (mkDate 19729 0) None)) H).
Defined.

(** ** The size of the window *)

(** X13. The window returned by generateDates has four entries when the
    current date is a Wednesday, Thursday or Friday, five on a Saturday and
    six on a Sunday, Monday or Tuesday; the loop's limit of 14 days is
    never reached. *)
Theorem window_length_by_weekday (now : Date) :
  exists window,
    generateDates now = Normal window /\
    length window =
    match getDay now with
    | 3 | 4 | 5 => 4%nat
    | 6 => 5%nat
    | _ => 6%nat
    end /\
    (length window <= 6)%nat.
Proof.
  unfold generateDates. set (today := setHours now 0).
  assert (Hday : getDay now = (day today mod 7 + 4) mod 7).
  { unfold getDay, today, setHours. cbn [day]. now rewrite Zplus_mod_idemp_l. }
  rewrite countDaysBack_mod7, Hday.
  destruct (mod7_cases (day today)) as [E|[E|[E|[E|[E|[E|E]]]]]]; rewrite E;
    vm_compute countDaysBack; cbn -[datesBackFrom];
    eexists; (split; [reflexivity|]);
    rewrite ?datesBackFrom_3, ?datesBackFrom_4, ?datesBackFrom_5;
    split; vm_compute; (reflexivity || lia).
Qed.

(** ** Senders by parity *)

(** X14. In both scenarios the sender of a position is you when the
    position is even and support when it is odd: the scripts agree with
    the fallback everywhere. *)
Theorem sender_follows_parity (conversationType : ConversationType) (index : nat) :
  getSenderForMessage conversationType index = if Nat.even index then you else support.
Proof.
  unfold getSenderForMessage.
  destruct (Nat.ltb_spec index (length (conversationScript conversationType))) as [Hlt|Hge].
  - destruct conversationType; simpl in Hlt;
      do 8 (destruct index as [|index]; [reflexivity|]); lia.
  - now rewrite mod2_even.
Qed.

(** ** An empty window *)

(** X15. With an empty window generateTimestamps still returns one message
    per input message and throws nothing: every date is left undefined and
    every message still gets a timestamp from its candidate list. *)
Theorem empty_window_leaves_dates_undefined (messages : list AssignedMessage) :
  exists out,
    generateTimestamps messages [] = Normal out /\
    length out = length messages /\
    Forall (fun m => date m = None /\
                     exists t, timestamp m = Some t /\ t ∈ candidateTimes (sender m)) out.
Proof.
  destruct (generateTimestamps_placed messages []) as (out & Hrun & Hlen & Hall).
  exists out. split; [done|]. split; [done|].
  apply Forall_forall. intros m Hm. apply list_elem_of_lookup in Hm as [k Hk].
  assert (Hlt : (k < length messages)%nat) by (rewrite <- Hlen; eapply lookup_lt_Some; eauto).
  destruct (lookup_lt_is_Some_2 messages k Hlt) as [msg Hmsg].
  destruct (Hall k msg Hmsg) as (m' & Hm' & Hs & _ & Hdate & _ & Ht).
  rewrite Hk in Hm'. injection Hm' as <-. split.
  - rewrite Hdate. unfold lookupZ. now destruct (_ <? 0).
  - now rewrite Hs.
Qed.

(** ** The timeline in closed form *)

Lemma firstPass_lookup (clock : nat -> Date) (rawMessages : list string)
    (conversationType : ConversationType) (i : nat) (msg : AssignedMessage) :
  firstPass clock rawMessages conversationType !! i = Some msg ->
  sender msg = if Nat.even i then you else support.
Proof.
  unfold firstPass. rewrite list_lookup_imap.
  destruct (rawMessages !! i) as [t|]; [|done]. simpl. intros [= <-]. simpl.
  destruct conversationType; unfold getSenderForMessage.
  - destruct (Nat.ltb_spec i (length (conversationScript bad))) as [Hlt|Hge].
    + simpl in Hlt. do 8 (destruct i as [|i]; [reflexivity|]). lia.
    + now rewrite mod2_even.
  - destruct (Nat.ltb_spec i (length (conversationScript good))) as [Hlt|Hge].
    + simpl in Hlt. do 2 (destruct i as [|i]; [reflexivity|]). lia.
    + now rewrite mod2_even.
Qed.

Lemma firstPass_length (clock : nat -> Date) (rawMessages : list string)
    (conversationType : ConversationType) :
  length (firstPass clock rawMessages conversationType) = length rawMessages.
Proof. unfold firstPass. apply length_imap. Qed.

(** With alternating senders the break starts are the even positions. *)
Lemma firstPass_break_starts (clock : nat -> Date) (rawMessages : list string)
    (conversationType : ConversationType) (k : nat) :
  (S k < length rawMessages)%nat ->
  S k ∈ computeDateBreaks (firstPass clock rawMessages conversationType) <->
  Nat.even (S k) = true.
Proof.
  intros Hk. set (messages := firstPass clock rawMessages conversationType).
  assert (Hlen : length messages = length rawMessages) by apply firstPass_length.
  split; [|apply even_position_is_break; lia].
  unfold computeDateBreaks. rewrite elem_of_cons, list_elem_of_filter.
  intros [?|[Hb _]]; [lia|]. unfold startsDateBreak in Hb.
  destruct (messages !! S k) as [cur|] eqn:Hcur; [|done].
  destruct (messages !! (S k - 1)%nat) as [prev|]; [|done].
  rewrite mod2_even in Hb. rewrite (firstPass_lookup _ _ _ _ _ Hcur) in Hb.
  destruct (Nat.even (S k)); [done|]. simpl in Hb. now rewrite andb_false_r in Hb.
Qed.

Lemma half_step (k : nat) :
  (S k / 2 = k / 2 + if Nat.even (S k) then 1 else 0)%nat.
Proof.
  destruct (Nat.even (S k)) eqn:He.
  - apply Nat.even_spec in He as [m Hm].
    assert (k = 1 + (m - 1) * 2)%nat as -> by lia.
    replace (S (1 + (m - 1) * 2)) with (m * 2)%nat by lia.
    rewrite Nat.div_mul by lia. rewrite Nat.div_add by lia. simpl. lia.
  - assert (Ho : Nat.odd (S k) = true) by (unfold Nat.odd; now rewrite He).
    apply Nat.odd_spec in Ho as [m Hm].
    assert (k = m * 2)%nat as -> by lia.
    replace (S (m * 2)) with (1 + m * 2)%nat by lia.
    rewrite Nat.div_mul by lia. rewrite Nat.div_add by lia. simpl. lia.
Qed.

Lemma break_number_zero (messages : list AssignedMessage) :
  findDateBreakIndex (computeDateBreaks messages) 0 = 0%nat.
Proof.
  apply (findDateBreakIndex_char _ 0 0 0); [reflexivity|lia|].
  intros k s Hk Hlt.
  exact (sorted_lookup_lt _ 0 k 0 s (computeDateBreaks_sorted messages) eq_refl Hk Hlt).
Qed.

Lemma firstPass_break_number (clock : nat -> Date) (rawMessages : list string)
    (conversationType : ConversationType) (i : nat) :
  (i < length rawMessages)%nat ->
  findDateBreakIndex (computeDateBreaks (firstPass clock rawMessages conversationType)) i
  = (i / 2)%nat.
Proof.
  induction i as [|k IH]; intros Hi; [apply break_number_zero|].
  rewrite break_number_step by (rewrite firstPass_length; lia).
  rewrite IH by lia. rewrite half_step.
  destruct (Nat.even (S k)) eqn:He.
  - rewrite bool_decide_eq_true_2; [done|]. now apply firstPass_break_starts.
  - rewrite bool_decide_eq_false_2; [done|].
    rewrite firstPass_break_starts by done. congruence.
Qed.

(** X16. The pipeline in closed form.  The message at position [i] is
    from you when [i] is even and from support when it is odd, and its
    break number is [i / 2].  A message from you is dated as many days
    before the current date as there are breaks after its own, but never
    before the first day of the window. *)
Theorem timeline_closed_form (now : Date) (clock : nat -> Date)
    (rawMessages : list string) (conversationType : ConversationType) :
  exists out window,
    generateDates now = Normal window /\
    chatTimeline now clock rawMessages conversationType = Normal out /\
    length out = length rawMessages /\
    forall i m, out !! i = Some m ->
      sender m = (if Nat.even i then you else support) /\
      dateBreakIndex m = Z.of_nat (i / 2) /\
      (Nat.even i = true ->
       exists d, date m = Some d /\ msOfDay d = 0 /\
         day d = day now -
                 Z.min (Z.of_nat (length window) - 1)
                       (Z.of_nat ((length rawMessages - 1) / 2 - i / 2))).
Proof.
  destruct (generateDates_shape now) as (k & Hgen & Hk & _).
  set (today := setHours now 0) in *. set (window := datesBackFrom today k) in *.
  pose proof (firstPass_break_number clock rawMessages conversationType) as Hnumber.
  pose proof (firstPass_lookup clock rawMessages conversationType) as Hparity.
  pose proof (firstPass_length clock rawMessages conversationType) as Hmlen.
  assert (Htotal : (0 < length rawMessages)%nat ->
            S ((length rawMessages - 1) / 2) =
            length (computeDateBreaks (firstPass clock rawMessages conversationType))).
  { intros Hpos. rewrite <- last_position_in_last_break.
    - rewrite Hmlen, Hnumber by lia. done.
    - intros Hnil. rewrite Hnil in Hmlen. simpl in Hmlen. lia. }
  remember (firstPass clock rawMessages conversationType) as messages eqn:Hmdef.
  destruct (generateTimestamps_placed messages window) as (out & Hrun & Hlen & Hall).
  assert (Hwlen : Z.of_nat (length window) = k + 1) by now apply datesBackFrom_length.
  assert (Hne : window <> []) by (intros Hnil; rewrite Hnil in Hwlen; simpl in Hwlen; lia).
  exists out, window. split; [done|].
  split; [unfold chatTimeline, assignMessagesToUsers; rewrite Hgen, <- Hmdef; exact Hrun|].
  split; [lia|].
  intros i m Hm.
  assert (Hlt : (i < length messages)%nat) by (rewrite <- Hlen; eapply lookup_lt_Some; eauto).
  destruct (lookup_lt_is_Some_2 messages i Hlt) as [msg Hmsg].
  destruct (Hall i msg Hmsg) as (m' & Hm' & Hsm & _ & Hdate & Hb & _).
  rewrite Hm in Hm'. injection Hm' as <-.
  specialize (Hparity i msg Hmsg).
  rewrite Hnumber in Hb by lia.
  split; [congruence|]. split; [done|]. intros He.
  rewrite Hparity, He in Hdate. unfold windowIndexOf in Hdate. cbn [isSupport] in Hdate.
  rewrite Hnumber in Hdate by lia.
  assert (Hhalf : (i / 2 <= (length rawMessages - 1) / 2)%nat).
  { apply Nat.Div0.div_le_mono. lia. }
  destruct (lookupZ_Some window _ (mapDateBreak_range (length (computeDateBreaks messages))
              (i / 2) window Hne)) as (d & Hd & _).
  exists d. split; [now rewrite Hdate|].
  destruct (datesBackFrom_lookupZ _ _ _ _ Hk Hd) as [-> _].
  unfold addDays, today, setHours. cbn [day msOfDay]. split; [lia|].
  unfold mapDateBreak. rewrite <- Htotal by lia. rewrite Hwlen.
  destruct (Z.ltb_spec 0 (Z.of_nat (S ((length rawMessages - 1) / 2)))); lia.
Qed.

(** ** Short conversations keep the order of time within a date *)

Section Exact.
  Variable availableDates : list Date.
  Variable dateBreaks : list nat.

(** The iteration in full, for a table of non-negative indices. *)
Lemma processMessage_exact (lastTimes : gmap string Z) (index : nat)
    (msg : AssignedMessage) :
  nonNegativeIndices lastTimes ->
  let msgDate :=
    lookupZ availableDates
      (windowIndexOf availableDates dateBreaks index (sender msg)) in
  let times := candidateTimes (sender msg) in
  let timeIndex :=
    chooseTimeIndex (lastTimes !! dateKeyOf msgDate)
                    (findDateBreakIndex dateBreaks index) times in
  processMessage availableDates dateBreaks lastTimes index msg =
  Normal (mkIteration
            (mkMessage (text msg) (sender msg) msgDate (lookupZ times timeIndex)
                       (Z.of_nat (findDateBreakIndex dateBreaks index)))
            (<[dateKeyOf msgDate := timeIndex]> lastTimes)
            (lookupZ times timeIndex) false) /\
  0 <= timeIndex.
Proof.
  intros Hmap msgDate times timeIndex.
  assert (Hti : 0 <= timeIndex < Z.of_nat (length times)).
  { apply chooseTimeIndex_range.
    - unfold times, candidateTimes. now destruct (isSupport (sender msg)).
    - intros last Hl. exact (Hmap _ _ Hl). }
  split; [|lia]. unfold processMessage.
  subst msgDate times timeIndex. unfold windowIndexOf, candidateTimes in *.
  destruct (sender msg) eqn:Hs; cbn [isSupport] in *; [reflexivity|].
  destruct (lookupZ_Some businessHoursTimes _ Hti) as (t & Ht & Hin).
  rewrite Ht, <- Ht, (businessHoursTimes_within t Hin). reflexivity.
Qed.

End Exact.

Lemma isWeekend_shift (c : Z) (d : Date) :
  c mod 7 = 0 -> isWeekend (addDays d c) = isWeekend d.
Proof.
  intros Hc. unfold isWeekend, getDay, addDays. cbn [day].
  replace (day d + c + 4) with (day d + 4 + c) by lia.
  rewrite <- Zplus_mod_idemp_r, Hc, Z.add_0_r. reflexivity.
Qed.

Lemma isWeekday_shift7 (c : Z) (d : Date) :
  c mod 7 = 0 -> isWeekday (addDays d c) = isWeekday d.
Proof. intros Hc. now rewrite !isWeekday_not_weekend, isWeekend_shift. Qed.

Lemma lookupZ_fmap {A B} (f : A -> B) (l : list A) (i : Z) :
  lookupZ (f <$> l) i = f <$> lookupZ l i.
Proof. unfold lookupZ. destruct (i <? 0); [done|]. apply list_lookup_fmap. Qed.

Lemma findFirstIndex_fmap {A} (p : A -> bool) (f : A -> A) (l : list A) (i : nat) :
  (forall x, p (f x) = p x) ->
  findFirstIndex p (f <$> l) i = findFirstIndex p l i.
Proof.
  intros Hp. revert i. induction l as [|x l IH]; intros i; [done|].
  rewrite fmap_cons. cbn [findFirstIndex]. now rewrite Hp, IH.
Qed.

Lemma findLastIndex_fmap {A} (p : A -> bool) (f : A -> A) (l : list A) (i : nat) :
  (forall x, p (f x) = p x) ->
  findLastIndex p (f <$> l) i = findLastIndex p l i.
Proof.
  intros Hp. revert i. induction l as [|x l IH]; intros i; [done|].
  rewrite fmap_cons. cbn [findLastIndex]. now rewrite Hp, IH.
Qed.

Lemma avoidWeekend_shift (c : Z) (availableDates : list Date) (i : Z) :
  c mod 7 = 0 ->
  avoidWeekend ((fun d => addDays d c) <$> availableDates) i
  = avoidWeekend availableDates i.
Proof.
  intros Hc. unfold avoidWeekend. rewrite lookupZ_fmap.
  destruct (lookupZ availableDates i) as [d|]; [|done]. cbn [fmap option_fmap option_map].
  rewrite isWeekend_shift by done. destruct (isWeekend d); [|done].
  rewrite <- fmap_drop, <- fmap_take.
  rewrite findFirstIndex_fmap by (intros x; now apply isWeekday_shift7).
  rewrite findLastIndex_fmap by (intros x; now apply isWeekday_shift7).
  reflexivity.
Qed.

Lemma windowIndexOf_shift (c : Z) (availableDates : list Date) (dateBreaks : list nat)
    (index : nat) (s : Sender) :
  c mod 7 = 0 ->
  windowIndexOf ((fun d => addDays d c) <$> availableDates) dateBreaks index s
  = windowIndexOf availableDates dateBreaks index s.
Proof.
  intros Hc. unfold windowIndexOf, mapDateBreak. rewrite length_fmap.
  destruct (isSupport s); [|done]. now apply avoidWeekend_shift.
Qed.

Lemma dateKeyOf_inj (a b : Date) :
  dateKeyOf (Some a) = dateKeyOf (Some b) <-> day a = day b.
Proof.
  unfold dateKeyOf. rewrite !getTime_normalizeDate. split.
  - intros H. apply (inj pretty) in H. unfold MS_PER_DAY in H. lia.
  - now intros ->.
Qed.

Lemma windowIndexOf_range (availableDates : list Date) (dateBreaks : list nat)
    (index : nat) (s : Sender) :
  availableDates <> [] ->
  0 <= windowIndexOf availableDates dateBreaks index s
    < Z.of_nat (length availableDates).
Proof.
  intros Hne. unfold windowIndexOf. destruct (isSupport s).
  - apply avoidWeekend_range, mapDateBreak_range, Hne.
  - apply mapDateBreak_range, Hne.
Qed.

Section Shift.
  Variable c : Z.
  Hypothesis c_weeks : c mod 7 = 0.
  Variable availableDates : list Date.
  Hypothesis window_not_empty : availableDates <> [].
  Variable dateBreaks : list nat.

Lemma processMessage_shift (lastTimes lastTimes' : gmap string Z) (index : nat)
    (msg : AssignedMessage) :
  nonNegativeIndices lastTimes -> nonNegativeIndices lastTimes' ->
  shiftedTimes c lastTimes lastTimes' ->
  exists it it',
    processMessage availableDates dateBreaks lastTimes index msg = Normal it /\
    processMessage ((fun d => addDays d c) <$> availableDates) dateBreaks
                   lastTimes' index msg = Normal it' /\
    message it' = shiftMessage c (message it) /\
    nonNegativeIndices (lastTimeIndexByDate it) /\
    nonNegativeIndices (lastTimeIndexByDate it') /\
    shiftedTimes c (lastTimeIndexByDate it) (lastTimeIndexByDate it').
Proof.
  intros Hmap Hmap' Hrel.
  destruct (processMessage_exact availableDates dateBreaks lastTimes index msg Hmap)
    as [Hrun Hti].
  destruct (processMessage_exact ((fun d => addDays d c) <$> availableDates)
              dateBreaks lastTimes' index msg Hmap') as [Hrun' Hti'].
  cbv zeta in *.
  rewrite windowIndexOf_shift, lookupZ_fmap in Hrun', Hti' by done.
  destruct (lookupZ_Some availableDates _
              (windowIndexOf_range availableDates dateBreaks index (sender msg)
                 window_not_empty)) as (d & Hd & _).
  rewrite Hd in *. cbn [fmap option_fmap option_map] in Hrun', Hti'.
  rewrite Hrel in Hrun', Hti'.
  eexists _, _. split; [exact Hrun|]. split; [exact Hrun'|].
  cbn [message lastTimeIndexByDate]. split; [reflexivity|].
  split; [apply map_Forall_insert_2; [lia|done]|].
  split; [apply map_Forall_insert_2; [lia|done]|].
  intros d1. destruct (decide (day d = day d1)) as [Heq|Hne].
  - assert (H1 : dateKeyOf (Some (addDays d1 c)) = dateKeyOf (Some (addDays d c))).
    { apply dateKeyOf_inj. cbn [addDays day]. lia. }
    assert (H2 : dateKeyOf (Some d1) = dateKeyOf (Some d)) by now apply dateKeyOf_inj.
    now rewrite H1, H2, !lookup_insert_eq.
  - rewrite !lookup_insert_ne; [apply Hrel| |].
    + intros H. apply dateKeyOf_inj in H. done.
    + intros H. apply dateKeyOf_inj in H. cbn [addDays day] in H. lia.
Qed.

Lemma forEachMessage_shift (messages : list AssignedMessage) :
  forall (lastTimes lastTimes' : gmap string Z) (index : nat),
    nonNegativeIndices lastTimes -> nonNegativeIndices lastTimes' ->
    shiftedTimes c lastTimes lastTimes' ->
    exists its its',
      forEachMessage availableDates dateBreaks lastTimes index messages = Normal its /\
      forEachMessage ((fun d => addDays d c) <$> availableDates) dateBreaks
                     lastTimes' index messages = Normal its' /\
      message <$> its' = shiftMessage c <$> (message <$> its).
Proof.
  induction messages as [|msg rest IH]; intros lastTimes lastTimes' index Hmap Hmap' Hrel.
  - exists [], []. done.
  - destruct (processMessage_shift lastTimes lastTimes' index msg Hmap Hmap' Hrel)
      as (it & it' & Hit & Hit' & Hmsg & Hm1 & Hm2 & Hrel').
    destruct (IH _ _ (S index) Hm1 Hm2 Hrel') as (its & its' & Hits & Hits' & Hall).
    exists (it :: its), (it' :: its'). cbn [forEachMessage].
    rewrite Hit, Hit'. cbn. rewrite Hits, Hits'. cbn.
    split; [done|]. split; [done|].
    change (message it' :: (message <$> its') =
            shiftMessage c (message it) :: (shiftMessage c <$> (message <$> its))).
    now rewrite Hmsg, Hall.
Qed.

End Shift.

(** Moving the window by whole weeks moves every returned date by the same
    number of days and changes nothing else. *)
Lemma generateTimestamps_shift (c : Z) (messages : list AssignedMessage)
    (availableDates : list Date) :
  c mod 7 = 0 -> availableDates <> [] ->
  exists out,
    generateTimestamps messages availableDates = Normal out /\
    generateTimestamps messages ((fun d => addDays d c) <$> availableDates)
    = Normal (shiftMessage c <$> out).
Proof.
  intros Hc Hne.
  destruct (forEachMessage_shift c Hc availableDates Hne (computeDateBreaks messages)
              messages ∅ ∅ 0%nat (map_Forall_empty _) (map_Forall_empty _))
    as (its & its' & Hits & Hits' & Hall).
  { intros d. now rewrite !lookup_empty. }
  exists (message <$> its). unfold generateTimestamps, traceTimestamps.
  rewrite Hits, Hits'. cbn. split; [done|]. now rewrite Hall.
Qed.

Lemma chronologicalCheck_sound (out : list AssignedMessage) :
  chronologicalCheck out = true -> chronologicalWithinDates out.
Proof.
  induction out as [|m rest IH]; intros Hcheck i j mi mj ti tj Hij Hi Hj Hd Hti Htj.
  - done.
  - cbn [chronologicalCheck] in Hcheck. apply andb_true_iff in Hcheck as [Hm Hrest].
    destruct i as [|i], j as [|j]; simpl in Hi, Hj.
    + injection Hi as <-. injection Hj as <-. rewrite Hti in Htj. injection Htj as <-. lia.
    + injection Hi as <-. rewrite forallb_forall in Hm.
      assert (Hin : In mj rest).
      { apply list_elem_of_In. eapply list_elem_of_lookup_2; eauto. }
      specialize (Hm mj Hin). unfold inOrder in Hm. rewrite Hti, Htj in Hm.
      destruct (decide (_ = _)); [|done]. now apply Z.leb_le.
    + lia.
    + apply (IH Hrest i j mi mj ti tj); (done || lia).
Qed.

Lemma chronological_shift (c : Z) (out : list AssignedMessage) :
  chronologicalWithinDates out -> chronologicalWithinDates (shiftMessage c <$> out).
Proof.
  intros H i j mi mj ti tj Hij Hi Hj Hd Hti Htj.
  rewrite list_lookup_fmap in Hi, Hj.
  destruct (out !! i) as [a|] eqn:Ha; [|done].
  destruct (out !! j) as [b|] eqn:Hb; [|done].
  injection Hi as <-. injection Hj as <-. cbn in Hd, Hti, Htj.
  apply (H i j a b ti tj); try done.
  destruct (date a) as [[da ma]|], (date b) as [[db mb]|]; try done.
  cbn in Hd. injection Hd as Hday Hms. f_equal. f_equal; lia.
Qed.

(** The window of any date is the window of its representative in the week
    of the epoch, moved by whole weeks. *)
Lemma generateDates_representative (now : Date) :
  generateDates now =
  fmap (M := completion)
       (fmap (fun d => addDays d (day now - day now mod 7)))
       (generateDates (mkDate (day now mod 7) 0)).
Proof.
  unfold generateDates.
  rewrite (countDaysBack_mod7 15 (setHours now 0)).
  rewrite (countDaysBack_mod7 15 (setHours (mkDate (day now mod 7) 0) 0)).
  cbn [setHours day]. rewrite Z.mod_mod by lia.
  destruct (countDaysBack _ _ _ _) as [[daysBack weekdayCount]| |]; [|done|done].
  cbn. f_equal. unfold datesBackFrom. rewrite <- list_fmap_compose.
  apply list_fmap_ext. intros _ i _. unfold addDays. cbn. f_equal. lia.
Qed.

Lemma short_timelines_checked (r : Z) (clock : nat -> Date)
    (rawMessages : list string) (conversationType : ConversationType) :
  r = 0 \/ r = 1 \/ r = 2 \/ r = 3 \/ r = 4 \/ r = 5 \/ r = 6 ->
  (length rawMessages <= 9)%nat ->
  exists out,
    chatTimeline (mkDate r 0) clock rawMessages conversationType = Normal out /\
    chronologicalCheck out = true.
Proof.
  intros Hr Hlen.
  do 10 (destruct rawMessages as [|? rawMessages];
         [destruct conversationType;
          destruct Hr as [->|[->|[->|[->|[->|[->| ->]]]]]];
          (eexists; split; [vm_compute; reflexivity|vm_compute; reflexivity])|]).
  simpl in Hlen. lia.
Qed.

(** X17. With at most nine messages, in either scenario and on any current
    date, the pipeline returns a list in which the messages that share a
    date carry times of day that never go back. *)
Theorem short_conversations_keep_time_order (now : Date) (clock : nat -> Date)
    (rawMessages : list string) (conversationType : ConversationType) :
  (length rawMessages <= 9)%nat ->
  exists out,
    chatTimeline now clock rawMessages conversationType = Normal out /\
    chronologicalWithinDates out.
Proof.
  intros Hlen.
  set (c := day now - day now mod 7).
  assert (Hc : c mod 7 = 0).
  { unfold c. rewrite Zminus_mod_idemp_r, Z.sub_diag. reflexivity. }
  destruct (short_timelines_checked (day now mod 7) clock rawMessages conversationType
              (mod7_cases (day now)) Hlen) as (out0 & Hrun0 & Hcheck).
  unfold chatTimeline in *. rewrite generateDates_representative. fold c.
  destruct (generateDates_shape (mkDate (day now mod 7) 0)) as (k & Hgen & Hk & _).
  rewrite Hgen in *. cbn in Hrun0 |- *.
  set (window0 := datesBackFrom (setHours (mkDate (day now mod 7) 0) 0) k) in *.
  assert (Hne : window0 <> []).
  { intros Hnil. pose proof (datesBackFrom_length
      (setHours (mkDate (day now mod 7) 0) 0) k Hk) as Hl.
    fold window0 in Hl. rewrite Hnil in Hl. simpl in Hl. lia. }
  unfold assignMessagesToUsers in *.
  destruct (generateTimestamps_shift c
              (firstPass clock rawMessages conversationType) window0 Hc Hne)
    as (out & Hout & Hshift).
  rewrite Hrun0 in Hout. injection Hout as <-.
  exists (shiftMessage c <$> out0). split; [exact Hshift|].
  apply chronological_shift, chronologicalCheck_sound, Hcheck.
Qed.

Lemma short_conversations_keep_time_order_witness :
  (length (take 8 tenMessages) <= 9)%nat /\
  exists out,
    chatTimeline wednesdayNoon (fun _ => wednesdayNoon) (take 8 tenMessages) bad
      = Normal out /\
    chronologicalWithinDates out.
Proof.
  split; [simpl; lia|].
  apply (short_conversations_keep_time_order wednesdayNoon (fun _ => wednesdayNoon)
           (take 8 tenMessages) bad).
  simpl; lia.
Defined.

(** ** Replies and the date of their question *)

(** X18. In the list the pipeline returns, the support message at an odd
    position carries the date of the message from you just before it
    whenever that date is not on a weekend. *)
Theorem reply_shares_weekday_date (now : Date) (clock : nat -> Date)
    (rawMessages : list string) (conversationType : ConversationType) :
  exists out,
    chatTimeline now clock rawMessages conversationType = Normal out /\
    forall i a b d,
      Nat.even i = true -> out !! i = Some a -> out !! S i = Some b ->
      date a = Some d -> isWeekend d = false ->
      sender a = you /\ sender b = support /\ date b = Some d.
Proof.
  destruct (generateDates_shape now) as (k & Hgen & Hk & _).
  set (window := datesBackFrom (setHours now 0) k) in *.
  pose proof (firstPass_break_number clock rawMessages conversationType) as Hnumber.
  pose proof (firstPass_lookup clock rawMessages conversationType) as Hparity.
  pose proof (firstPass_length clock rawMessages conversationType) as Hmlen.
  remember (firstPass clock rawMessages conversationType) as messages eqn:Hmdef.
  destruct (generateTimestamps_placed messages window) as (out & Hrun & Hlen & Hall).
  exists out.
  split; [unfold chatTimeline, assignMessagesToUsers; rewrite Hgen, <- Hmdef; exact Hrun|].
  intros i a b d He Ha Hb Hd Hwe.
  assert (Hlt : (S i < length messages)%nat) by (rewrite <- Hlen; eapply lookup_lt_Some; eauto).
  destruct (lookup_lt_is_Some_2 messages i ltac:(lia)) as [ma Hma].
  destruct (lookup_lt_is_Some_2 messages (S i) Hlt) as [mb Hmb].
  destruct (Hall i ma Hma) as (a' & Ha' & Hsa & _ & Hda & _).
  destruct (Hall (S i) mb Hmb) as (b' & Hb' & Hsb & _ & Hdb & _).
  rewrite Ha in Ha'. injection Ha' as <-. rewrite Hb in Hb'. injection Hb' as <-.
  pose proof (Hparity i ma Hma) as Hpa. pose proof (Hparity (S i) mb Hmb) as Hpb.
  rewrite He in Hpa. rewrite Nat.even_succ, <- Nat.negb_even, He in Hpb. cbn in Hpb.
  split; [congruence|]. split; [congruence|].
  rewrite Hpa in Hda. rewrite Hpb in Hdb. unfold windowIndexOf in Hda, Hdb.
  cbn [isSupport] in Hda, Hdb.
  rewrite Hnumber in Hda by lia. rewrite Hnumber in Hdb by lia.
  assert (Hhalf : (S i / 2 = i / 2)%nat).
  { rewrite half_step. rewrite Nat.even_succ, <- Nat.negb_even, He. cbn. lia. }
  rewrite Hhalf in Hdb. rewrite Hd in Hda. symmetry in Hda.
  rewrite Hdb. unfold avoidWeekend. rewrite Hda, Hwe. exact Hda.
Qed.

(** * The blackjack gate *)

Lemma fold_addCard (cs : list Z) (t : Z) (a : nat) :
  fold_left addCard cs (t, a) =
  (t + hardTotal cs + 10 * Z.of_nat (countAces cs), (a + countAces cs)%nat).
Proof.
  revert t a. induction cs as [|card cs IH]; intros t a.
  - unfold hardTotal, countAces. cbn [fold_left foldr List.filter length].
    f_equal; lia.
  - cbn [fold_left]. unfold addCard at 2.
    assert (Hh : hardTotal (card :: cs) = hardValue card + hardTotal cs) by reflexivity.
    assert (Ha : countAces (card :: cs) =
                 ((if (card =? 1)%Z then 1 else 0) + countAces cs)%nat).
    { unfold countAces. cbn [List.filter]. now destruct (card =? 1). }
    rewrite Hh, Ha. unfold hardValue.
    destruct (card =? 1); [|destruct (card >=? 11)]; rewrite IH; f_equal; lia.
Qed.

Lemma adjustForAces_spec (aces : nat) (t : Z) :
  exists j : nat,
    (j <= aces)%nat /\ adjustForAces aces t = t - 10 * Z.of_nat j /\
    (21 < adjustForAces aces t -> j = aces) /\
    ((0 < j)%nat -> 21 < adjustForAces aces t + 10).
Proof.
  revert t. induction aces as [|aces IH]; intros t; cbn [adjustForAces].
  - exists 0%nat. repeat split; lia.
  - destruct (Z.gtb_spec t 21) as [Hgt|Hle].
    + destruct (IH (t - 10)) as (j & Hj & Heq & Hall & Hback).
      exists (S j). split; [lia|]. split; [lia|]. split; [intros H; f_equal; auto|].
      intros _. destruct j as [|j]; [rewrite Heq; lia|apply Hback; lia].
    + exists 0%nat. repeat split; lia.
Qed.

(** The total in terms of the hard total and the aces counted as 11. *)
Lemma handTotal_spec (cs : list Z) :
  exists eleven : nat,
    (eleven <= countAces cs)%nat /\
    (calculateHandTotal cs).1.1 = hardTotal cs + 10 * Z.of_nat eleven /\
    (21 < (calculateHandTotal cs).1.1 -> eleven = 0%nat) /\
    ((eleven < countAces cs)%nat -> 21 < (calculateHandTotal cs).1.1 + 10) /\
    (calculateHandTotal cs).1.2 = ((calculateHandTotal cs).1.1 >? 21) /\
    (calculateHandTotal cs).2 =
      (length cs =? 2)%nat && ((calculateHandTotal cs).1.1 =? 21).
Proof.
  unfold calculateHandTotal. rewrite fold_addCard. cbn [fst snd].
  rewrite Nat.add_0_l, Z.add_0_l.
  destruct (adjustForAces_spec (countAces cs)
              (hardTotal cs + 10 * Z.of_nat (countAces cs)))
    as (j & Hj & Heq & Hall & Hback).
  exists (countAces cs - j)%nat. split; [lia|]. split; [lia|].
  split; [intros H; specialize (Hall H); lia|].
  split; [intros H; apply Hback; lia|]. done.
Qed.

(** X19. calculateHandTotal counts every ace as 1 or 11 so that the total
    is the highest value not over 21, and when every choice is over 21 it
    counts all aces as 1; the hand is busted exactly when its cards with
    all aces as 1 add up to more than 21. *)
Theorem hand_total_is_best_ace_choice (cs : list Z) :
  exists eleven : nat,
    (eleven <= countAces cs)%nat /\
    (calculateHandTotal cs).1.1 = hardTotal cs + 10 * Z.of_nat eleven /\
    (forall other : nat, (other <= countAces cs)%nat ->
       hardTotal cs + 10 * Z.of_nat other <= 21 ->
       hardTotal cs + 10 * Z.of_nat other <= (calculateHandTotal cs).1.1 <= 21) /\
    ((forall other : nat, (other <= countAces cs)%nat ->
        21 < hardTotal cs + 10 * Z.of_nat other) ->
     eleven = 0%nat) /\
    ((calculateHandTotal cs).1.2 = true <-> 21 < hardTotal cs).
Proof.
  destruct (handTotal_spec cs) as (j & Hj & Heq & Hover & Hback & Hbust & _).
  exists j. split; [done|]. split; [done|]. split; [|split].
  - intros other Ho Hfit.
    destruct (Z.le_gt_cases ((calculateHandTotal cs).1.1) 21) as [Hle|Hgt].
    + split; [|done].
      destruct (Nat.le_gt_cases other j) as [|Hlt]; [lia|].
      specialize (Hback ltac:(lia)). lia.
    + specialize (Hover ltac:(lia)). lia.
  - intros Hall. specialize (Hall j Hj). apply Hover. lia.
  - rewrite Hbust. split.
    + intros H. apply Z.gtb_lt in H. specialize (Hover H). lia.
    + intros H. apply Z.gtb_lt. lia.
Qed.

Lemma hardTotal_perm (cs cs' : list Z) : cs ≡ₚ cs' -> hardTotal cs = hardTotal cs'.
Proof. unfold hardTotal. induction 1; simpl; lia. Qed.

Lemma countAces_perm (cs cs' : list Z) : cs ≡ₚ cs' -> countAces cs = countAces cs'.
Proof.
  unfold countAces. induction 1 as [|x l l' _ IH|x y l|l l' l'' _ IH1 _ IH2]; simpl.
  - done.
  - destruct (x =? 1); simpl; lia.
  - destruct (x =? 1), (y =? 1); simpl; lia.
  - lia.
Qed.

(** X20. The result of calculateHandTotal does not depend on the order of
    the cards. *)
Theorem hand_total_ignores_order (cs cs' : list Z) :
  cs ≡ₚ cs' -> calculateHandTotal cs = calculateHandTotal cs'.
Proof.
  intros Hp. unfold calculateHandTotal. rewrite !fold_addCard.
  now rewrite (hardTotal_perm _ _ Hp), (countAces_perm _ _ Hp), (Permutation_length Hp).
Qed.

Lemma hand_total_ignores_order_witness :
  [1; 5; 13] ≡ₚ [13; 1; 5] /\
  calculateHandTotal [1; 5; 13] = calculateHandTotal [13; 1; 5].
Proof.
  assert (H : [1; 5; 13] ≡ₚ [13; 1; 5]).
  { change ([1; 5; 13] ≡ₚ [13] ++ [1; 5]). apply (Permutation_app_comm [1; 5] [13]). }
  split; [exact H|]. apply (hand_total_ignores_order _ _ H).
Defined.

Lemma hardValue_card (card : Z) : isCard card -> 1 <= hardValue card <= 10.
Proof.
  unfold isCard, hardValue. intros H.
  destruct (Z.eqb_spec card 1); [lia|]. destruct (Z.geb_spec card 11); lia.
Qed.

Lemma hardTotal_app (cs cs' : list Z) : hardTotal (cs ++ cs') = hardTotal cs + hardTotal cs'.
Proof. unfold hardTotal. induction cs as [|c cs IH]; simpl; lia. Qed.

Lemma hardTotal_nonneg (cs : list Z) : Forall isCard cs -> Z.of_nat (length cs) <= hardTotal cs.
Proof.
  induction 1 as [|c cs Hc _ IH]; [done|].
  change (hardTotal (c :: cs)) with (hardValue c + hardTotal cs).
  pose proof (hardValue_card c Hc). cbn [length]. lia.
Qed.

Lemma handTotal_bounds (cs : list Z) :
  hardTotal cs <= (calculateHandTotal cs).1.1 /\
  ((calculateHandTotal cs).1.1 <= 21 \/ (calculateHandTotal cs).1.1 = hardTotal cs).
Proof.
  destruct (handTotal_spec cs) as (j & _ & Heq & Hover & _).
  split; [lia|]. destruct (Z.le_gt_cases ((calculateHandTotal cs).1.1) 21) as [|Hgt]; [auto|].
  right. rewrite (Hover Hgt) in Heq. lia.
Qed.

(** Whatever the loop returns has a total of at least 17 and extends the
    dealer's cards by cards from the supply. *)
Lemma dealerDraws_result (fuel : nat) (supply : nat -> Z) :
  forall (drawn : nat) (dealerCards final : list Z),
    dealerDraws fuel supply drawn dealerCards = Normal final ->
    17 <= (calculateHandTotal final).1.1 /\
    exists extra,
      final = dealerCards ++ extra /\
      Forall (fun card => exists n, card = supply n) extra /\
      (extra = [] \/
       exists before last, final = before ++ [last] /\
                           (calculateHandTotal before).1.1 < 17).
Proof.
  induction fuel as [|fuel IH]; intros drawn dealerCards final; cbn [dealerDraws];
    destruct (Z.ltb_spec (calculateHandTotal dealerCards).1.1 17) as [Hlt|Hge];
    try done.
  - intros [= <-]. split; [done|]. exists []. rewrite app_nil_r. auto.
  - intros Hrun. destruct (IH _ _ _ Hrun) as (Hfinal & extra & -> & Hsup & Hlast).
    split; [done|]. exists (supply drawn :: extra).
    split; [now rewrite <- app_assoc|]. split; [constructor; eauto|]. right.
    destruct Hlast as [->|(before & last & Heq & Hb)].
    + exists dealerCards, (supply drawn). now rewrite app_nil_r.
    + eauto.
  - intros [= <-]. split; [done|]. exists []. rewrite app_nil_r. auto.
Qed.

(** With enough fuel for the cards still missing to 17 the loop returns. *)
Lemma dealerDraws_returns (fuel : nat) (supply : nat -> Z) :
  (forall n, isCard (supply n)) ->
  forall (drawn : nat) (dealerCards : list Z),
    Forall isCard dealerCards ->
    17 <= hardTotal dealerCards + Z.of_nat fuel ->
    exists final, dealerDraws fuel supply drawn dealerCards = Normal final.
Proof.
  intros Hsupply. induction fuel as [|fuel IH]; intros drawn dealerCards Hcards Hfuel;
    cbn [dealerDraws];
    destruct (Z.ltb_spec (calculateHandTotal dealerCards).1.1 17) as [Hlt|Hge];
    eauto.
  - pose proof (handTotal_bounds dealerCards) as [Hlow _]. lia.
  - apply IH.
    + apply Forall_app. split; [done|]. constructor; [apply Hsupply|constructor].
    + rewrite hardTotal_app. change (hardTotal [supply drawn]) with (hardValue (supply drawn) + 0).
      pose proof (hardValue_card _ (Hsupply drawn)). lia.
Qed.

(** X21. The dealer's loop of playDealerTurn always ends within 17 draws
    when every card is one of 1 to 13: it returns the dealer's cards
    followed by cards from the supply, with a total of at least 17; it
    draws nothing when the dealer already has 17 or more, and after a draw
    the total is at most 26. *)
Theorem dealer_stops_at_seventeen (fuel : nat) (supply : nat -> Z)
    (dealerCards : list Z) :
  (forall n, isCard (supply n)) -> Forall isCard dealerCards -> (17 <= fuel)%nat ->
  exists final extra,
    dealerDraws fuel supply 0 dealerCards = Normal final /\
    final = dealerCards ++ extra /\ Forall isCard final /\
    (length extra <= 17)%nat /\
    17 <= (calculateHandTotal final).1.1 /\
    (17 <= (calculateHandTotal dealerCards).1.1 -> extra = []) /\
    (extra <> [] -> (calculateHandTotal final).1.1 <= 26).
Proof.
  intros Hsupply Hcards Hfuel.
  destruct (dealerDraws_returns fuel supply Hsupply 0 dealerCards Hcards) as [final Hrun].
  { pose proof (hardTotal_nonneg dealerCards Hcards). lia. }
  destruct (dealerDraws_result fuel supply 0 dealerCards final Hrun)
    as (Htotal & extra & -> & Hsup & Hlast).
  assert (Hextra : Forall isCard extra).
  { eapply Forall_impl; [exact Hsup|]. intros card [n ->]. apply Hsupply. }
  assert (Hall : Forall isCard (dealerCards ++ extra)) by (apply Forall_app; done).
  exists (dealerCards ++ extra), extra. split; [done|]. split; [done|]. split; [done|].
  assert (Hupper : extra <> [] -> (calculateHandTotal (dealerCards ++ extra)).1.1 <= 26
                                  /\ (length extra <= 17)%nat).
  { intros Hne. destruct Hlast as [->|(before & last & Heq & Hb)]; [done|].
    rewrite Heq in *. apply Forall_app in Hall as [Hbefore Hl].
    apply Forall_cons in Hl as [Hl _].
    pose proof (handTotal_bounds before) as [Hlow _].
    pose proof (handTotal_bounds (before ++ [last])) as [_ Hhigh].
    rewrite hardTotal_app in Hhigh. change (hardTotal [last]) with (hardValue last + 0) in Hhigh.
    pose proof (hardValue_card last Hl).
    assert (Hlen : length (dealerCards ++ extra) = length (before ++ [last])) by now rewrite Heq.
    rewrite !length_app in Hlen. cbn [length] in Hlen.
    pose proof (hardTotal_nonneg before Hbefore). split; lia. }
  split; [|split; [done|split]].
  - destruct extra as [|e extra]; [simpl; lia|]. now apply Hupper.
  - intros Hdone. destruct Hlast as [->|(before & last & Heq & Hb)]; [done|].
    destruct extra as [|e extra]; [done|exfalso].
    revert Hrun. cbn [dealerDraws]. destruct fuel as [|fuel]; [lia|].
    cbn [dealerDraws].
    destruct (Z.ltb_spec (calculateHandTotal dealerCards).1.1 17) as [|_]; [lia|].
    intros [= Hsame]. apply (f_equal length) in Hsame.
    rewrite length_app in Hsame. cbn [length] in Hsame. lia.
  - intros Hne. now apply Hupper.
Qed.

Lemma dealer_stops_at_seventeen_witness :
  (forall n, isCard ((fun _ : nat => 4) n)) /\ Forall isCard [10; 2] /\ (17 <= 17)%nat /\
  exists final extra,
    dealerDraws 17 (fun _ : nat => 4) 0 [10; 2] = Normal final /\
    final = [10; 2] ++ extra /\ Forall isCard final /\
    (length extra <= 17)%nat /\
    17 <= (calculateHandTotal final).1.1 /\
    (17 <= (calculateHandTotal [10; 2]).1.1 -> extra = []) /\
    (extra <> [] -> (calculateHandTotal final).1.1 <= 26).
Proof.
  assert (H1 : forall n : nat, isCard ((fun _ : nat => 4) n)) by (intros n; unfold isCard; lia).
  assert (H2 : Forall isCard [10; 2]) by (repeat constructor; unfold isCard; lia).
  split; [exact H1|]. split; [exact H2|]. split; [lia|].
  apply (dealer_stops_at_seventeen 17 (fun _ : nat => 4) [10; 2] H1 H2). lia.
Defined.

Lemma handOf_fields (cs : list Z) :
  cards (handOf cs) = cs /\
  total (handOf cs) = (calculateHandTotal cs).1.1 /\
  isBusted (handOf cs) = (calculateHandTotal cs).1.2 /\
  isBlackjack (handOf cs) = (calculateHandTotal cs).2.
Proof. unfold handOf. now destruct (calculateHandTotal cs) as [[t b] bj]. Qed.

Lemma handOf_consistent (cs : list Z) : Forall isCard cs -> consistentHand (handOf cs).
Proof.
  intros H. destruct (handOf_fields cs) as (Hc & _). split; now rewrite Hc.
Qed.

Lemma handOf_busted (cs : list Z) :
  isBusted (handOf cs) = (total (handOf cs) >? 21) /\
  (isBusted (handOf cs) = true <-> 21 < hardTotal cs).
Proof.
  destruct (handOf_fields cs) as (_ & Ht & Hb & _).
  destruct (handTotal_spec cs) as (j & Hj & Heq & Hover & _ & Hbust & _).
  rewrite Hb, Ht, Hbust. split; [done|]. split.
  - intros H. apply Z.gtb_lt in H. specialize (Hover H). lia.
  - intros H. apply Z.gtb_lt. lia.
Qed.

Lemma handOf_blackjack (cs : list Z) :
  isBlackjack (handOf cs) = (length cs =? 2)%nat && (total (handOf cs) =? 21).
Proof.
  destruct (handOf_fields cs) as (_ & Ht & _ & Hbj).
  destruct (handTotal_spec cs) as (j & _ & _ & _ & _ & _ & H).
  now rewrite Hbj, Ht, H.
Qed.

Lemma createHand_start (c1 c2 : Z) :
  isCard c1 -> isCard c2 ->
  consistentHand (createHand c1 c2) /\ isBusted (createHand c1 c2) = false /\
  length (cards (createHand c1 c2)) = 2%nat.
Proof.
  intros H1 H2. unfold createHand.
  split; [apply handOf_consistent, Forall_cons_2, Forall_cons_2, Forall_nil_2; done|]. split.
  - destruct (isBusted (handOf [c1; c2])) eqn:Hb; [|done].
    apply handOf_busted in Hb. change (hardTotal [c1; c2]) with (hardValue c1 + (hardValue c2 + 0)) in Hb.
    pose proof (hardValue_card c1 H1). pose proof (hardValue_card c2 H2). lia.
  - now destruct (handOf_fields [c1; c2]) as (-> & _).
Qed.

(** X22. For cards from 1 to 13 a hand is a blackjack exactly when it is an
    ace with a ten, jack, queen or king, in either order. *)
Theorem blackjack_is_ace_and_ten (cs : list Z) :
  Forall isCard cs ->
  ((calculateHandTotal cs).2 = true <->
   exists ten, 10 <= ten <= 13 /\ (cs = [1; ten] \/ cs = [ten; 1])).
Proof.
  intros Hcards. split.
  - intros Hbj. destruct (handTotal_spec cs) as (j & Hj & Heq & _ & _ & _ & H).
    rewrite H in Hbj. apply andb_true_iff in Hbj as [Hlen Htotal].
    apply Nat.eqb_eq in Hlen. apply Z.eqb_eq in Htotal.
    destruct cs as [|a [|b [|? ?]]]; try discriminate Hlen.
    apply Forall_cons in Hcards as [Ha Hcards]. apply Forall_cons in Hcards as [Hb _].
    rewrite Htotal in Heq.
    change (hardTotal [a; b]) with (hardValue a + (hardValue b + 0)) in Heq.
    unfold countAces in Hj. cbn [List.filter] in Hj.
    unfold isCard in Ha, Hb. unfold hardValue in Heq.
    destruct (Z.eqb_spec a 1) as [->|Hna], (Z.eqb_spec b 1) as [->|Hnb];
      cbn [length] in Hj.
    + lia.
    + exists b. split; [|now left].
      destruct (Z.geb_spec b 11); lia.
    + exists a. split; [|now right].
      destruct (Z.geb_spec a 11); lia.
    + destruct (Z.geb_spec a 11), (Z.geb_spec b 11); lia.
  - intros (ten & Hten & [->| ->]);
      assert (Hcase : ten = 10 \/ ten = 11 \/ ten = 12 \/ ten = 13) by lia;
      destruct Hcase as [->|[->|[->| ->]]]; reflexivity.
Qed.

Lemma blackjack_is_ace_and_ten_witness :
  Forall isCard [12; 1] /\
  ((calculateHandTotal [12; 1]).2 = true <->
   exists ten, 10 <= ten <= 13 /\ ([12; 1] = [1; ten] \/ [12; 1] = [ten; 1])).
Proof.
  assert (H : Forall isCard [12; 1]) by (repeat constructor; unfold isCard; lia).
  split; [exact H|]. apply (blackjack_is_ace_and_ten [12; 1] H).
Defined.

(** ** The states of a game *)

Lemma playDealerTurn_result (fuel : nat) (supply : nat -> Z)
    (currentPlayerHand : BlackjackHand) (prev s' : BlackjackGameState) :
  playDealerTurn fuel supply currentPlayerHand prev = Normal s' ->
  exists final,
    dealerDraws fuel supply 0 (cards (dealerHand prev)) = Normal final /\
    s' = mkGame currentPlayerHand (handOf final)
                (decideWinner currentPlayerHand (handOf final)) true.
Proof.
  unfold playDealerTurn.
  destruct (dealerDraws fuel supply 0 (cards (dealerHand prev))) as [final| |]; [|done|done].
  cbn. intros Hs'. exists final. split; [done|].
  destruct (handTotal_spec final) as (_ & _ & _ & _ & _ & _ & Hbj).
  unfold handOf. destruct (calculateHandTotal final) as [[t busted] bj].
  cbn [fst snd] in Hbj. injection Hs' as <-. now rewrite Hbj.
Qed.

Lemma decideWinner_not_playing (p d : BlackjackHand) : decideWinner p d <> playing.
Proof.
  unfold decideWinner.
  destruct (isBlackjack p && isBlackjack d); [done|]. destruct (isBlackjack p); [done|].
  destruct (isBusted d || (total p >? total d)); [done|].
  destruct (total d >? total p); done.
Qed.

Lemma dealt_invariant (p : BlackjackHand) (final : list Z) :
  consistentHand p -> isBusted p = false -> Forall isCard final ->
  17 <= total (handOf final) ->
  gameInvariant (mkGame p (handOf final) (decideWinner p (handOf final)) true).
Proof.
  intros Hp Hnb Hfinal Hseventeen.
  pose proof (handOf_busted final) as [Hbd _].
  pose proof (handOf_blackjack final) as Hbjd.
  assert (Hbjp : isBlackjack p = true -> total p = 21).
  { destruct Hp as [Hp _]. rewrite Hp, handOf_blackjack.
    intros H. apply andb_true_iff in H as [_ H]. now apply Z.eqb_eq. }
  set (d := handOf final) in *.
  split; cbn [playerHand dealerHand gameStatus isDealerRevealed]; try done.
  - now apply handOf_consistent.
  - intros H. now apply decideWinner_not_playing in H.
  - unfold decideWinner.
    destruct (isBlackjack p) eqn:Hbp, (isBlackjack d) eqn:Hbd'; cbn [andb]; try done.
    + intros _. auto.
    + destruct (isBusted d) eqn:Hd; cbn [orb]; [intros _; auto|].
      destruct (Z.gtb_spec (total p) (total d)); [intros _; split; [done|]; split; [done|]; right; right; lia|].
      destruct (total d >? total p); done.
    + destruct (isBusted d) eqn:Hd; cbn [orb]; [intros _; auto|].
      destruct (Z.gtb_spec (total p) (total d)); [intros _; split; [done|]; split; [done|]; right; right; lia|].
      destruct (total d >? total p); done.
  - unfold decideWinner.
    destruct (isBlackjack p) eqn:Hbp, (isBlackjack d) eqn:Hbd'; cbn [andb]; try done.
    + intros _. symmetry in Hbjd. apply andb_true_iff in Hbjd as [_ Hd21].
      apply Z.eqb_eq in Hd21. rewrite Hbd, Hd21, (Hbjp eq_refl).
      repeat split; (done || lia).
    + destruct (isBusted d) eqn:Hd; cbn [orb]; [done|].
      destruct (Z.gtb_spec (total p) (total d)); [done|].
      destruct (Z.gtb_spec (total d) (total p)); [done|]. intros _. repeat split; (done || lia).
    + destruct (isBusted d) eqn:Hd; cbn [orb]; [done|].
      destruct (Z.gtb_spec (total p) (total d)); [done|].
      destruct (Z.gtb_spec (total d) (total p)); [done|]. intros _. repeat split; (done || lia).
  - unfold decideWinner.
    destruct (isBlackjack p) eqn:Hbp, (isBlackjack d) eqn:Hbd'; cbn [andb]; try done.
    + destruct (isBusted d) eqn:Hd; cbn [orb]; [done|].
      destruct (Z.gtb_spec (total p) (total d)); [done|].
      destruct (Z.gtb_spec (total d) (total p)); [|done]. intros _. right. repeat split; (done || lia).
    + destruct (isBusted d) eqn:Hd; cbn [orb]; [done|].
      destruct (Z.gtb_spec (total p) (total d)); [done|].
      destruct (Z.gtb_spec (total d) (total p)); [|done]. intros _. right. repeat split; (done || lia).
Qed.

Lemma newGame_invariant (p1 p2 d1 d2 : Z) :
  isCard p1 -> isCard p2 -> isCard d1 -> isCard d2 ->
  gameInvariant (newGame p1 p2 d1 d2).
Proof.
  intros Hp1 Hp2 Hd1 Hd2.
  destruct (createHand_start p1 p2 Hp1 Hp2) as (Hp & Hpb & _).
  destruct (createHand_start d1 d2 Hd1 Hd2) as (Hd & _ & Hdl).
  split; cbn [newGame playerHand dealerHand gameStatus isDealerRevealed]; done.
Qed.

Lemma status_playing (s : GameStatus) : negb (isPlaying s) = false -> s = playing.
Proof. now destruct s. Qed.

Lemma played_invariant (fuel : nat) (supply : nat -> Z) (s s' : BlackjackGameState) :
  gameInvariant s -> gameStatus s = playing -> (forall n, isCard (supply n)) ->
  playDealerTurn fuel supply (playerHand s) s = Normal s' ->
  gameInvariant s'.
Proof.
  intros Hinv Hplaying Hsupply Hrun.
  destruct (playDealerTurn_result _ _ _ _ _ Hrun) as (final & Hdraw & ->).
  destruct (dealerDraws_result _ _ _ _ _ Hdraw) as (Hseventeen & extra & -> & Hsup & _).
  destruct (inv_playing s Hinv Hplaying) as (_ & Hnb & _).
  apply dealt_invariant.
  - apply (inv_player s Hinv).
  - done.
  - apply Forall_app. split; [apply (inv_dealer s Hinv)|].
    eapply Forall_impl; [exact Hsup|]. intros card [n ->]. apply Hsupply.
  - now destruct (handOf_fields (cards (dealerHand s) ++ extra)) as (_ & -> & _).
Qed.

(** Every state of a game satisfies the invariant. *)
Lemma reachable_invariant (s : BlackjackGameState) : reachable s -> gameInvariant s.
Proof.
  induction 1 as [p1 p2 d1 d2 Hp1 Hp2 Hd1 Hd2
                 |s newCard _ IH Hcard
                 |s s' fuel supply _ IH Hsupply Hrun
                 |s s' fuel supply _ IH Hsupply Hrun
                 |s p1 p2 d1 d2 _ _ _ Hp1 Hp2 Hd1 Hd2].
  - now apply newGame_invariant.
  - unfold handleHit.
    destruct (negb (isPlaying (gameStatus s))) eqn:Hplay; cbn [orb]; [done|].
    apply status_playing in Hplay.
    destruct (isBusted (playerHand s)); cbn [orb]; [done|].
    destruct (total (playerHand s) =? 21); [done|].
    assert (Hnew : consistentHand (handOf (cards (playerHand s) ++ [newCard]))).
    { apply handOf_consistent, Forall_app. split; [apply (inv_player s IH)|].
      now apply Forall_cons_2, Forall_nil_2. }
    destruct (inv_playing s IH Hplay) as (Hrev & _ & Hlen).
    destruct (isBusted (handOf (cards (playerHand s) ++ [newCard]))) eqn:Hb.
    + split; cbn [playerHand dealerHand gameStatus isDealerRevealed]; try done.
      * apply (inv_dealer s IH).
      * intros _. now left.
    + split; cbn [playerHand dealerHand gameStatus isDealerRevealed];
        rewrite ?Hplay; try done.
      apply (inv_dealer s IH).
  - unfold handleStand in Hrun.
    destruct (negb (isPlaying (gameStatus s))) eqn:Hplay; cbn [orb] in Hrun.
    { injection Hrun as <-. done. }
    apply status_playing in Hplay.
    destruct (isDealerRevealed s); cbn [orb] in Hrun; [injection Hrun as <-; done|].
    destruct (total (playerHand s) =? 21); [injection Hrun as <-; done|].
    eapply played_invariant; eauto.
  - unfold dealerEffect in Hrun.
    destruct (isPlaying (gameStatus s)) eqn:Hplay; cbn [andb] in Hrun;
      [|injection Hrun as <-; done].
    assert (Hplaying : gameStatus s = playing) by (now destruct (gameStatus s)).
    destruct (isDealerRevealed s); cbn [negb] in Hrun; [injection Hrun as <-; done|].
    destruct (isBusted (playerHand s)) eqn:Hb.
    + injection Hrun as <-.
      split; cbn [playerHand dealerHand gameStatus isDealerRevealed]; try done.
      * apply (inv_player s IH).
      * apply (inv_dealer s IH).
      * intros _. now left.
    + destruct (total (playerHand s) =? 21); [|injection Hrun as <-; done].
      eapply played_invariant; eauto.
  - now apply newGame_invariant.
Qed.

(** X23. The gate opens only on a real win: in every state a game can
    reach, the status player-won means that the player's total is at most
    21, the dealer has been revealed with a total of at least 17, and the
    player holds a blackjack the dealer does not, or the dealer is over 21,
    or the player's total is higher than the dealer's. *)
Theorem gate_opens_only_on_a_win (s : BlackjackGameState) :
  reachable s -> gameStatus s = player_won ->
  isBusted (playerHand s) = false /\ total (playerHand s) <= 21 /\
  isDealerRevealed s = true /\ 17 <= total (dealerHand s) /\
  ((isBlackjack (playerHand s) = true /\ isBlackjack (dealerHand s) = false) \/
   21 < total (dealerHand s) \/
   total (dealerHand s) < total (playerHand s)).
Proof.
  intros Hreach Hwon. pose proof (reachable_invariant s Hreach) as Hinv.
  destruct (inv_player_won s Hinv Hwon) as (Hnb & Hseventeen & Hwhy).
  destruct (inv_player s Hinv) as [Hp _]. destruct (inv_dealer s Hinv) as [Hd _].
  pose proof (handOf_busted (cards (playerHand s))) as [Hpb _].
  pose proof (handOf_busted (cards (dealerHand s))) as [Hdb _].
  rewrite <- Hp in Hpb. rewrite <- Hd in Hdb.
  split; [done|]. split.
  { rewrite Hnb in Hpb. destruct (Z.gtb_spec (total (playerHand s)) 21); [done|lia]. }
  split; [apply (inv_over s Hinv); congruence|]. split; [done|].
  destruct Hwhy as [?|[Hbust|?]]; [auto| |auto].
  right; left. rewrite Hbust in Hdb. symmetry in Hdb. now apply Z.gtb_lt in Hdb.
Qed.

Lemma won_state_reachable :
  reachable (mkGame (handOf [10; 9]) (handOf [10; 6; 10]) player_won true).
Proof.
  apply (reach_stand (newGame 10 9 10 6) _ 17 (fun _ => 10)).
  - apply reach_new; unfold isCard; lia.
  - intros n. unfold isCard. lia.
  - reflexivity.
Qed.

Lemma gate_opens_only_on_a_win_witness :
  let s := mkGame (handOf [10; 9]) (handOf [10; 6; 10]) player_won true in
  reachable s /\ gameStatus s = player_won /\
  isBusted (playerHand s) = false /\ total (playerHand s) <= 21 /\
  isDealerRevealed s = true /\ 17 <= total (dealerHand s) /\
  ((isBlackjack (playerHand s) = true /\ isBlackjack (dealerHand s) = false) \/
   21 < total (dealerHand s) \/
   total (dealerHand s) < total (playerHand s)).
Proof.
  intros s. split; [exact won_state_reachable|]. split; [reflexivity|].
  apply (gate_opens_only_on_a_win s won_state_reachable). reflexivity.
Defined.

(** X24. In every state a game can reach, both hands carry the total and
    the flags calculateHandTotal gives for their cards; the dealer is
    hidden exactly while the status is playing, and then the player is not
    over 21 and the dealer holds two cards; a tie means equal totals of 17
    to 21; and the dealer wins only when the player is over 21 or the
    dealer's total, at most 21, is the higher one. *)
Theorem game_states_are_consistent (s : BlackjackGameState) :
  reachable s ->
  playerHand s = handOf (cards (playerHand s)) /\
  dealerHand s = handOf (cards (dealerHand s)) /\
  Forall isCard (cards (playerHand s) ++ cards (dealerHand s)) /\
  (gameStatus s = playing <-> isDealerRevealed s = false) /\
  (gameStatus s = playing ->
   total (playerHand s) <= 21 /\ length (cards (dealerHand s)) = 2%nat) /\
  (gameStatus s = tie ->
   total (playerHand s) = total (dealerHand s) /\ 17 <= total (dealerHand s) <= 21) /\
  (gameStatus s = dealer_won ->
   21 < total (playerHand s) \/
   total (playerHand s) < total (dealerHand s) <= 21).
Proof.
  intros Hreach. pose proof (reachable_invariant s Hreach) as Hinv.
  destruct (inv_player s Hinv) as [Hp Hpc]. destruct (inv_dealer s Hinv) as [Hd Hdc].
  pose proof (handOf_busted (cards (playerHand s))) as [Hpb _].
  pose proof (handOf_busted (cards (dealerHand s))) as [Hdb _].
  rewrite <- Hp in Hpb. rewrite <- Hd in Hdb.
  assert (Hnot : forall h, isBusted h = (total h >? 21) ->
                           (isBusted h = false <-> total h <= 21)).
  { intros h ->. destruct (Z.gtb_spec (total h) 21); split; (done || lia). }
  split; [done|]. split; [done|]. split; [now apply Forall_app|].
  split; [|split; [|split]].
  - split.
    + intros H. apply (inv_playing s Hinv H).
    + intros H. destruct (gameStatus s) eqn:Hs; [done| | |];
        rewrite (inv_over s Hinv) in H; congruence.
  - intros H. destruct (inv_playing s Hinv H) as (_ & Hnb & Hlen).
    split; [now apply Hnot|done].
  - intros H. destruct (inv_tie s Hinv H) as (_ & Hnd & Hseventeen & Heq).
    apply Hnot in Hnd; [|done]. lia.
  - intros H. destruct (inv_dealer_won s Hinv H) as [Hb|(Hnd & _ & Hlt)].
    + left. rewrite Hb in Hpb. destruct (Z.gtb_spec (total (playerHand s)) 21); [lia|done].
    + right. apply Hnot in Hnd; [|done]. lia.
Qed.

Lemma game_states_are_consistent_witness :
  let s := mkGame (handOf [10; 9]) (handOf [10; 6; 10]) player_won true in
  reachable s /\
  playerHand s = handOf (cards (playerHand s)) /\
  dealerHand s = handOf (cards (dealerHand s)) /\
  Forall isCard (cards (playerHand s) ++ cards (dealerHand s)) /\
  (gameStatus s = playing <-> isDealerRevealed s = false) /\
  (gameStatus s = playing ->
   total (playerHand s) <= 21 /\ length (cards (dealerHand s)) = 2%nat) /\
  (gameStatus s = tie ->
   total (playerHand s) = total (dealerHand s) /\ 17 <= total (dealerHand s) <= 21) /\
  (gameStatus s = dealer_won ->
   21 < total (playerHand s) \/
   total (playerHand s) < total (dealerHand s) <= 21).
Proof.
  intros s. split; [exact won_state_reachable|].
  apply (game_states_are_consistent s won_state_reachable).
Defined.

(** X25. Standing ends the round: from any state a game can reach in which
    the status is playing and the player's total is not 21, handleStand
    returns within 17 draws a state that keeps the player's hand, reveals
    a dealer with at least 17 and has a status other than playing. *)
Theorem standing_ends_the_round (fuel : nat) (supply : nat -> Z)
    (s : BlackjackGameState) :
  reachable s -> gameStatus s = playing -> total (playerHand s) <> 21 ->
  (forall n, isCard (supply n)) -> (17 <= fuel)%nat ->
  exists s',
    handleStand fuel supply s = Normal s' /\
    playerHand s' = playerHand s /\ isDealerRevealed s' = true /\
    gameStatus s' <> playing /\ 17 <= total (dealerHand s') /\
    exists extra, cards (dealerHand s') = cards (dealerHand s) ++ extra.
Proof.
  intros Hreach Hplaying H21 Hsupply Hfuel.
  pose proof (reachable_invariant s Hreach) as Hinv.
  destruct (inv_playing s Hinv Hplaying) as (Hrev & _ & _).
  destruct (inv_dealer s Hinv) as [_ Hdc].
  destruct (dealerDraws_returns fuel supply Hsupply 0 (cards (dealerHand s)) Hdc)
    as [final Hdraw].
  { pose proof (hardTotal_nonneg _ Hdc). lia. }
  destruct (dealerDraws_result _ _ _ _ _ Hdraw) as (Hseventeen & extra & Hfinal & _).
  unfold handleStand. rewrite Hplaying, Hrev. cbn [isPlaying negb orb].
  destruct (Z.eqb_spec (total (playerHand s)) 21); [done|].
  unfold playDealerTurn. rewrite Hdraw. cbn.
  destruct (handOf_fields final) as (Hc & Ht & _).
  unfold handOf in Hc, Ht. destruct (calculateHandTotal final) as [[t busted] bj].
  cbn [cards total fst] in *.
  eexists. split; [reflexivity|]. cbn [playerHand dealerHand gameStatus isDealerRevealed cards total].
  split; [done|]. split; [done|]. split; [apply decideWinner_not_playing|].
  split; [done|]. eauto.
Qed.

Lemma standing_ends_the_round_witness :
  reachable (newGame 10 9 10 6) /\ gameStatus (newGame 10 9 10 6) = playing /\
  total (playerHand (newGame 10 9 10 6)) <> 21 /\
  (forall n : nat, isCard ((fun _ : nat => 10) n)) /\ (17 <= 17)%nat /\
  exists s',
    handleStand 17 (fun _ : nat => 10) (newGame 10 9 10 6) = Normal s' /\
    playerHand s' = playerHand (newGame 10 9 10 6) /\ isDealerRevealed s' = true /\
    gameStatus s' <> playing /\ 17 <= total (dealerHand s') /\
    exists extra, cards (dealerHand s') = cards (dealerHand (newGame 10 9 10 6)) ++ extra.
Proof.
  assert (Hr : reachable (newGame 10 9 10 6)) by (apply reach_new; unfold isCard; lia).
  assert (Hs : forall n : nat, isCard ((fun _ : nat => 10) n)) by (intros n; unfold isCard; lia).
  assert (H21 : total (playerHand (newGame 10 9 10 6)) <> 21) by (vm_compute; discriminate).
  split; [exact Hr|]. split; [reflexivity|]. split; [exact H21|]. split; [exact Hs|].
  split; [lia|].
  apply (standing_ends_the_round 17 (fun _ : nat => 10) (newGame 10 9 10 6) Hr eq_refl H21 Hs).
  lia.
Defined.

(** * The translation route *)

Lemma string_append_assoc (a b c : string) : a +:+ (b +:+ c) = (a +:+ b) +:+ c.
Proof.
  induction a as [|x a IH]; [reflexivity|].
  change (String x (a +:+ (b +:+ c)) = String x ((a +:+ b) +:+ c)). now rewrite IH.
Qed.

Lemma validLanguageCode_chars (language : string) :
  validLanguageCode language = true ->
  (length (String.list_ascii_of_string language) = 2%nat \/
   length (String.list_ascii_of_string language) = 5%nat) /\
  Forall (fun c => isLowerAZ c = true \/ isUpperAZ c = true \/ c = "-"%char)
         (String.list_ascii_of_string language).
Proof.
  unfold validLanguageCode.
  destruct (String.list_ascii_of_string language) as [|a [|b [|h [|c [|d [|? ?]]]]]];
    try done.
  - intros H. apply andb_true_iff in H as [Ha Hb]. split; [now left|].
    apply Forall_cons_2; [auto|]. apply Forall_cons_2; [auto|]. apply Forall_nil_2.
  - intros H. apply andb_true_iff in H as [H Hd]. apply andb_true_iff in H as [H Hc].
    apply andb_true_iff in H as [H Hh]. apply andb_true_iff in H as [Ha Hb].
    apply Ascii.eqb_eq in Hh.
    split; [now right|].
    apply Forall_cons_2; [auto|]. apply Forall_cons_2; [auto|].
    apply Forall_cons_2; [auto|]. apply Forall_cons_2; [auto|].
    apply Forall_cons_2; [auto|]. apply Forall_nil_2.
Qed.

Lemma letter_or_hyphen_is_safe (c : ascii) :
  isLowerAZ c = true \/ isUpperAZ c = true \/ c = "-"%char ->
  c <> "/"%char /\ c <> "."%char /\ c <> "%"%char /\ c <> "\"%char /\ c <> "?"%char.
Proof.
  intros [H|[H| ->]]; [| |repeat split; discriminate];
    repeat split; intros ->; vm_compute in H; discriminate.
Qed.

(** X26. onRequestGet asks the bucket for an object only when the language
    code is two lower-case letters, alone or followed by a hyphen and two
    capitals; the URL is then the configured base, the full bucket URL
    having precedence, followed by /translations/, the code and .json, and
    the code holds no slash, dot, percent sign, backslash or question mark.
    Any other code is answered with status 400 whatever the configuration. *)
Theorem bucket_url_only_for_valid_codes (language : string) (env : Env) :
  (forall url, planRequest language env = FetchFrom url ->
     validLanguageCode language = true /\
     (exists base,
        url = base +:+ "/translations/" +:+ language +:+ ".json" /\
        ((isSet (B2_BUCKET_URL env) = true /\ base = valueOf (B2_BUCKET_URL env)) \/
         (isSet (B2_BUCKET_URL env) = false /\
          base = valueOf (B2_DOWNLOAD_URL env) +:+ "/file/" +:+ valueOf (B2_BUCKET_NAME env)))) /\
     (length (String.list_ascii_of_string language) = 2%nat \/
      length (String.list_ascii_of_string language) = 5%nat) /\
     Forall (fun c => c <> "/"%char /\ c <> "."%char /\ c <> "%"%char /\
                      c <> "\"%char /\ c <> "?"%char)
            (String.list_ascii_of_string language)) /\
  (validLanguageCode language = false ->
   planRequest language env = Respond 400 "Invalid language code" None).
Proof.
  split.
  - intros url Hplan. unfold planRequest in Hplan.
    destruct (negb (isSet (Some language))); cbn [orb] in Hplan; [done|].
    destruct (validLanguageCode language) eqn:Hvalid; cbn [negb] in Hplan; [|done].
    destruct (validLanguageCode_chars language Hvalid) as [Hlen Hchars].
    split; [done|]. split; [|split; [done|]].
    + destruct (isSet (B2_BUCKET_URL env)) eqn:Hurl.
      * injection Hplan as <-. eexists. split; [reflexivity|]. left. done.
      * destruct (isSet (B2_BUCKET_NAME env) && isSet (B2_DOWNLOAD_URL env)); [|done].
        injection Hplan as <-.
        exists (valueOf (B2_DOWNLOAD_URL env) +:+ "/file/" +:+ valueOf (B2_BUCKET_NAME env)).
        split; [|right; done].
        rewrite <- !string_append_assoc. reflexivity.
    + eapply Forall_impl; [exact Hchars|]. apply letter_or_hyphen_is_safe.
  - intros Hinvalid. unfold planRequest. rewrite Hinvalid. cbn [negb].
    now rewrite orb_true_r.
Qed.

Lemma bucket_url_only_for_valid_codes_witness :
  planRequest "pt-BR" (mkEnv None (Some "site"%string) (Some "https://dl.example"%string))
  = FetchFrom "https://dl.example/file/site/translations/pt-BR.json" /\
  validLanguageCode "pt-BR" = true /\
  validLanguageCode "../secret" = false /\
  planRequest "../secret" (mkEnv (Some "https://b.example"%string) None None)
  = Respond 400 "Invalid language code" None.
Proof.
  split; [reflexivity|]. split.
  - apply (proj1 (bucket_url_only_for_valid_codes "pt-BR"
             (mkEnv None (Some "site"%string) (Some "https://dl.example"%string)))
             "https://dl.example/file/site/translations/pt-BR.json"). reflexivity.
  - split; [reflexivity|].
    apply (proj2 (bucket_url_only_for_valid_codes "../secret"
                    (mkEnv (Some "https://b.example"%string) None None))). reflexivity.
Defined.
